(** * OpenSpec reconciliation core: a shallow embedding

    The development embeds the profile resolver ([src/core/profiles.ts]),
    the one-time config migration ([src/core/migration.ts]), the update
    driver ([src/core/update.ts]) and the init driver ([src/core/init.ts])
    as functions over an explicit world: a file tree, the persisted global
    configuration file and the console.  Exceptions and [process.exit] are
    results of a small state-and-error monad. *)

From stdpp Require Import base strings list gmap fin_maps pretty.

Open Scope string_scope.
Open Scope list_scope.

(* ===================================================================== *)
(** * Part I: definitions                                                  *)
(* ===================================================================== *)

(** ** Paths *)

(** A path is the list of its segments, so [path.join] is concatenation. *)
Abbreviation path := (list string).

(** The result of an adapter's [getFilePath]: relative to the project root
    or absolute ([path.isAbsolute]). *)
Record FilePath := mkFilePath { isAbsolute : bool; segments : path }.

(** [path.isAbsolute(p) ? p : path.join(projectPath, p)] *)
Definition resolvePath (projectPath : path) (p : FilePath) : path :=
  if isAbsolute p then segments p else projectPath ++ segments p.

(** ** File contents *)

(** The text of a file is kept symbolically by what determines it.
    [SkillContent w v h] is the text [generateSkillContent] returns for the
    template of workflow [w], version [v], with ([h = true]) or without
    the hyphen command transformer.  [CommandContent t c] is the text the
    command adapter of tool [t] formats for command [c]; the version is
    not an input of [generateCommands].  [OtherContent m] is any other
    text, with [m] the [generatedBy] marker found in its header. *)
Inductive content :=
  | SkillContent (workflowId : string) (generatedBy : string) (hyphenCommands : bool)
  | CommandContent (adapterId : string) (commandId : string)
  | ConfigYaml (schema : string)
  | OtherContent (marker : option string).

Inductive node :=
  | File (c : content)
  | Dir.

#[global] Instance content_eq_dec : EqDecision content.
Proof. solve_decision. Defined.
#[global] Instance node_eq_dec : EqDecision node.
Proof. solve_decision. Defined.

(** ** The file tree *)

Abbreviation FS :=
  (@gmap (list string) (@list_eq_dec string String.eq_dec)
     (@list_countable string String.eq_dec String.countable) node).

Definition existsSync (f : FS) (p : path) : bool :=
  bool_decide (is_Some (f !! p)).

(** [fs.statSync(p).isDirectory()], false when [statSync] throws. *)
Definition isDirectory (f : FS) (p : path) : bool :=
  match f !! p with
  | Some Dir => true
  | _ => false
  end.

(** All prefixes of a path, the path itself included. *)
Fixpoint inits (p : path) : list path :=
  [] :: match p with
        | [] => []
        | s :: r => map (cons s) (inits r)
        end.

Definition ensureDir (d : path) (f : FS) : FS :=
  match f !! d with
  | Some _ => f
  | None => <[d := Dir]> f
  end.

(** [mkdir -p d] *)
Definition mkdirp (d : path) (f : FS) : FS :=
  foldr ensureDir f (inits d).

Definition dirname (p : path) : path := removelast p.

(** A successful [FileSystemUtils.writeFile]: create the parent directory,
    then write the file. *)
Definition fsWrite (p : path) (c : content) (f : FS) : FS :=
  <[p := File c]> (mkdirp (dirname p) f).

(** A successful [fs.promises.rm(d, { recursive: true, force: true })]. *)
Definition fsRm (d : path) (f : FS) : FS :=
  filter (λ kv, ¬ d `prefix_of` kv.1) f.

(** A successful [fs.promises.unlink(p)]. *)
Definition fsUnlink (p : path) (f : FS) : FS := delete p f.

(** The mutating calls, as the failure oracle and the trace see them. *)
Inductive FsOp :=
  | OpWriteFile (p : path) (c : content)
  | OpMkdir (p : path)
  | OpRm (p : path)
  | OpUnlink (p : path).

#[global] Instance FsOp_eq_dec : EqDecision FsOp.
Proof. solve_decision. Defined.

Inductive FsEvent :=
  | Done (op : FsOp)
  | Failed (op : FsOp) (msg : string).

#[global] Instance FsEvent_eq_dec : EqDecision FsEvent.
Proof. solve_decision. Defined.

(** The files a trace wrote, in order. *)
Definition writesOf (t : list FsEvent) : list (path * content) :=
  omap (λ e, match e with
             | Done (OpWriteFile p c) => Some (p, c)
             | _ => None
             end) t.

(** The calls of a trace that failed. *)
Definition failuresOf (t : list FsEvent) : list FsOp :=
  omap (λ e, match e with
             | Failed op _ => Some op
             | _ => None
             end) t.

(** The successful mutations of a trace. *)
Definition mutationsOf (t : list FsEvent) : list FsOp :=
  omap (λ e, match e with
             | Done op => Some op
             | _ => None
             end) t.

(** ** Console *)

Inductive Out :=
  | ConsoleLog (s : string)
  | SpinnerStart (s : string)
  | SpinnerSucceed (s : string)
  | SpinnerFail (s : string).

#[global] Instance Out_eq_dec : EqDecision Out.
Proof. solve_decision. Defined.

(** ** The persisted global configuration *)

Inductive JValue :=
  | JNull
  | JBool (b : bool)
  | JString (s : string)
  | JStrings (l : list string)
  | JFlags (l : list (string * bool)).

#[global] Instance JValue_eq_dec : EqDecision JValue.
Proof. solve_decision. Defined.

(** The global config file: missing, unreadable (a read error or a text
    that [JSON.parse] rejects), the JSON text [null], or any other JSON
    value, given by its properties: an object, or a number or boolean,
    which has none. *)
Inductive ConfigFile :=
  | ConfigAbsent
  | ConfigUnreadable
  | ConfigNull
  | ConfigJson (obj : gmap string JValue).

Record GlobalConfig := mkGlobalConfig {
  profile : option string;
  workflows : option (list string);
  delivery : option string;
  featureFlags : list (string * bool)
}.

(** ** The world and the monad *)

Record World := mkWorld {
  fs : FS;
  configFile : ConfigFile;
  console : list Out;
  trace : list FsEvent
}.

(** A computation returns, throws an [Error] with a message, or ends the
    process ([process.exit(code)]). *)
Inductive Res (A : Type) :=
  | Ok (a : A)
  | Throw (msg : string)
  | Exit (code : nat).
Arguments Ok {A} a.
Arguments Throw {A} msg.
Arguments Exit {A} code.

Definition M (S A : Type) : Type := S → Res A * S.

Definition ret {S A} (a : A) : M S A := λ s, (Ok a, s).

Definition bind {S A B} (m : M S A) (k : A → M S B) : M S B :=
  λ s, match m s with
       | (Ok a, s') => k a s'
       | (Throw e, s') => (Throw e, s')
       | (Exit c, s') => (Exit c, s')
       end.

Definition throw {S A} (msg : string) : M S A := λ s, (Throw msg, s).

Definition processExit {S A} (code : nat) : M S A := λ s, (Exit code, s).

(** [try { m } catch (error) { h(error.message) }]; [process.exit] is not
    an exception and passes through. *)
Definition tryCatch {S A} (m : M S A) (h : string → M S A) : M S A :=
  λ s, match m s with
       | (Ok a, s') => (Ok a, s')
       | (Throw e, s') => h e s'
       | (Exit c, s') => (Exit c, s')
       end.

Definition gets {S A} (f : S → A) : M S A := λ s, (Ok (f s), s).

Definition modify {S} (f : S → S) : M S unit := λ s, (Ok tt, f s).

Notation "x <- m ;; k" := (bind m (λ x, k))
  (at level 100, m at next level, right associativity).
Notation "m ;;; k" := (bind m (λ _, k))
  (at level 100, right associativity).

(** [for (const x of l) { f(x) }] *)
Fixpoint forEach {S A} (l : list A) (f : A → M S unit) : M S unit :=
  match l with
  | [] => ret tt
  | x :: r => f x ;;; forEach r f
  end.

(** Run a world computation inside a state that also holds the local
    variables of the enclosing method. *)
Definition liftW {L A} (m : M World A) : M (World * L) A :=
  λ s, let (r, w') := m s.1 in (r, (w', s.2)).

Definition getLocals {L} : M (World * L) L := gets snd.
Definition setLocals {L} (f : L → L) : M (World * L) unit :=
  modify (λ s, (s.1, f s.2)).

(** Run a method with fresh locals; return its result with the final
    locals. *)
Definition withLocals {L A} (init : L) (m : M (World * L) A) : M World (A * L) :=
  λ w, match m (w, init) with
       | (Ok a, (w', l)) => (Ok (a, l), w')
       | (Throw e, (w', _)) => (Throw e, w')
       | (Exit c, (w', _)) => (Exit c, w')
       end.

Definition setFs (f : FS) (w : World) : World :=
  mkWorld f (configFile w) (console w) (trace w).
Definition setConfigFile (c : ConfigFile) (w : World) : World :=
  mkWorld (fs w) c (console w) (trace w).
Definition addOut (o : Out) (w : World) : World :=
  mkWorld (fs w) (configFile w) (console w ++ [o]) (trace w).
Definition addEvent (e : FsEvent) (w : World) : World :=
  mkWorld (fs w) (configFile w) (console w) (trace w ++ [e]).

Definition consoleLog (s : string) : M World unit := modify (addOut (ConsoleLog s)).
Definition emit (o : Out) : M World unit := modify (addOut o).

(** ** The environment: registry tables and external collaborators *)

(** An entry of [AI_TOOLS] ([AIToolOption] of [src/core/config.ts]). *)
Record AIToolOption := mkTool {
  value : string;
  name : string;
  skillsDir : option string
}.

(** A [ToolCommandAdapter]; [formatFile] is the symbolic [CommandContent]. *)
Record ToolCommandAdapter := mkAdapter {
  toolId : string;
  getFilePath : string → FilePath
}.

(** What the drivers use of a [LegacyDetectionResult]: the flag, the
    formatted summary and the tools [getToolsFromLegacyArtifacts] maps the
    legacy locations to. *)
Record LegacyDetectionResult := mkDetection {
  hasLegacyArtifacts : bool;
  detectionSummary : string;
  legacyTools : list string
}.

(** The tables and collaborators the embedded code imports from modules
    that are not part of the embedding.  [fault] is the failure oracle of
    the file system: for the current tree and a mutating call it says
    whether the call fails (EACCES, ENOSPC, EISDIR, ...) and with which
    message.  [confirm] and [searchableMultiSelect] are the answers of the
    user to the prompts.  [parseToolsArg available raw] is the string
    processing of [InitCommand.resolveToolsArg] on a [--tools] value: the
    selected tool ids, or the error it throws. *)
Record Env := mkEnv {
  AI_TOOLS : list AIToolOption;
  CommandAdapterRegistry_get : string → option ToolCommandAdapter;
  OPENSPEC_VERSION : string;
  COMMAND_IDS : list string;
  fault : FS → FsOp → option string;
  getAvailableTools : FS → path → list AIToolOption;
  detectLegacyArtifacts : FS → path → LegacyDetectionResult;
  cleanupLegacyArtifacts : path → LegacyDetectionResult → M World string;
  isInteractive : bool;
  confirm : string → bool;
  searchableMultiSelect : list string → list string;
  ensureWritePermissions : FS → path → bool;
  parseToolsArg : list string → string → Res (list string)
}.

Definition OPENSPEC_DIR_NAME : string := "openspec".

(** The double quote, for messages that contain one. *)
Definition dq : string := String (Ascii.ascii_of_nat 34) EmptyString.

(** The line feed of a template literal. *)
Definition nl : string := String (Ascii.ascii_of_nat 10) EmptyString.

(** [AI_TOOLS.find((t) => t.value === id)] *)
Definition findTool (E : Env) (id : string) : option AIToolOption :=
  List.find (λ t, bool_decide (value t = id)) (AI_TOOLS E).

(** [new Set(...)] keeps the first occurrence of each element, in order. *)
Definition setAdd (x : string) (l : list string) : list string :=
  if bool_decide (x ∈ l) then l else l ++ [x].

Definition toSet (l : list string) : list string :=
  foldl (λ acc x, setAdd x acc) [] l.

(** ** Mutating file-system calls *)

Definition attempt (E : Env) (op : FsOp) (eff : FS → FS) : M World unit :=
  λ w, match fault E (fs w) op with
       | Some msg => (Throw msg, addEvent (Failed op msg) w)
       | None => (Ok tt, addEvent (Done op) (setFs (eff (fs w)) w))
       end.

Definition writeFile (E : Env) (p : path) (c : content) : M World unit :=
  attempt E (OpWriteFile p c) (fsWrite p c).

Definition createDirectory (E : Env) (d : path) : M World unit :=
  attempt E (OpMkdir d) (mkdirp d).

Definition rm (E : Env) (d : path) : M World unit :=
  attempt E (OpRm d) (fsRm d).

Definition unlink (E : Env) (p : path) : M World unit :=
  attempt E (OpUnlink p) (fsUnlink p).

(** ** Global config store *)

Definition DEFAULT_CONFIG : GlobalConfig :=
  mkGlobalConfig (Some "core") None (Some "both") [].

Definition asString (v : JValue) : option string :=
  match v with JString s => Some s | _ => None end.
Definition asStrings (v : JValue) : option (list string) :=
  match v with JStrings l => Some l | _ => None end.
Definition asFlags (v : JValue) : list (string * bool) :=
  match v with JFlags l => l | _ => [] end.

(** The fields of a parsed config object over the defaults
    ([{ ...DEFAULT_CONFIG, ...parsed }]). *)
Definition mergeDefaults (obj : gmap string JValue) : GlobalConfig :=
  {| profile := match obj !! "profile" with
                | Some v => asString v
                | None => profile DEFAULT_CONFIG
                end;
     workflows := obj !! "workflows" ≫= asStrings;
     delivery := match obj !! "delivery" with
                 | Some v => asString v
                 | None => delivery DEFAULT_CONFIG
                 end;
     featureFlags := from_option asFlags [] (obj !! "featureFlags") |}.

(** Modelled from the spec: [getGlobalConfig] of [src/core/global-config.ts]
    is the [read() → GlobalConfig] of the Global Config Store, which
    "returns defaults if absent"; the defaults are profile [core] and
    delivery [both].  A file that is unreadable or holds [null] has no
    field to put over the defaults. *)
Definition readConfig (c : ConfigFile) : GlobalConfig :=
  match c with
  | ConfigJson obj => mergeDefaults obj
  | ConfigAbsent | ConfigUnreadable | ConfigNull => DEFAULT_CONFIG
  end.

Definition getGlobalConfig : M World GlobalConfig :=
  gets (λ w, readConfig (configFile w)).

Definition optInsert (k : string) (v : option JValue)
    (m : gmap string JValue) : gmap string JValue :=
  match v with
  | Some x => <[k := x]> m
  | None => m
  end.

(** [JSON.stringify(config)]: an undefined field has no key. *)
Definition toJson (c : GlobalConfig) : gmap string JValue :=
  optInsert "profile" (JString <$> profile c)
    (optInsert "workflows" (JStrings <$> workflows c)
      (optInsert "delivery" (JString <$> delivery c)
        (<["featureFlags" := JFlags (featureFlags c)]> ∅))).

(** Modelled from the spec: [saveGlobalConfig] of
    [src/core/global-config.ts] is the [write(GlobalConfig) → void] of the
    Global Config Store; it replaces the single config file. *)
Definition saveGlobalConfig (c : GlobalConfig) : M World unit :=
  modify (setConfigFile (ConfigJson (toJson c))).

(** ** [src/core/profiles.ts] *)

Definition CORE_WORKFLOWS : list string :=
  ["propose"; "explore"; "apply"; "archive"].

Definition ALL_WORKFLOWS : list string :=
  ["propose"; "explore"; "new"; "continue"; "apply"; "archive"; "verify"].

(** The argument is the runtime string: a persisted profile can be any
    text. *)
Definition getProfileWorkflows (profile : string)
    (customWorkflows : option (list string)) : list string :=
  if bool_decide (profile = "custom") then
    match customWorkflows with
    | Some l => l
    | None => []
    end
  else CORE_WORKFLOWS.

(** ** [src/core/shared/skill-generation.ts] *)

Record SkillTemplateEntry := mkSkillTemplate {
  dirName : string;
  workflowId : string
}.

Definition allSkillTemplates : list SkillTemplateEntry :=
  [ mkSkillTemplate "openspec-explore" "explore";
    mkSkillTemplate "openspec-new-change" "new";
    mkSkillTemplate "openspec-continue-change" "continue";
    mkSkillTemplate "openspec-apply-change" "apply";
    mkSkillTemplate "openspec-archive-change" "archive";
    mkSkillTemplate "openspec-verify-change" "verify";
    mkSkillTemplate "openspec-propose" "propose" ].

Definition getSkillTemplates (workflowFilter : option (list string))
    : list SkillTemplateEntry :=
  match workflowFilter with
  | None => allSkillTemplates
  | Some l => List.filter (λ e, bool_decide (workflowId e ∈ l)) allSkillTemplates
  end.

Definition allCommandTemplates : list string :=
  ["explore"; "new"; "continue"; "apply"; "archive"; "verify"; "propose"].

(** A [CommandTemplateEntry] or [CommandContent] is kept as its [id]. *)
Definition getCommandTemplates (workflowFilter : option (list string))
    : list string :=
  match workflowFilter with
  | None => allCommandTemplates
  | Some l => List.filter (λ i, bool_decide (i ∈ l)) allCommandTemplates
  end.

Definition getCommandContents (workflowFilter : option (list string))
    : list string :=
  getCommandTemplates workflowFilter.

Definition generateSkillContent (e : SkillTemplateEntry)
    (generatedByVersion : string) (transformInstructions : bool) : content :=
  SkillContent (workflowId e) generatedByVersion transformInstructions.

(** Modelled from the spec: [generateCommands] of
    [src/core/command-generation] applies the Tool-specific Command
    Adapter, "[getFilePath(workflowId) → path] and [formatFile(content) →
    text]", to each content. *)
Definition generateCommands (contents : list string) (a : ToolCommandAdapter)
    : list (FilePath * content) :=
  map (λ c, (getFilePath a c, CommandContent (toolId a) c)) contents.

(** [for] loop that updates one local variable. *)
Fixpoint foldM {S A B} (f : B → A → M S B) (l : list A) (b : B) : M S B :=
  match l with
  | [] => ret b
  | x :: r => b' <- f b x ;; foldM f r b'
  end.

(** [Record<string, string>] tables are association lists in the order of
    their keys; [table[k]] is the first match. *)
Fixpoint tableGet (table : list (string * string)) (k : string) : option string :=
  match table with
  | [] => None
  | (k', v) :: r => if bool_decide (k' = k) then Some v else tableGet r k
  end.

Arguments tableGet : simpl never.

(** A [skillsDir] that passes the test [if (!tool.skillsDir)]: defined and
    not the empty string. *)
Definition truthyDir (t : AIToolOption) : option string :=
  match skillsDir t with
  | Some d => if bool_decide (d = "") then None else Some d
  | None => None
  end.

(** ** [src/core/migration.ts] *)

Module Migration.

Definition WORKFLOW_TO_SKILL_DIR : list (string * string) :=
  [ ("propose", "openspec-propose");
    ("explore", "openspec-explore");
    ("new", "openspec-new-change");
    ("continue", "openspec-continue-change");
    ("apply", "openspec-apply-change");
    ("archive", "openspec-archive-change");
    ("verify", "openspec-verify-change") ].

Definition scanInstalledWorkflows (f : FS) (projectPath : path)
    (tools : list AIToolOption) : list string :=
  foldl (λ installed tool,
    match truthyDir tool with
    | None => installed
    | Some d =>
      let skillsDir := projectPath ++ [d; "skills"] in
      foldl (λ installed '(workflowId, skillDirName),
        let skillFile := skillsDir ++ [skillDirName; "SKILL.md"] in
        if existsSync f skillFile then setAdd workflowId installed
        else installed) installed WORKFLOW_TO_SKILL_DIR
    end) [] tools.

(** The value of [rawConfig] after the [try] block: [null], or a value
    with the properties [obj]. *)
Inductive RawConfig :=
  | RawNull
  | RawObject (obj : gmap string JValue).

(** The [try] block that reads the raw config file; [None] is its [catch]
    branch.  [rawConfig] starts as the empty object and is assigned only
    when the file exists. *)
Definition readRawConfig (c : ConfigFile) : option RawConfig :=
  match c with
  | ConfigAbsent => Some (RawObject ∅)
  | ConfigUnreadable => None
  | ConfigNull => Some RawNull
  | ConfigJson obj => Some (RawObject obj)
  end.

(** The message of the [TypeError] that reading [rawConfig.profile] raises
    when [rawConfig] is [null]; the read is after the [try] block, so
    nothing catches it. *)
Definition NULL_PROFILE_ERROR : string :=
  "Cannot read properties of null (reading 'profile')".

Definition migrateIfNeeded (projectPath : path) (tools : list AIToolOption)
    : M World unit :=
  config <- getGlobalConfig ;;
  raw <- gets (λ w, readRawConfig (configFile w)) ;;
  match raw with
  | None => ret tt
  | Some RawNull => throw NULL_PROFILE_ERROR
  | Some (RawObject rawConfig) =>
    if bool_decide (is_Some (rawConfig !! "profile")) then ret tt
    else
      f <- gets fs ;;
      let installedWorkflows := scanInstalledWorkflows f projectPath tools in
      if bool_decide (length installedWorkflows = 0) then ret tt
      else
        let config' := mkGlobalConfig (Some "custom") (Some installedWorkflows)
                         (delivery config) (featureFlags config) in
        saveGlobalConfig config' ;;;
        consoleLog ("Migrated: custom profile with "
                    +:+ pretty (length installedWorkflows) +:+ " workflows") ;;;
        consoleLog "New in this version: /opsx:propose. Try 'openspec config profile core' for the streamlined experience."
  end.

End Migration.

(** ** Version/Status Probe *)

Record ToolVersionStatus := mkStatus {
  st_toolId : string;
  configured : bool;
  generatedByVersion : option string;
  needsUpdate : bool
}.

(** Modelled from the spec: the Marker Parser, "given raw file text,
    extract a version string from a structured header region, or [null]".
    A generated skill file carries the version it was generated with; a
    generated command file has no version in it. *)
Definition extractGeneratedByVersion (n : node) : option string :=
  match n with
  | File (SkillContent _ v _) => Some v
  | File (OtherContent m) => m
  | _ => None
  end.

Definition managedSkillFiles (projectPath : path) (t : AIToolOption) : list path :=
  match truthyDir t with
  | None => []
  | Some d => map (λ e, projectPath ++ [d; "skills"; dirName e; "SKILL.md"])
                allSkillTemplates
  end.

Definition managedCommandFiles (E : Env) (projectPath : path) (toolId : string)
    : list path :=
  match CommandAdapterRegistry_get E toolId with
  | None => []
  | Some a => map (λ c, resolvePath projectPath (getFilePath a c)) (COMMAND_IDS E)
  end.

(** Modelled from the spec: [getToolVersionStatus] of [src/core/shared] is
    the Version/Status Probe.  "A tool is configured if any managed file
    exists under either location.  To extract generatedByVersion, read the
    first managed file found (skills take priority over commands when both
    exist)"; "needsUpdate is true when generatedByVersion is null or
    differs from currentVersion by exact string comparison". *)
Definition getToolVersionStatus (E : Env) (f : FS) (projectPath : path)
    (toolId : string) (currentVersion : string) : ToolVersionStatus :=
  let files :=
    match findTool E toolId with
    | Some t => managedSkillFiles projectPath t
    | None => []
    end ++ managedCommandFiles E projectPath toolId in
  let found := List.find (existsSync f) files in
  let version := found ≫= (λ p, f !! p ≫= extractGeneratedByVersion) in
  {| st_toolId := toolId;
     configured := bool_decide (is_Some found);
     generatedByVersion := version;
     needsUpdate := match version with
                    | None => true
                    | Some v => negb (bool_decide (v = currentVersion))
                    end |}.

(** Modelled from the spec: [getConfiguredTools] of [src/core/shared]
    lists the tools of the Tool Registry that can receive artifacts (they
    have a base directory) and for which the probe finds a managed
    artifact. *)
Definition getConfiguredTools (E : Env) (f : FS) (projectPath : path)
    : list string :=
  map value
    (List.filter (λ t, bool_decide (is_Some (truthyDir t))
                       && configured (getToolVersionStatus E f projectPath
                                        (value t) (OPENSPEC_VERSION E)))
       (AI_TOOLS E)).

(** [getToolsWithSkillsDir]: as [availableToolIds] of [src/cli/index.ts]. *)
Definition getToolsWithSkillsDir (E : Env) : list string :=
  map value (List.filter (λ t, bool_decide (is_Some (truthyDir t))) (AI_TOOLS E)).

(** ** Removal helpers shared by [UpdateCommand] and [InitCommand]

    Both classes carry the same table and the same two private methods. *)

Definition WORKFLOW_TO_SKILL_DIR : list (string * string) :=
  [ ("explore", "openspec-explore");
    ("new", "openspec-new-change");
    ("continue", "openspec-continue-change");
    ("apply", "openspec-apply-change");
    ("archive", "openspec-archive-change");
    ("verify", "openspec-verify-change");
    ("propose", "openspec-propose") ].

Definition removeSkillDirs (E : Env) (skillsDir : path) : M World nat :=
  foldM (λ removed workflow,
    match tableGet WORKFLOW_TO_SKILL_DIR workflow with
    | None => ret removed
    | Some dirName =>
      let skillDir := skillsDir ++ [dirName] in
      tryCatch
        (present <- gets (λ w, existsSync (fs w) skillDir) ;;
         if present then rm E skillDir ;;; ret (S removed)
         else ret removed)
        (λ _, ret removed)
    end) ALL_WORKFLOWS 0.

Definition removeCommandFiles (E : Env) (projectPath : path) (toolId : string)
    : M World nat :=
  match CommandAdapterRegistry_get E toolId with
  | None => ret 0
  | Some adapter =>
    foldM (λ removed workflow,
      let cmdPath := getFilePath adapter workflow in
      let fullPath := resolvePath projectPath cmdPath in
      tryCatch
        (present <- gets (λ w, existsSync (fs w) fullPath) ;;
         if present then unlink E fullPath ;;; ret (S removed)
         else ret removed)
        (λ _, ret removed)) ALL_WORKFLOWS 0
  end.

(** ** [src/core/update.ts] *)

Module Update.

(** The wrapper around the shared scan that accepts tool ids. *)
Definition scanInstalledWorkflows (E : Env) (f : FS) (projectPath : path)
    (toolIds : list string) : list string :=
  let tools := omap (findTool E) toolIds in
  Migration.scanInstalledWorkflows f projectPath tools.

(** The local variables of the reconciliation loop of [execute]. *)
Record Locals := mkLocals {
  updatedTools : list string;
  failedTools : list (string * string);
  removedCommandCount : nat;
  removedSkillCount : nat
}.

Definition pushUpdated (n : string) (l : Locals) : Locals :=
  mkLocals (updatedTools l ++ [n]) (failedTools l)
           (removedCommandCount l) (removedSkillCount l).
Definition pushFailed (n e : string) (l : Locals) : Locals :=
  mkLocals (updatedTools l) (failedTools l ++ [(n, e)])
           (removedCommandCount l) (removedSkillCount l).
Definition addRemovedCommands (k : nat) (l : Locals) : Locals :=
  mkLocals (updatedTools l) (failedTools l)
           (removedCommandCount l + k) (removedSkillCount l).
Definition addRemovedSkills (k : nat) (l : Locals) : Locals :=
  mkLocals (updatedTools l) (failedTools l)
           (removedCommandCount l) (removedSkillCount l + k).

Definition displayUpToDateMessage (E : Env) (toolStatuses : list ToolVersionStatus)
    : M World unit :=
  let toolNames := map st_toolId toolStatuses in
  consoleLog ("✓ All " +:+ pretty (length toolStatuses)
              +:+ " tool(s) up to date (v" +:+ OPENSPEC_VERSION E +:+ ")") ;;;
  consoleLog ("  Tools: " +:+ String.concat ", " toolNames) ;;;
  consoleLog "" ;;;
  consoleLog "Use --force to refresh files anyway.".

Definition displayUpdatePlan (E : Env) (toolsToUpdate : list string)
    (toolStatuses upToDate : list ToolVersionStatus) : M World unit :=
  let updates := map (λ toolId,
    match List.find (λ s, bool_decide (st_toolId s = toolId)) toolStatuses with
    | Some status =>
      if needsUpdate status then
        let fromVersion := default "unknown" (generatedByVersion status) in
        st_toolId status +:+ " (" +:+ fromVersion +:+ " → "
          +:+ OPENSPEC_VERSION E +:+ ")"
      else toolId +:+ " (config sync)"
    | None => toolId +:+ " (config sync)"
    end) toolsToUpdate in
  consoleLog ("Updating " +:+ pretty (length toolsToUpdate) +:+ " tool(s): "
              +:+ String.concat ", " updates) ;;;
  if bool_decide (0 < length upToDate) then
    consoleLog ("Already up to date: "
                +:+ String.concat ", " (map st_toolId upToDate))
  else ret tt.

Definition toolHasAnyConfiguredCommand (E : Env) (f : FS) (projectPath : path)
    (toolId : string) : bool :=
  match CommandAdapterRegistry_get E toolId with
  | None => false
  | Some adapter =>
    existsb (λ commandId,
      existsSync f (resolvePath projectPath (getFilePath adapter commandId)))
      (COMMAND_IDS E)
  end.

Definition getCommandConfiguredTools (E : Env) (f : FS) (projectPath : path)
    : list string :=
  List.filter (λ toolId, toolHasAnyConfiguredCommand E f projectPath toolId)
    (map value
      (List.filter (λ tool,
         match truthyDir tool with
         | None => false
         | Some d => isDirectory f (projectPath ++ [d])
         end) (AI_TOOLS E))).

Definition getConfiguredToolsForUpdate (E : Env) (f : FS) (projectPath : path)
    : list string :=
  let skillConfigured := getConfiguredTools E f projectPath in
  let commandConfigured := getCommandConfiguredTools E f projectPath in
  toSet (skillConfigured ++ commandConfigured).

Definition hasProfileOrDeliveryDrift (E : Env) (f : FS) (projectPath : path)
    (toolId : string) (profileWorkflows : list string)
    (shouldGenerateSkills shouldGenerateCommands : bool) : bool :=
  match findTool E toolId ≫= truthyDir with
  | None => false
  | Some d =>
    let skillsDir := projectPath ++ [d; "skills"] in
    let adapter := CommandAdapterRegistry_get E toolId in
    (if shouldGenerateSkills then
       existsb (λ workflow,
         match tableGet WORKFLOW_TO_SKILL_DIR workflow with
         | None => false
         | Some dirName => negb (existsSync f (skillsDir ++ [dirName; "SKILL.md"]))
         end) profileWorkflows
     else
       existsb (λ workflow,
         match tableGet WORKFLOW_TO_SKILL_DIR workflow with
         | None => false
         | Some dirName => existsSync f (skillsDir ++ [dirName])
         end) ALL_WORKFLOWS)
    ||
    match adapter with
    | None => false
    | Some a =>
      if shouldGenerateCommands then
        existsb (λ workflow,
          negb (existsSync f (resolvePath projectPath (getFilePath a workflow))))
          profileWorkflows
      else
        existsb (λ workflow,
          existsSync f (resolvePath projectPath (getFilePath a workflow)))
          ALL_WORKFLOWS
    end
  end.

Definition detectNewTools (E : Env) (projectPath : path)
    (configuredTools : list string) : M World unit :=
  f <- gets fs ;;
  let availableTools := getAvailableTools E f projectPath in
  let newTools :=
    List.filter (λ t, negb (bool_decide (value t ∈ configuredTools))) availableTools in
  if bool_decide (0 < length newTools) then
    consoleLog "" ;;;
    forEach newTools (λ tool,
      consoleLog ("Detected new tool: " +:+ name tool
                  +:+ ". Run 'openspec init' to add it."))
  else ret tt.

Definition displayExtraWorkflowsNote (E : Env) (projectPath : path)
    (configuredTools profileWorkflows : list string) : M World unit :=
  f <- gets fs ;;
  let installedWorkflows := scanInstalledWorkflows E f projectPath configuredTools in
  let extraWorkflows :=
    List.filter (λ w, negb (bool_decide (w ∈ profileWorkflows))) installedWorkflows in
  if bool_decide (0 < length extraWorkflows) then
    consoleLog ("Note: " +:+ pretty (length extraWorkflows)
                +:+ " extra workflows not in profile (use `openspec config profile` to manage)")
  else ret tt.

(** Steps of the body of the reconciliation loop, inside its [try]. *)
Definition writeSkills (E : Env) (skillsDir : path) (tool : AIToolOption)
    (skillTemplates : list SkillTemplateEntry) : M World unit :=
  forEach skillTemplates (λ e,
    let skillDir := skillsDir ++ [dirName e] in
    let skillFile := skillDir ++ ["SKILL.md"] in
    let transformer := bool_decide (value tool = "opencode") in
    let skillContent := generateSkillContent e (OPENSPEC_VERSION E) transformer in
    writeFile E skillFile skillContent).

Definition writeCommands (E : Env) (projectPath : path)
    (generatedCommands : list (FilePath * content)) : M World unit :=
  forEach generatedCommands (λ cmd,
    let commandFile := resolvePath projectPath cmd.1 in
    writeFile E commandFile cmd.2).

(** One iteration of [for (const toolId of toolsToUpdate)]. *)
Definition updateTool (E : Env) (projectPath : path)
    (shouldGenerateSkills shouldGenerateCommands : bool)
    (skillTemplates : list SkillTemplateEntry) (commandContents : list string)
    (toolId : string) : M (World * Locals) unit :=
  match findTool E toolId with
  | None => ret tt
  | Some tool =>
    match truthyDir tool with
    | None => ret tt
    | Some d =>
      liftW (emit (SpinnerStart ("Updating " +:+ name tool +:+ "..."))) ;;;
      tryCatch
        (let skillsDir := projectPath ++ [d; "skills"] in
         (if shouldGenerateSkills then
            liftW (writeSkills E skillsDir tool skillTemplates)
          else ret tt) ;;;
         (if negb shouldGenerateSkills then
            k <- liftW (removeSkillDirs E skillsDir) ;;
            setLocals (addRemovedSkills k)
          else ret tt) ;;;
         (if shouldGenerateCommands then
            match CommandAdapterRegistry_get E (value tool) with
            | Some adapter =>
              let generatedCommands := generateCommands commandContents adapter in
              liftW (writeCommands E projectPath generatedCommands)
            | None => ret tt
            end
          else ret tt) ;;;
         (if negb shouldGenerateCommands then
            k <- liftW (removeCommandFiles E projectPath toolId) ;;
            setLocals (addRemovedCommands k)
          else ret tt) ;;;
         liftW (emit (SpinnerSucceed ("Updated " +:+ name tool))) ;;;
         setLocals (pushUpdated (name tool)))
        (λ error,
           liftW (emit (SpinnerFail ("Failed to update " +:+ name tool))) ;;;
           setLocals (pushFailed (name tool) error))
    end
  end.

(** Step 11 of [execute]: the summary. *)
Definition displaySummary (E : Env) (l : Locals) : M World unit :=
  consoleLog "" ;;;
  (if bool_decide (0 < length (updatedTools l)) then
     consoleLog ("✓ Updated: " +:+ String.concat ", " (updatedTools l)
                 +:+ " (v" +:+ OPENSPEC_VERSION E +:+ ")")
   else ret tt) ;;;
  (if bool_decide (0 < length (failedTools l)) then
     consoleLog ("✗ Failed: "
       +:+ String.concat ", "
             (map (λ f, f.1 +:+ " (" +:+ f.2 +:+ ")") (failedTools l)))
   else ret tt) ;;;
  (if bool_decide (0 < removedCommandCount l) then
     consoleLog ("Removed: " +:+ pretty (removedCommandCount l)
                 +:+ " command files (delivery: skills)")
   else ret tt) ;;;
  (if bool_decide (0 < removedSkillCount l) then
     consoleLog ("Removed: " +:+ pretty (removedSkillCount l)
                 +:+ " skill directories (delivery: commands)")
   else ret tt).

(** Step 5 of [execute]: what the persisted config asks for. *)
Definition desiredWorkflowsOf (globalConfig : GlobalConfig) : list string :=
  let profile := default "core" (profile globalConfig) in
  let profileWorkflows := getProfileWorkflows profile (workflows globalConfig) in
  List.filter (λ workflow, bool_decide (workflow ∈ ALL_WORKFLOWS)) profileWorkflows.

Definition shouldGenerateSkillsOf (globalConfig : GlobalConfig) : bool :=
  negb (bool_decide (default "both" (delivery globalConfig) = "commands")).

Definition shouldGenerateCommandsOf (globalConfig : GlobalConfig) : bool :=
  negb (bool_decide (default "both" (delivery globalConfig) = "skills")).

(** Step 9 of [execute]: what to generate. *)
Definition skillTemplatesOf (globalConfig : GlobalConfig)
    : list SkillTemplateEntry :=
  if shouldGenerateSkillsOf globalConfig then
    getSkillTemplates (Some (desiredWorkflowsOf globalConfig))
  else [].

Definition commandContentsOf (globalConfig : GlobalConfig) : list string :=
  if shouldGenerateCommandsOf globalConfig then
    getCommandContents (Some (desiredWorkflowsOf globalConfig))
  else [].

(** Step 6 of [execute]. *)
Definition toolStatusesOf (E : Env) (f : FS) (projectPath : path)
    (configuredTools : list string) : list ToolVersionStatus :=
  let commandConfiguredSet := getCommandConfiguredTools E f projectPath in
  map (λ toolId,
    let status := getToolVersionStatus E f projectPath toolId (OPENSPEC_VERSION E) in
    if negb (configured status) && bool_decide (toolId ∈ commandConfiguredSet) then
      mkStatus (st_toolId status) true (generatedByVersion status) (needsUpdate status)
    else status) configuredTools.

(** Step 7 of [execute]: smart update detection. *)
Definition toolsToUpdateSetOf (E : Env) (f : FS) (projectPath : path)
    (configuredTools : list string) (globalConfig : GlobalConfig) : list string :=
  let toolStatuses := toolStatusesOf E f projectPath configuredTools in
  let toolsNeedingVersionUpdate :=
    map st_toolId (List.filter needsUpdate toolStatuses) in
  let toolsNeedingConfigSync :=
    List.filter (λ toolId,
      hasProfileOrDeliveryDrift E f projectPath toolId
        (desiredWorkflowsOf globalConfig)
        (shouldGenerateSkillsOf globalConfig)
        (shouldGenerateCommandsOf globalConfig)) configuredTools in
  toSet (toolsNeedingVersionUpdate ++ toolsNeedingConfigSync).

(** Step 10 of [execute]: the loop over [toolsToUpdate], with its locals. *)
Definition reconcileLoop (E : Env) (projectPath : path)
    (shouldGenerateSkills shouldGenerateCommands : bool)
    (skillTemplates : list SkillTemplateEntry) (commandContents : list string)
    (toolsToUpdate : list string) : M World (unit * Locals) :=
  withLocals (mkLocals [] [] 0 0)
    (forEach toolsToUpdate
       (updateTool E projectPath shouldGenerateSkills shouldGenerateCommands
          skillTemplates commandContents)).

(** Steps 3 to 15 of [execute], after the legacy pre-pass has returned the
    tools it newly configured. *)
Definition executeAfterLegacy (E : Env) (force : bool) (projectPath : path)
    (newlyConfiguredTools : list string) : M World unit :=
  f0 <- gets fs ;;
  let configuredTools := getConfiguredToolsForUpdate E f0 projectPath in
  if bool_decide (length configuredTools = 0)
     && bool_decide (length newlyConfiguredTools = 0) then
    consoleLog "No configured tools found." ;;;
    consoleLog ("Run " +:+ dq +:+ "openspec init" +:+ dq +:+ " to set up tools.")
  else
    let allToolIds := toSet (configuredTools ++ newlyConfiguredTools) in
    let allTools := omap (findTool E) allToolIds in
    Migration.migrateIfNeeded projectPath allTools ;;;
    globalConfig <- getGlobalConfig ;;
    let desiredWorkflows := desiredWorkflowsOf globalConfig in
    let shouldGenerateSkills := shouldGenerateSkillsOf globalConfig in
    let shouldGenerateCommands := shouldGenerateCommandsOf globalConfig in
    f <- gets fs ;;
    let toolStatuses := toolStatusesOf E f projectPath configuredTools in
    let toolsToUpdateSet :=
      toolsToUpdateSetOf E f projectPath configuredTools globalConfig in
    let toolsUpToDate :=
      List.filter (λ s, negb (bool_decide (st_toolId s ∈ toolsToUpdateSet)))
        toolStatuses in
    if negb force && bool_decide (length toolsToUpdateSet = 0) then
      displayUpToDateMessage E toolStatuses ;;;
      detectNewTools E projectPath configuredTools ;;;
      displayExtraWorkflowsNote E projectPath configuredTools desiredWorkflows
    else
      (if force then
         consoleLog ("Force updating " +:+ pretty (length configuredTools)
                     +:+ " tool(s): " +:+ String.concat ", " configuredTools)
       else displayUpdatePlan E toolsToUpdateSet toolStatuses toolsUpToDate) ;;;
      consoleLog "" ;;;
      let skillTemplates := skillTemplatesOf globalConfig in
      let commandContents := commandContentsOf globalConfig in
      let toolsToUpdate := if force then configuredTools else toolsToUpdateSet in
      r <- reconcileLoop E projectPath shouldGenerateSkills shouldGenerateCommands
             skillTemplates commandContents toolsToUpdate ;;
      let l := r.2 in
      displaySummary E l ;;;
      (if bool_decide (0 < length newlyConfiguredTools) then
         consoleLog "" ;;;
         consoleLog "Getting started:" ;;;
         consoleLog "  /opsx:new       Start a new change" ;;;
         consoleLog "  /opsx:continue  Create the next artifact" ;;;
         consoleLog "  /opsx:apply     Implement tasks" ;;;
         consoleLog "" ;;;
         consoleLog "Learn more: https://github.com/yf-river/OpenSpec"
       else ret tt) ;;;
      detectNewTools E projectPath configuredTools ;;;
      displayExtraWorkflowsNote E projectPath configuredTools desiredWorkflows ;;;
      (if bool_decide (0 < length (updatedTools l)) then
         consoleLog ("Tools: " +:+ String.concat ", " (updatedTools l))
       else ret tt) ;;;
      consoleLog "" ;;;
      consoleLog "Restart your IDE for changes to take effect.".

Definition performLegacyCleanup (E : Env) (projectPath : path)
    (detection : LegacyDetectionResult) : M World unit :=
  emit (SpinnerStart "Cleaning up legacy files...") ;;;
  summary <- cleanupLegacyArtifacts E projectPath detection ;;
  emit (SpinnerSucceed "Legacy files cleaned up") ;;;
  (if bool_decide (summary = "") then ret tt
   else consoleLog "" ;;; consoleLog summary) ;;;
  consoleLog "".

Definition upgradeLegacyTools (E : Env) (force : bool) (projectPath : path)
    (detection : LegacyDetectionResult) (canPrompt : bool)
    : M World (list string) :=
  let legacyTools := legacyTools detection in
  if bool_decide (length legacyTools = 0) then ret []
  else
    f <- gets fs ;;
    let configuredTools := getConfiguredToolsForUpdate E f projectPath in
    let unconfiguredLegacyTools :=
      List.filter (λ t, negb (bool_decide (t ∈ configuredTools))) legacyTools in
    if bool_decide (length unconfiguredLegacyTools = 0) then ret []
    else
      let validToolIds := getToolsWithSkillsDir E in
      let validUnconfiguredTools :=
        List.filter (λ t, bool_decide (t ∈ validToolIds)) unconfiguredLegacyTools in
      if bool_decide (length validUnconfiguredTools = 0) then ret []
      else
        consoleLog "Tools detected from legacy artifacts:" ;;;
        forEach validUnconfiguredTools (λ toolId,
          consoleLog ("  • " +:+ from_option name toolId (findTool E toolId))) ;;;
        consoleLog "" ;;;
        selectedTools <-
          (if force || negb canPrompt then
             consoleLog ("Setting up skills for: "
                         +:+ String.concat ", " validUnconfiguredTools) ;;;
             ret validUnconfiguredTools
           else ret (searchableMultiSelect E validUnconfiguredTools)) ;;
        if negb (force || negb canPrompt)
           && bool_decide (length selectedTools = 0) then
          consoleLog "Skipping tool setup." ;;;
          consoleLog "" ;;;
          ret []
        else
          let skillTemplates := getSkillTemplates None in
          let commandContents := getCommandContents None in
          newlyConfigured <-
            foldM (λ newlyConfigured toolId,
              match findTool E toolId with
              | None => ret newlyConfigured
              | Some tool =>
                match truthyDir tool with
                | None => ret newlyConfigured
                | Some d =>
                  emit (SpinnerStart ("Setting up " +:+ name tool +:+ "...")) ;;;
                  tryCatch
                    (let skillsDir := projectPath ++ [d; "skills"] in
                     writeSkills E skillsDir tool skillTemplates ;;;
                     match CommandAdapterRegistry_get E (value tool) with
                     | Some adapter =>
                       writeCommands E projectPath
                         (generateCommands commandContents adapter)
                     | None => ret tt
                     end ;;;
                     emit (SpinnerSucceed ("Setup complete for " +:+ name tool)) ;;;
                     ret (newlyConfigured ++ [toolId]))
                    (λ error,
                       emit (SpinnerFail ("Failed to set up " +:+ name tool)) ;;;
                       consoleLog ("  " +:+ error) ;;;
                       ret newlyConfigured)
                end
              end) selectedTools [] ;;
          (if bool_decide (0 < length newlyConfigured) then consoleLog ""
           else ret tt) ;;;
          ret newlyConfigured.

Definition handleLegacyCleanup (E : Env) (force : bool) (projectPath : path)
    : M World (list string) :=
  f <- gets fs ;;
  let detection := detectLegacyArtifacts E f projectPath in
  if negb (hasLegacyArtifacts detection) then ret []
  else
    consoleLog "" ;;;
    consoleLog (detectionSummary detection) ;;;
    consoleLog "" ;;;
    let canPrompt := isInteractive E in
    if force then
      performLegacyCleanup E projectPath detection ;;;
      upgradeLegacyTools E force projectPath detection canPrompt
    else if negb canPrompt then
      consoleLog "⚠ Run with --force to auto-cleanup legacy files, or run interactively." ;;;
      consoleLog "" ;;;
      ret []
    else
      let shouldCleanup := confirm E "Upgrade and clean up legacy files?" in
      if shouldCleanup then
        performLegacyCleanup E projectPath detection ;;;
        upgradeLegacyTools E force projectPath detection canPrompt
      else
        consoleLog "Skipping legacy cleanup. Continuing with skill update..." ;;;
        consoleLog "" ;;;
        ret [].

Definition execute (E : Env) (force : bool) (projectPath : path) : M World unit :=
  let openspecPath := projectPath ++ [OPENSPEC_DIR_NAME] in
  f <- gets fs ;;
  if negb (isDirectory f openspecPath) then
    throw "No OpenSpec directory found. Run 'openspec init' first."
  else
    newlyConfiguredTools <- handleLegacyCleanup E force projectPath ;;
    executeAfterLegacy E force projectPath newlyConfiguredTools.

End Update.

(** ** [src/core/init.ts] *)

Module Init.

(** The fields of an [InitCommand] instance. *)
Record InitCommand := mkInit {
  toolsArg : option string;
  force : bool;
  interactiveOption : option bool;
  profileOverride : option string
}.

Record ValidatedTool := mkValidated {
  v_value : string;
  v_name : string;
  v_skillsDir : string;
  wasConfigured : bool
}.

Inductive ConfigStatus := Created | Exists | Skipped.

(** The local variables of [generateSkillsAndCommands], its result. *)
Record Results := mkResults {
  createdTools : list ValidatedTool;
  refreshedTools : list ValidatedTool;
  failedTools : list (string * string);
  commandsSkipped : list string;
  removedCommandCount : nat;
  removedSkillCount : nat
}.

Definition pushCreated (t : ValidatedTool) (r : Results) : Results :=
  mkResults (createdTools r ++ [t]) (refreshedTools r) (failedTools r)
            (commandsSkipped r) (removedCommandCount r) (removedSkillCount r).
Definition pushRefreshed (t : ValidatedTool) (r : Results) : Results :=
  mkResults (createdTools r) (refreshedTools r ++ [t]) (failedTools r)
            (commandsSkipped r) (removedCommandCount r) (removedSkillCount r).
Definition pushFailed (n e : string) (r : Results) : Results :=
  mkResults (createdTools r) (refreshedTools r) (failedTools r ++ [(n, e)])
            (commandsSkipped r) (removedCommandCount r) (removedSkillCount r).
Definition pushSkipped (t : string) (r : Results) : Results :=
  mkResults (createdTools r) (refreshedTools r) (failedTools r)
            (commandsSkipped r ++ [t]) (removedCommandCount r) (removedSkillCount r).
Definition addRemovedCommands (k : nat) (r : Results) : Results :=
  mkResults (createdTools r) (refreshedTools r) (failedTools r)
            (commandsSkipped r) (removedCommandCount r + k) (removedSkillCount r).
Definition addRemovedSkills (k : nat) (r : Results) : Results :=
  mkResults (createdTools r) (refreshedTools r) (failedTools r)
            (commandsSkipped r) (removedCommandCount r) (removedSkillCount r + k).

Definition DEFAULT_SCHEMA : string := "spec-driven".

Definition showPath (p : path) : string := "/" +:+ String.concat "/" p.

Definition validate (E : Env) (projectPath openspecPath : path) : M World bool :=
  f <- gets fs ;;
  let extendMode := isDirectory f openspecPath in
  if negb (ensureWritePermissions E f projectPath) then
    throw ("Insufficient permissions to write to " +:+ showPath projectPath)
  else ret extendMode.

Definition canPromptInteractively (E : Env) (c : InitCommand) : bool :=
  if bool_decide (interactiveOption c = Some false) then false
  else if bool_decide (toolsArg c ≠ None) then false
  else isInteractive E.

Definition resolveProfileOverride {S} (c : InitCommand) : M S (option string) :=
  match profileOverride c with
  | None => ret None
  | Some p =>
    if bool_decide (p = "core") || bool_decide (p = "custom") then ret (Some p)
    else throw ("Invalid profile " +:+ dq +:+ p +:+ dq
                +:+ ". Available profiles: core, custom")
  end.

Definition performLegacyCleanup (E : Env) (projectPath : path)
    (detection : LegacyDetectionResult) : M World unit :=
  Update.performLegacyCleanup E projectPath detection.

Definition handleLegacyCleanup (E : Env) (c : InitCommand) (projectPath : path)
    (extendMode : bool) : M World unit :=
  f <- gets fs ;;
  let detection := detectLegacyArtifacts E f projectPath in
  if negb (hasLegacyArtifacts detection) then ret tt
  else
    consoleLog "" ;;;
    consoleLog (detectionSummary detection) ;;;
    consoleLog "" ;;;
    let canPrompt := canPromptInteractively E c in
    if force c then performLegacyCleanup E projectPath detection
    else if negb canPrompt then
      consoleLog "Legacy files detected in non-interactive mode." ;;;
      consoleLog "Run interactively to upgrade, or use --force to auto-cleanup." ;;;
      processExit 1
    else
      let shouldCleanup := confirm E "Upgrade and clean up legacy files?" in
      if negb shouldCleanup then
        consoleLog "Initialization cancelled." ;;;
        consoleLog "Run with --force to skip this prompt, or manually remove legacy files." ;;;
        processExit 0
      else performLegacyCleanup E projectPath detection.

(** Modelled from the spec: [getToolStates] of [src/core/shared] gives,
    per tool, the [configured] flag of its status: "true iff at least one
    managed artifact file exists for the tool". *)
Definition getToolStates (E : Env) (f : FS) (projectPath : path)
    (toolId : string) : option bool :=
  if bool_decide (toolId ∈ getToolsWithSkillsDir E) then
    Some (configured (getToolVersionStatus E f projectPath toolId
                        (OPENSPEC_VERSION E)))
  else None.

Definition getSelectedTools (E : Env) (c : InitCommand)
    (toolStates : string → option bool) (extendMode : bool)
    (detectedTools : list AIToolOption) (projectPath : path)
    : M World (list string) :=
  match toolsArg c with
  | Some raw =>
    match parseToolsArg E (getToolsWithSkillsDir E) raw with
    | Ok l => ret l
    | Throw e => throw e
    | Exit k => processExit k
    end
  | None =>
    let validTools := getToolsWithSkillsDir E in
    let detectedToolIds := toSet (map value detectedTools) in
    let canPrompt := canPromptInteractively E c in
    if negb canPrompt then
      if bool_decide (0 < length detectedToolIds) then ret detectedToolIds
      else
        throw ("No tools detected and no --tools flag provided. Valid tools:"
               +:+ nl +:+ "  " +:+ String.concat (nl +:+ "  ") validTools
               +:+ nl +:+ nl
               +:+ "Use --tools all, --tools none, or --tools claude,cursor,...")
    else if bool_decide (length validTools = 0) then
      throw "No tools available for skill generation."
    else
      let preSelected toolId :=
        default false (toolStates toolId) || bool_decide (toolId ∈ detectedToolIds) in
      let sortedChoices :=
        List.filter preSelected validTools
        ++ List.filter (λ t, negb (preSelected t)) validTools in
      (if bool_decide (0 < length detectedToolIds) then
         consoleLog ("Detected: " +:+ String.concat ", " (map name detectedTools))
       else ret tt) ;;;
      let selectedTools := searchableMultiSelect E sortedChoices in
      if bool_decide (length selectedTools = 0) then
        throw "At least one tool must be selected"
      else ret selectedTools
  end.

Definition validateTools (E : Env) (toolIds : list string)
    (toolStates : string → option bool) : M World (list ValidatedTool) :=
  foldM (λ validatedTools toolId,
    match findTool E toolId with
    | None =>
      let validToolIds := getToolsWithSkillsDir E in
      throw ("Unknown tool '" +:+ toolId +:+ "'. Valid tools:" +:+ nl +:+ "  "
             +:+ String.concat (nl +:+ "  ") validToolIds)
    | Some tool =>
      match truthyDir tool with
      | None =>
        let validToolsWithSkills := getToolsWithSkillsDir E in
        throw ("Tool '" +:+ toolId +:+ "' does not support skill generation."
               +:+ nl +:+ "Tools with skill generation support:" +:+ nl +:+ "  "
               +:+ String.concat (nl +:+ "  ") validToolsWithSkills)
      | Some d =>
        ret (validatedTools
             ++ [mkValidated (value tool) (name tool) d
                   (default false (toolStates (value tool)))])
      end
    end) toolIds [].

Definition createDirectoryStructure (E : Env) (openspecPath : path)
    (extendMode : bool) : M World unit :=
  let directories :=
    [ openspecPath;
      openspecPath ++ ["specs"];
      openspecPath ++ ["changes"];
      openspecPath ++ ["changes"; "archive"] ] in
  if extendMode then forEach directories (createDirectory E)
  else
    emit (SpinnerStart "Creating OpenSpec structure...") ;;;
    forEach directories (createDirectory E) ;;;
    emit (SpinnerSucceed "OpenSpec structure created").

(** One iteration of [for (const tool of tools)] of
    [generateSkillsAndCommands]. *)
Definition setupTool (E : Env) (projectPath : path)
    (shouldGenerateSkills shouldGenerateCommands : bool)
    (skillTemplates : list SkillTemplateEntry) (commandContents : list string)
    (tool : ValidatedTool) : M (World * Results) unit :=
  liftW (emit (SpinnerStart ("Setting up " +:+ v_name tool +:+ "..."))) ;;;
  let isClaudeTool := bool_decide (v_value tool = "claude") in
  let toolGenerateSkills := if isClaudeTool then false else shouldGenerateSkills in
  let toolGenerateCommands := if isClaudeTool then true else shouldGenerateCommands in
  let toolSkillTemplates := if toolGenerateSkills then skillTemplates else [] in
  tryCatch
    ((if toolGenerateSkills then
        let skillsDir := projectPath ++ [v_skillsDir tool; "skills"] in
        liftW (Update.writeSkills E skillsDir
                 (mkTool (v_value tool) (v_name tool) (Some (v_skillsDir tool)))
                 toolSkillTemplates)
      else ret tt) ;;;
     (if negb toolGenerateSkills then
        let skillsDir := projectPath ++ [v_skillsDir tool; "skills"] in
        k <- liftW (removeSkillDirs E skillsDir) ;;
        setLocals (addRemovedSkills k)
      else ret tt) ;;;
     (if toolGenerateCommands then
        match CommandAdapterRegistry_get E (v_value tool) with
        | Some adapter =>
          liftW (Update.writeCommands E projectPath
                   (generateCommands commandContents adapter))
        | None => setLocals (pushSkipped (v_value tool))
        end
      else ret tt) ;;;
     (if negb toolGenerateCommands then
        k <- liftW (removeCommandFiles E projectPath (v_value tool)) ;;
        setLocals (addRemovedCommands k)
      else ret tt) ;;;
     liftW (emit (SpinnerSucceed ("Setup complete for " +:+ v_name tool))) ;;;
     (if wasConfigured tool then setLocals (pushRefreshed tool)
      else setLocals (pushCreated tool)))
    (λ error,
       liftW (emit (SpinnerFail ("Failed for " +:+ v_name tool))) ;;;
       setLocals (pushFailed (v_name tool) error)).

Definition generateSkillsAndCommands (E : Env) (c : InitCommand)
    (projectPath : path) (tools : list ValidatedTool) : M World Results :=
  globalConfig <- getGlobalConfig ;;
  override <- resolveProfileOverride c ;;
  let profile := default (default "core" (profile globalConfig)) override in
  let delivery := default "both" (delivery globalConfig) in
  let workflows := getProfileWorkflows profile (workflows globalConfig) in
  let shouldGenerateSkills := negb (bool_decide (delivery = "commands")) in
  let shouldGenerateCommands := negb (bool_decide (delivery = "skills")) in
  let skillTemplates :=
    if shouldGenerateSkills then getSkillTemplates (Some workflows) else [] in
  let commandContents :=
    if shouldGenerateCommands then getCommandContents (Some workflows) else [] in
  r <- withLocals (mkResults [] [] [] [] 0 0)
         (forEach tools
            (setupTool E projectPath shouldGenerateSkills shouldGenerateCommands
               skillTemplates commandContents)) ;;
  ret r.2.

Definition createConfig (E : Env) (c : InitCommand) (openspecPath : path)
    (extendMode : bool) : M World ConfigStatus :=
  let configPath := openspecPath ++ ["config.yaml"] in
  let configYmlPath := openspecPath ++ ["config.yml"] in
  f <- gets fs ;;
  if existsSync f configPath || existsSync f configYmlPath then ret Exists
  else if negb (canPromptInteractively E c) && negb (force c) then ret Skipped
  else
    tryCatch
      (writeFile E configPath (ConfigYaml DEFAULT_SCHEMA) ;;; ret Created)
      (λ _, ret Skipped).

Definition displaySuccessMessage (E : Env) (c : InitCommand) (projectPath : path)
    (tools : list ValidatedTool) (results : Results)
    (configStatus : ConfigStatus) : M World unit :=
  consoleLog "" ;;;
  consoleLog "OpenSpec Setup Complete" ;;;
  consoleLog "" ;;;
  (if bool_decide (0 < length (createdTools results)) then
     consoleLog ("Created: "
                 +:+ String.concat ", " (map v_name (createdTools results)))
   else ret tt) ;;;
  (if bool_decide (0 < length (refreshedTools results)) then
     consoleLog ("Refreshed: "
                 +:+ String.concat ", " (map v_name (refreshedTools results)))
   else ret tt) ;;;
  let successfulTools := createdTools results ++ refreshedTools results in
  (if bool_decide (0 < length successfulTools) then
     globalConfig <- getGlobalConfig ;;
     let profile :=
       default (default "core" (profile globalConfig)) (profileOverride c) in
     let delivery := default "both" (delivery globalConfig) in
     let workflows := getProfileWorkflows profile (workflows globalConfig) in
     let toolDirs := String.concat ", " (toSet (map v_skillsDir successfulTools)) in
     let hasClaudeOnly :=
       forallb (λ t, bool_decide (v_value t = "claude")
                     || bool_decide (v_value t = "claude-internal"))
         successfulTools in
     let effectiveSkillCount :=
       if hasClaudeOnly then 0
       else if negb (bool_decide (delivery = "commands")) then
         length (getSkillTemplates (Some workflows))
       else 0 in
     let effectiveCommandCount :=
       if negb (bool_decide (delivery = "skills")) then
         length (getCommandContents (Some workflows))
       else 0 in
     if bool_decide (0 < effectiveSkillCount)
        && bool_decide (0 < effectiveCommandCount) then
       consoleLog (pretty effectiveSkillCount +:+ " skills and "
                   +:+ pretty effectiveCommandCount +:+ " commands in "
                   +:+ toolDirs +:+ "/")
     else if bool_decide (0 < effectiveSkillCount) then
       consoleLog (pretty effectiveSkillCount +:+ " skills in " +:+ toolDirs +:+ "/")
     else if bool_decide (0 < effectiveCommandCount) then
       consoleLog (pretty effectiveCommandCount +:+ " commands in "
                   +:+ toolDirs +:+ "/")
     else ret tt
   else ret tt) ;;;
  (if bool_decide (0 < length (failedTools results)) then
     consoleLog ("Failed: "
       +:+ String.concat ", "
             (map (λ f, f.1 +:+ " (" +:+ f.2 +:+ ")") (failedTools results)))
   else ret tt) ;;;
  (if bool_decide (0 < length (commandsSkipped results)) then
     consoleLog ("Commands skipped for: "
                 +:+ String.concat ", " (commandsSkipped results)
                 +:+ " (no adapter)")
   else ret tt) ;;;
  (if bool_decide (0 < removedCommandCount results) then
     consoleLog ("Removed: " +:+ pretty (removedCommandCount results)
                 +:+ " command files (delivery: skills)")
   else ret tt) ;;;
  (if bool_decide (0 < removedSkillCount results) then
     consoleLog ("Removed: " +:+ pretty (removedSkillCount results)
                 +:+ " skill directories (delivery: commands)")
   else ret tt) ;;;
  (match configStatus with
   | Created =>
     consoleLog ("Config: openspec/config.yaml (schema: " +:+ DEFAULT_SCHEMA +:+ ")")
   | Exists =>
     f <- gets fs ;;
     let configYaml := projectPath ++ [OPENSPEC_DIR_NAME; "config.yaml"] in
     let configYml := projectPath ++ [OPENSPEC_DIR_NAME; "config.yml"] in
     let configName :=
       if existsSync f configYaml then "config.yaml"
       else if existsSync f configYml then "config.yml"
       else "config.yaml" in
     consoleLog ("Config: openspec/" +:+ configName +:+ " (exists)")
   | Skipped => consoleLog "Config: skipped (non-interactive mode)"
   end) ;;;
  globalCfg <- getGlobalConfig ;;
  let activeProfile :=
    default (default "core" (profile globalCfg)) (profileOverride c) in
  let activeWorkflows := getProfileWorkflows activeProfile (workflows globalCfg) in
  consoleLog "" ;;;
  (if bool_decide ("propose" ∈ activeWorkflows) then
     consoleLog "Getting started:" ;;;
     consoleLog ("  Start your first change: /opsx:propose "
                 +:+ dq +:+ "your idea" +:+ dq)
   else if bool_decide ("new" ∈ activeWorkflows) then
     consoleLog "Getting started:" ;;;
     consoleLog ("  Start your first change: /opsx:new "
                 +:+ dq +:+ "your idea" +:+ dq)
   else
     consoleLog "Done. Run 'openspec config profile' to configure your workflows.") ;;;
  consoleLog "" ;;;
  consoleLog "Learn more: https://github.com/yf-river/OpenSpec" ;;;
  consoleLog "Feedback:   https://github.com/yf-river/OpenSpec/issues" ;;;
  (if bool_decide (0 < length (createdTools results))
      || bool_decide (0 < length (refreshedTools results)) then
     consoleLog "" ;;;
     consoleLog "Restart your IDE for slash commands to take effect."
   else ret tt) ;;;
  consoleLog "".

(** The part of [execute] that runs before the profile is resolved:
    validation, legacy cleanup, tool detection and migration.  The welcome
    screen that follows only animates the terminal and is left out.  It
    returns [extendMode] and the detected tools. *)
Definition beforeProfile (E : Env) (c : InitCommand) (projectPath : path)
    : M World (bool * list AIToolOption) :=
  let openspecPath := projectPath ++ [OPENSPEC_DIR_NAME] in
  extendMode <- validate E projectPath openspecPath ;;
  handleLegacyCleanup E c projectPath extendMode ;;;
  f <- gets fs ;;
  let detectedTools := getAvailableTools E f projectPath in
  (if extendMode then Migration.migrateIfNeeded projectPath detectedTools
   else ret tt) ;;;
  ret (extendMode, detectedTools).

(** The part of [execute] from the resolved profile on. *)
Definition afterProfile (E : Env) (c : InitCommand) (projectPath : path)
    (extendMode : bool) (detectedTools : list AIToolOption)
    (globalConfig : GlobalConfig) (override : option string)
    : M World unit :=
  let openspecPath := projectPath ++ [OPENSPEC_DIR_NAME] in
  let canPrompt := canPromptInteractively E c in
  let profile := default (default "core" (profile globalConfig)) override in
  let workflows := getProfileWorkflows profile (workflows globalConfig) in
  let askProfile :=
    canPrompt && bool_decide (profile = "custom")
    && bool_decide (0 < length workflows) in
  (if askProfile then
     consoleLog ("Applying custom profile (" +:+ pretty (length workflows)
                 +:+ " workflows): " +:+ String.concat ", " workflows)
   else ret tt) ;;;
  if askProfile
     && negb (confirm E "Proceed? Or run 'openspec config profile' to change.") then
    consoleLog "Run 'openspec config profile' to update your profile, then try again."
  else
    f <- gets fs ;;
    let toolStates := getToolStates E f projectPath in
    selectedToolIds <-
      getSelectedTools E c toolStates extendMode detectedTools projectPath ;;
    validatedTools <- validateTools E selectedToolIds toolStates ;;
    createDirectoryStructure E openspecPath extendMode ;;;
    results <- generateSkillsAndCommands E c projectPath validatedTools ;;
    configStatus <- createConfig E c openspecPath extendMode ;;
    displaySuccessMessage E c projectPath validatedTools results configStatus.

Definition execute (E : Env) (c : InitCommand) (targetPath : path)
    : M World unit :=
  let projectPath := targetPath in
  pre <- beforeProfile E c projectPath ;;
  globalConfig <- getGlobalConfig ;;
  override <- resolveProfileOverride c ;;
  afterProfile E c projectPath pre.1 pre.2 globalConfig override.

End Init.

(** ** [src/cli/index.ts]: the [init] and [update] actions *)

Module Cli.

(** The exit code of the process and the final world. *)
Definition runAction (m : M World unit) (w : World) : nat * World :=
  match m w with
  | (Ok _, w') => (0, w')
  | (Throw e, w') =>
    (1, addOut (SpinnerFail ("Error: " +:+ e)) (addOut (ConsoleLog "") w'))
  | (Exit k, w') => (k, w')
  end.

Definition init (E : Env) (c : Init.InitCommand) (targetPath : path)
    : World → nat * World :=
  runAction
    (f <- gets fs ;;
     match f !! targetPath with
     | Some Dir => ret tt
     | Some (File _) =>
       throw ("Path " +:+ dq +:+ Init.showPath targetPath +:+ dq
              +:+ " is not a directory")
     | None =>
       consoleLog ("Directory " +:+ dq +:+ Init.showPath targetPath +:+ dq
                   +:+ " doesn't exist, it will be created.")
     end ;;;
     Init.execute E c targetPath).

Definition update (E : Env) (force : bool) (targetPath : path)
    : World → nat * World :=
  runAction (Update.execute E force targetPath).

End Cli.

(** ** A concrete registry for the examples

    The [claude-internal] adapter is [claudeInternalAdapter] of
    [src/core/command-generation/adapters/claude-internal.ts]; the [claude]
    tool and its paths are those the tests of [UpdateCommand] use
    ([.claude/skills/...], [.claude/commands/opsx/<id>.md]). *)

Module Sample.

Definition claudeAdapter : ToolCommandAdapter :=
  mkAdapter "claude"
    (λ commandId, mkFilePath false [".claude"; "commands"; "opsx"; commandId +:+ ".md"]).

Definition claudeInternalAdapter : ToolCommandAdapter :=
  mkAdapter "claude-internal"
    (λ commandId,
       mkFilePath false [".claude-internal"; "commands"; "opsx"; commandId +:+ ".md"]).

Definition tools : list AIToolOption :=
  [ mkTool "claude" "Claude Code" (Some ".claude");
    mkTool "claude-internal" "Claude Internal" (Some ".claude-internal");
    mkTool "agents" "AGENTS.md" None ].

Definition adapters (toolId : string) : option ToolCommandAdapter :=
  if bool_decide (toolId = "claude") then Some claudeAdapter
  else if bool_decide (toolId = "claude-internal") then Some claudeInternalAdapter
  else None.

(** No legacy artifacts, a non-interactive terminal, a writable project. *)
Definition env (version : string) (fault : FS → FsOp → option string) : Env :=
  {| AI_TOOLS := tools;
     CommandAdapterRegistry_get := adapters;
     OPENSPEC_VERSION := version;
     COMMAND_IDS := allCommandTemplates;
     fault := fault;
     getAvailableTools := λ f projectPath,
       List.filter (λ t, match truthyDir t with
                         | Some d => isDirectory f (projectPath ++ [d])
                         | None => false
                         end) tools;
     detectLegacyArtifacts := λ _ _, mkDetection false "" [];
     cleanupLegacyArtifacts := λ _ _, ret "";
     isInteractive := false;
     confirm := λ _, true;
     searchableMultiSelect := λ l, l;
     ensureWritePermissions := λ _ _, true;
     parseToolsArg := λ available raw,
       if bool_decide (raw ∈ available) then Ok [raw]
       else Throw ("Invalid tool(s): " +:+ raw) |}.

Definition noFault : FS → FsOp → option string := λ _ _, None.

Definition project : path := ["work"; "app"].

(** A tree from a list of files; each file brings its parent directories. *)
Definition tree (files : list (path * content)) : FS :=
  foldl (λ f pc, fsWrite pc.1 pc.2 f) (mkdirp project ∅) files.

Definition world (files : list (path * content)) (c : ConfigFile) : World :=
  mkWorld (tree files) c [] [].

Definition skillFile (toolDir dirName : string) : path :=
  project ++ [toolDir; "skills"; dirName; "SKILL.md"].

Definition commandFile (toolDir commandId : string) : path :=
  project ++ [toolDir; "commands"; "opsx"; commandId +:+ ".md"].

Definition openspecConfig : path * content :=
  (project ++ ["openspec"; "config.yaml"], ConfigYaml "spec-driven").

End Sample.

Definition migrationFires (projectPath : path) (tools : list AIToolOption)
    (w : World) : bool :=
  match Migration.readRawConfig (configFile w) with
  | Some (Migration.RawObject raw) =>
    bool_decide (raw !! "profile" = None)
    && negb (bool_decide
               (Migration.scanInstalledWorkflows (fs w) projectPath tools = []))
  | Some Migration.RawNull | None => false
  end.

(** ** A weakest-precondition calculus for the monad *)

Definition wp {S A} (m : M S A) (Q : Res A → S → Prop) (s : S) : Prop :=
  Q (m s).1 (m s).2.

(** What a continuation must establish after a step that returned [r]. *)
Definition next {S A B} (k : A → M S B) (Q : Res B → S → Prop)
    (r : Res A) (s : S) : Prop :=
  match r with
  | Ok a => wp (k a) Q s
  | Throw e => Q (Throw e) s
  | Exit c => Q (Exit c) s
  end.

Definition writeTree (l : list (path * content)) (f : FS) : FS :=
  foldl (λ f pc, fsWrite pc.1 pc.2 f) f l.

(** ** The write phases *)

Definition skillWrites (E : Env) (skillsDir : path) (toolValue : string)
    (skillTemplates : list SkillTemplateEntry) : list (path * content) :=
  map (λ e, ((skillsDir ++ [dirName e]) ++ ["SKILL.md"],
             generateSkillContent e (OPENSPEC_VERSION E)
               (bool_decide (toolValue = "opencode")))) skillTemplates.

Definition commandWrites (E : Env) (projectPath : path) (toolValue : string)
    (commandContents : list string) : list (path * content) :=
  match CommandAdapterRegistry_get E toolValue with
  | Some a => map (λ c, (resolvePath projectPath c.1, c.2))
                (generateCommands commandContents a)
  | None => []
  end.

Definition writeAll (E : Env) (l : list (path * content)) : M World unit :=
  forEach l (λ pc, writeFile E pc.1 pc.2).

Definition doneWrites (l : list (path * content)) : list FsEvent :=
  map (λ pc, Done (OpWriteFile pc.1 pc.2)) l.

(** What is left unchanged by file-system calls. *)
Definition sameShell (w w' : World) : Prop :=
  console w' = console w ∧ configFile w' = configFile w.

(** ** The removal phases *)

Definition isDeleteEvent (e : FsEvent) : Prop :=
  match e with
  | Done (OpRm _) | Failed (OpRm _) _
  | Done (OpUnlink _) | Failed (OpUnlink _) _ => True
  | _ => False
  end.

(** What a removal phase guarantees whatever the oracle answers; [R] holds
    of the paths it may remove. *)
Definition removalOutcome (R : path → Prop) (w w' : World) : Prop :=
  sameShell w w' ∧ fs w' ⊆ fs w
  ∧ (∀ q, is_Some (fs w !! q) → is_Some (fs w' !! q) ∨ R q)
  ∧ ∃ evs, trace w' = trace w ++ evs ∧ Forall isDeleteEvent evs.

Definition underSkillDir (skillsDir : path) (q : path) : Prop :=
  ∃ wf dn, tableGet WORKFLOW_TO_SKILL_DIR wf = Some dn
           ∧ (skillsDir ++ [dn]) `prefix_of` q.

Definition isCommandPath (E : Env) (P : path) (toolId : string) (q : path) : Prop :=
  ∃ a wf, CommandAdapterRegistry_get E toolId = Some a
          ∧ q = resolvePath P (getFilePath a wf).

(** ** One iteration of the reconciliation loop *)

Definition requestedWrites (E : Env) (P : path) (gs gc : bool)
    (st : list SkillTemplateEntry) (cc : list string)
    (tool : AIToolOption) (d : string) : list (path * content) :=
  (if gs then skillWrites E (P ++ [d; "skills"]) (value tool) st else [])
  ++ (if gc then commandWrites E P (value tool) cc else []).

Definition deletableBy (E : Env) (P : path) (gs gc : bool)
    (toolId : string) (d : string) (q : path) : Prop :=
  (gs = false ∧ underSkillDir (P ++ [d; "skills"]) q)
  ∨ (gc = false ∧ isCommandPath E P toolId q).

Definition startLine (tool : AIToolOption) : Out :=
  SpinnerStart ("Updating " +:+ name tool +:+ "...").

Definition succeedLine (tool : AIToolOption) : Out :=
  SpinnerSucceed ("Updated " +:+ name tool).

Definition failLine (tool : AIToolOption) : Out :=
  SpinnerFail ("Failed to update " +:+ name tool).

Definition toolSucceeded (E : Env) (P : path) (gs gc : bool)
    (st : list SkillTemplateEntry) (cc : list string)
    (tool : AIToolOption) (d : string)
    (w : World) (l : Update.Locals) (s' : World * Update.Locals)
    (evs : list FsEvent) : Prop :=
  console s'.1 = console w ++ [startLine tool; succeedLine tool]
  ∧ Update.updatedTools s'.2 = Update.updatedTools l ++ [name tool]
  ∧ Update.failedTools s'.2 = Update.failedTools l
  ∧ writesOf evs = requestedWrites E P gs gc st cc tool d
  ∧ (∀ e, e ∈ evs → match e with
                    | Failed (OpWriteFile _ _) _ => False
                    | _ => True
                    end).

Definition toolFailed (E : Env) (P : path) (gs gc : bool)
    (st : list SkillTemplateEntry) (cc : list string)
    (tool : AIToolOption) (d : string)
    (w : World) (l : Update.Locals) (s' : World * Update.Locals)
    (evs : list FsEvent) : Prop :=
  ∃ p c e pre,
    console s'.1 = console w ++ [startLine tool; failLine tool]
    ∧ Update.updatedTools s'.2 = Update.updatedTools l
    ∧ Update.failedTools s'.2 = Update.failedTools l ++ [(name tool, e)]
    ∧ evs = pre ++ [Failed (OpWriteFile p c) e]
    ∧ (∀ e', e' ∈ pre → match e' with
                        | Failed (OpWriteFile _ _) _ => False
                        | _ => True
                        end)
    ∧ (p, c) ∈ requestedWrites E P gs gc st cc tool d
    ∧ fault E (fs s'.1) (OpWriteFile p c) = Some e
    ∧ (∀ pc, pc ∈ writesOf evs → pc ∈ requestedWrites E P gs gc st cc tool d)
    ∧ (∀ q c', (q, c') ∈ writesOf evs → is_Some (fs s'.1 !! q)).

Definition toolOutcome (E : Env) (P : path) (gs gc : bool)
    (st : list SkillTemplateEntry) (cc : list string)
    (toolId : string) (tool : AIToolOption) (d : string)
    (w : World) (l : Update.Locals) (s' : World * Update.Locals) : Prop :=
  configFile s'.1 = configFile w
  ∧ (∀ q, is_Some (fs w !! q) →
          is_Some (fs s'.1 !! q) ∨ deletableBy E P gs gc toolId d q)
  ∧ ∃ evs, trace s'.1 = trace w ++ evs
           ∧ (toolSucceeded E P gs gc st cc tool d w l s' evs
              ∨ toolFailed E P gs gc st cc tool d w l s' evs).

Definition noWriteFailure (evs : list FsEvent) : Prop :=
  ∀ e, e ∈ evs → match e with
                 | Failed (OpWriteFile _ _) _ => False
                 | _ => True
                 end.

(** The state inside the [try] block after some phases have completed:
    [W] is what has been written so far. *)
Definition midTool (E : Env) (P : path) (gs gc : bool) (toolId : string)
    (tool : AIToolOption) (d : string) (W : list (path * content))
    (written : bool) (w : World) (l : Update.Locals)
    (s : World * Update.Locals) : Prop :=
  console s.1 = console w ++ [startLine tool]
  ∧ configFile s.1 = configFile w
  ∧ Update.updatedTools s.2 = Update.updatedTools l
  ∧ Update.failedTools s.2 = Update.failedTools l
  ∧ (∀ q, is_Some (fs w !! q) →
          is_Some (fs s.1 !! q) ∨ deletableBy E P gs gc toolId d q)
  ∧ ∃ evs, trace s.1 = trace w ++ evs
           ∧ writesOf evs = W
           ∧ noWriteFailure evs
           ∧ (written = true → ∀ q c, (q, c) ∈ W → is_Some (fs s.1 !! q)).

(** The state in which the [catch] block starts. *)
Definition thrownTool (E : Env) (P : path) (gs gc : bool) (toolId : string)
    (tool : AIToolOption) (d : string) (Wall : list (path * content))
    (e : string) (w : World) (l : Update.Locals)
    (s : World * Update.Locals) : Prop :=
  console s.1 = console w ++ [startLine tool]
  ∧ configFile s.1 = configFile w
  ∧ Update.updatedTools s.2 = Update.updatedTools l
  ∧ Update.failedTools s.2 = Update.failedTools l
  ∧ (∀ q, is_Some (fs w !! q) →
          is_Some (fs s.1 !! q) ∨ deletableBy E P gs gc toolId d q)
  ∧ ∃ evs p c pre, trace s.1 = trace w ++ evs
           ∧ evs = pre ++ [Failed (OpWriteFile p c) e]
           ∧ noWriteFailure pre
           ∧ (p, c) ∈ Wall
           ∧ fault E (fs s.1) (OpWriteFile p c) = Some e
           ∧ (∀ pc, pc ∈ writesOf evs → pc ∈ Wall)
           ∧ (∀ q c', (q, c') ∈ writesOf evs → is_Some (fs s.1 !! q)).

(** ** The reconciliation loop *)

Definition validTool (E : Env) (toolId : string) (tool : AIToolOption)
    (d : string) : Prop :=
  findTool E toolId = Some tool ∧ truthyDir tool = Some d.

(** What holds after the loop has processed the tools [done], started in
    world [w] with empty locals. *)
Definition loopOutcome (E : Env) (P : path) (gs gc : bool)
    (st : list SkillTemplateEntry) (cc : list string) (w : World)
    (done : list string) (s : World * Update.Locals) : Prop :=
  configFile s.1 = configFile w
  ∧ console w `prefix_of` console s.1
  ∧ (∀ q, is_Some (fs w !! q) →
          is_Some (fs s.1 !! q)
          ∨ ∃ toolId tool d, toolId ∈ done ∧ validTool E toolId tool d
                             ∧ deletableBy E P gs gc toolId d q)
  ∧ (∀ toolId tool d, toolId ∈ done → validTool E toolId tool d →
        name tool ∈ Update.updatedTools s.2
        ∨ name tool ∈ (Update.failedTools s.2).*1)
  ∧ (∀ n, n ∈ Update.updatedTools s.2 →
        ∃ toolId tool d, toolId ∈ done ∧ validTool E toolId tool d ∧ n = name tool)
  ∧ (∀ n e, (n, e) ∈ Update.failedTools s.2 →
        SpinnerFail ("Failed to update " +:+ n) ∈ console s.1)
  ∧ ∃ evs, trace s.1 = trace w ++ evs
      ∧ (∀ n e, (n, e) ∈ Update.failedTools s.2 →
           ∃ toolId tool d p c,
             toolId ∈ done ∧ validTool E toolId tool d ∧ n = name tool
             ∧ (p, c) ∈ requestedWrites E P gs gc st cc tool d
             ∧ Failed (OpWriteFile p c) e ∈ evs)
      ∧ (∀ p c e, Failed (OpWriteFile p c) e ∈ evs →
           ∃ n, (n, e) ∈ Update.failedTools s.2)
      ∧ (∀ pc, pc ∈ writesOf evs →
           ∃ toolId tool d, toolId ∈ done ∧ validTool E toolId tool d
                            ∧ pc ∈ requestedWrites E P gs gc st cc tool d).

(** ** Computations that only print *)

Definition quietOutcome (w w' : World) : Prop :=
  fs w' = fs w ∧ configFile w' = configFile w ∧ trace w' = trace w
  ∧ console w `prefix_of` console w'.

Definition Quiet {A} (m : M World A) : Prop :=
  ∀ w, ∃ a w', m w = (Ok a, w') ∧ quietOutcome w w'.

(** ** The summary *)

Definition failedLine (failed : list (string * string)) : Out :=
  ConsoleLog ("✗ Failed: "
    +:+ String.concat ", " (map (λ f, f.1 +:+ " (" +:+ f.2 +:+ ")") failed)).

(** The world after the migration step of a run. *)
Definition migrated (E : Env) (P : path) (newlyConfiguredTools : list string)
    (w : World) : World :=
  (Migration.migrateIfNeeded P
     (omap (findTool E)
        (toSet (Update.getConfiguredToolsForUpdate E (fs w) P
                ++ newlyConfiguredTools))) w).2.

(** The tools a run selects, given the config it reads after migration. *)
Definition selectedTools (E : Env) (force : bool) (P : path)
    (w : World) (c : GlobalConfig) : list string :=
  let ct := Update.getConfiguredToolsForUpdate E (fs w) P in
  if force then ct else Update.toolsToUpdateSetOf E (fs w) P ct c.

(** What a run of steps 3 to 15 has done: [wm] is the world after its
    migration step. *)
Inductive RunShape (E : Env) (force : bool) (P : path)
    (newlyConfiguredTools : list string) (w wm w' : World) : Prop :=
  | NothingConfigured :
      Update.getConfiguredToolsForUpdate E (fs w) P = [] →
      newlyConfiguredTools = [] →
      fs w' = fs w → trace w' = trace w → configFile w' = configFile w →
      RunShape E force P newlyConfiguredTools w wm w'
  | UpToDate :
      force = false →
      Update.toolsToUpdateSetOf E (fs w) P
        (Update.getConfiguredToolsForUpdate E (fs w) P)
        (readConfig (configFile wm)) = [] →
      fs w' = fs w → trace w' = trace w → configFile w' = configFile wm →
      RunShape E force P newlyConfiguredTools w wm w'
  | Reconciled w0 l wl :
      fs w0 = fs w → trace w0 = trace w → configFile w0 = configFile wm →
      console w `prefix_of` console w0 →
      (let c := readConfig (configFile wm) in
       Update.reconcileLoop E P
         (Update.shouldGenerateSkillsOf c) (Update.shouldGenerateCommandsOf c)
         (Update.skillTemplatesOf c) (Update.commandContentsOf c)
         (selectedTools E force P w c) w0
       = (Ok (tt, l), wl)) →
      fs w' = fs wl → trace w' = trace wl → configFile w' = configFile wl →
      console wl `prefix_of` console w' →
      (0 < length (Update.failedTools l) →
         failedLine (Update.failedTools l) ∈ console w') →
      RunShape E force P newlyConfiguredTools w wm w'.

(** ** What one iteration leaves of a disabled kind *)

Definition noFaults (E : Env) : Prop := ∀ f op, fault E f op = None.

(** No command file of the tool lies in one of its catalog skill
    directories. *)
Definition commandsOutsideSkills (E : Env) (P : path) (tool : AIToolOption)
    (d : string) (cc : list string) : Prop :=
  ∀ pc wf dn, pc ∈ commandWrites E P (value tool) cc →
              tableGet WORKFLOW_TO_SKILL_DIR wf = Some dn →
              ¬ ((P ++ [d; "skills"]) ++ [dn]) `prefix_of` pc.1.

(** The state of the disabled kinds after an iteration. *)
Definition kindsRemoved (E : Env) (P : path) (gs gc : bool) (cc : list string)
    (toolId : string) (tool : AIToolOption) (d : string) (f : FS) : Prop :=
  (gs = false → commandsOutsideSkills E P tool d cc →
   ∀ wf dn, wf ∈ ALL_WORKFLOWS →
            tableGet WORKFLOW_TO_SKILL_DIR wf = Some dn →
            f !! ((P ++ [d; "skills"]) ++ [dn]) = None)
  ∧ (gc = false →
     ∀ a wf, CommandAdapterRegistry_get E toolId = Some a →
             wf ∈ ALL_WORKFLOWS →
             f !! resolvePath P (getFilePath a wf) = None).

(** ** An invalid profile override *)

Definition invalidProfileMessage (p : string) : string :=
  "Invalid profile " +:+ dq +:+ p +:+ dq +:+ ". Available profiles: core, custom".

(** ** What gets written when nothing fails *)

(** The writes [updateTool] makes for a tool under a config. *)
Definition updateToolWrites (E : Env) (P : path) (c : GlobalConfig)
    (tool : AIToolOption) (d : string) : list (path * content) :=
  let delivery := default "both" (delivery c) in
  let desired := Update.desiredWorkflowsOf c in
  (if negb (bool_decide (delivery = "commands")) then
     skillWrites E (P ++ [d; "skills"]) (value tool)
       (getSkillTemplates (Some desired))
   else [])
  ++ (if negb (bool_decide (delivery = "skills")) then
        commandWrites E P (value tool) (getCommandContents (Some desired))
      else []).

(** The writes [generateSkillsAndCommands] makes for a tool. *)
Definition initToolWrites (E : Env) (P : path) (delivery : string)
    (workflows : list string) (t : Init.ValidatedTool) : list (path * content) :=
  (if negb (bool_decide (delivery = "commands"))
      && negb (bool_decide (Init.v_value t = "claude")) then
     skillWrites E (P ++ [Init.v_skillsDir t; "skills"]) (Init.v_value t)
       (getSkillTemplates (Some workflows))
   else [])
  ++ (if negb (bool_decide (delivery = "skills")) then
        commandWrites E P (Init.v_value t) (getCommandContents (Some workflows))
      else []).

Definition validOverride (c : Init.InitCommand) : Prop :=
  match Init.profileOverride c with
  | Some p => p = "core" ∨ p = "custom"
  | None => True
  end.

(** Writes tracked through a state with any locals. *)
Definition wrote {L} (w : World) (W : list (path * content)) (s : World * L) : Prop :=
  writesOf (trace s.1) = writesOf (trace w) ++ W.

(** The profile and delivery [generateSkillsAndCommands] resolves. *)
Definition initDelivery (w : World) : string :=
  default "both" (delivery (readConfig (configFile w))).

Definition initWorkflows (c : Init.InitCommand) (w : World) : list string :=
  let globalConfig := readConfig (configFile w) in
  getProfileWorkflows
    (default (default "core" (profile globalConfig)) (Init.profileOverride c))
    (workflows globalConfig).

(** ** Concrete scenarios *)

Module Scenario.

Import Sample.

Definition E : Env := env "1.0.0" noFault.

Definition config (p : string) (ws : option (list string)) (d : string)
    : ConfigFile :=
  ConfigJson (toJson (mkGlobalConfig (Some p) ws (Some d) [])).

(** A project whose [claude] skills were generated by version 0.1.0 for
    [propose], [explore] and [apply]; the profile is now [custom] with
    [apply] only, and the running version is 1.0.0. *)
Definition staleExtra : World :=
  world [ openspecConfig;
          (skillFile ".claude" "openspec-propose", SkillContent "propose" "0.1.0" false);
          (skillFile ".claude" "openspec-explore", SkillContent "explore" "0.1.0" false);
          (skillFile ".claude" "openspec-apply-change", SkillContent "apply" "0.1.0" false) ]
        (config "custom" (Some ["apply"]) "both").

(** A project reconciled at version 1.0.0 under [custom] with [explore],
    [new] and [apply], delivery [both]; the profile is then narrowed to
    [explore]. *)
Definition narrowed : World :=
  world [ openspecConfig;
          (skillFile ".claude" "openspec-explore", SkillContent "explore" "1.0.0" false);
          (skillFile ".claude" "openspec-new-change", SkillContent "new" "1.0.0" false);
          (skillFile ".claude" "openspec-apply-change", SkillContent "apply" "1.0.0" false);
          (commandFile ".claude" "explore", CommandContent "claude" "explore");
          (commandFile ".claude" "new", CommandContent "claude" "new");
          (commandFile ".claude" "apply", CommandContent "claude" "apply") ]
        (config "custom" (Some ["explore"]) "both").

(** A fresh project with the [.claude] directory and no config file. *)
Definition fresh : World :=
  mkWorld (mkdirp (project ++ [".claude"]) ∅) ConfigAbsent [] [].

Definition claude : Init.ValidatedTool :=
  Init.mkValidated "claude" "Claude Code" ".claude" false.

Definition initClaude : Init.InitCommand :=
  Init.mkInit (Some "claude") false None None.

(** An initialised project with one [claude] skill installed and no
    global config file yet; [init] is run with [--profile bogus]. *)
Definition unmigrated : World :=
  world [ openspecConfig;
          (skillFile ".claude" "openspec-explore", SkillContent "explore" "0.9.0" false) ]
        ConfigAbsent.

Definition initBogus : Init.InitCommand :=
  Init.mkInit (Some "claude") false None (Some "bogus").



Definition commandsOnly : World :=
  world [ openspecConfig;
          (skillFile ".claude" "openspec-explore", SkillContent "explore" "1.0.0" false) ]
        (config "core" None "commands").


Definition skillsOnly : World :=
  world [ openspecConfig;
          (skillFile ".claude" "openspec-explore", SkillContent "explore" "1.0.0" false);
          (commandFile ".claude" "explore", CommandContent "claude" "explore") ]
        (config "custom" (Some ["explore"]) "skills").

(** Two tools, and skill files cannot be written under [.claude]. *)
Definition claudeDenied : FS → FsOp → option string :=
  λ _ op, match op with
          | OpWriteFile p (SkillContent _ _ _) =>
            if bool_decide ((project ++ [".claude"]) `prefix_of` p)
            then Some "EACCES: permission denied" else None
          | _ => None
          end.

Definition twoTools : World :=
  world [ openspecConfig;
          (skillFile ".claude" "openspec-explore", OtherContent None);
          (skillFile ".claude-internal" "openspec-explore", OtherContent None) ]
        (config "custom" (Some ["explore"]) "both").

(** The project of [unmigrated], with a global config file that holds the
    JSON text [null]. *)
Definition nullConfig : World :=
  world [ openspecConfig;
          (skillFile ".claude" "openspec-explore", SkillContent "explore" "0.9.0" false) ]
        ConfigNull.

(** A registry whose one tool has a skills directory and no command
    adapter. *)
Definition plain : AIToolOption := mkTool "plain" "Plain" (Some ".plain").

Definition plainEnv : Env :=
  {| AI_TOOLS := [plain];
     CommandAdapterRegistry_get := λ _, None;
     OPENSPEC_VERSION := "1.0.0";
     COMMAND_IDS := allCommandTemplates;
     fault := noFault;
     getAvailableTools := λ f projectPath,
       List.filter (λ t, match truthyDir t with
                         | Some d => isDirectory f (projectPath ++ [d])
                         | None => false
                         end) [plain];
     detectLegacyArtifacts := λ _ _, mkDetection false "" [];
     cleanupLegacyArtifacts := λ _ _, ret "";
     isInteractive := false;
     confirm := λ _, true;
     searchableMultiSelect := λ l, l;
     ensureWritePermissions := λ _ _, true;
     parseToolsArg := λ available raw,
       if bool_decide (raw ∈ available) then Ok [raw]
       else Throw ("Invalid tool(s): " +:+ raw) |}.

End Scenario.

(** ** Legacy artifacts *)

(** The world after the lines [lines] have been printed with
    [console.log]. *)
Definition logged (w : World) (lines : list string) : World :=
  mkWorld (fs w) (configFile w) (console w ++ map ConsoleLog lines) (trace w).

Module Cases.

Import Sample.

(** A registry in which legacy artifacts of [claude] are detected, on a
    terminal that cannot prompt; the cleanup removes nothing in the tree
    of the model and reports one line. *)
Definition legacyEnv : Env :=
  {| AI_TOOLS := tools;
     CommandAdapterRegistry_get := adapters;
     OPENSPEC_VERSION := "1.0.0";
     COMMAND_IDS := allCommandTemplates;
     fault := noFault;
     getAvailableTools := λ f projectPath,
       List.filter (λ t, match truthyDir t with
                         | Some d => isDirectory f (projectPath ++ [d])
                         | None => false
                         end) tools;
     detectLegacyArtifacts := λ _ _,
       mkDetection true "Legacy files detected: CLAUDE.md" ["claude"; "agents"];
     cleanupLegacyArtifacts := λ _ _, ret "Removed CLAUDE.md";
     isInteractive := false;
     confirm := λ _, true;
     searchableMultiSelect := λ l, l;
     ensureWritePermissions := λ _ _, true;
     parseToolsArg := λ available raw,
       if bool_decide (raw ∈ available) then Ok [raw]
       else Throw ("Invalid tool(s): " +:+ raw) |}.

(** An initialised project with no tool configured. *)
Definition bare : World := world [openspecConfig] ConfigAbsent.

(** A tree in which the project path is a file. *)
Definition onFile : World :=
  mkWorld (<[project := File (OtherContent None)]> ∅) ConfigAbsent [] [].

End Cases.

(** What [upgradeLegacyTools] has set up for the tools it returns. *)
Definition upgraded (E : Env) (P : path) (st : list SkillTemplateEntry)
    (cc : list string) (w w' : World) (l : list string) : Prop :=
  configFile w' = configFile w
  ∧ (∀ q, is_Some (fs w !! q) → is_Some (fs w' !! q))
  ∧ ∀ id, id ∈ l →
      ∃ tool d, validTool E id tool d
        ∧ ∀ pc, pc ∈ skillWrites E (P ++ [d; "skills"]) (value tool)
                       st
                     ++ commandWrites E P (value tool) cc →
                is_Some (fs w' !! pc.1).

(** ** Reconciliation repairs the drift *)

(** The command files of a tool lie outside its catalog skill
    directories. *)
Definition commandsApart (E : Env) (P : path) (toolId : string) (d : string)
    : Prop :=
  ∀ a wf wf' dn,
    CommandAdapterRegistry_get E toolId = Some a →
    tableGet WORKFLOW_TO_SKILL_DIR wf = Some dn →
    ¬ ((P ++ [d; "skills"]) ++ [dn]) `prefix_of` resolvePath P (getFilePath a wf').

(** The files an iteration was asked to write are on disk. *)
Definition kindsPresent (E : Env) (P : path) (gs gc : bool)
    (st : list SkillTemplateEntry) (cc : list string)
    (tool : AIToolOption) (d : string) (f : FS) : Prop :=
  ∀ pc, pc ∈ requestedWrites E P gs gc st cc tool d → is_Some (f !! pc.1).

(** ** [InitCommand.resolveToolsArg] and [validateTools] *)

(** The comma. *)
Definition comma : Ascii.ascii := Ascii.ascii_of_nat 44.

(** [String.prototype.split(',')]: the pieces between the commas, empty
    ones included. *)
Fixpoint splitComma (s : string) : list string :=
  match s with
  | EmptyString => [""]
  | String c r =>
    if bool_decide (c = comma) then "" :: splitComma r
    else match splitComma r with
         | h :: t => String c h :: t
         | [] => [String c ""]
         end
  end.

(** The string methods of the runtime that [resolveToolsArg] calls; they
    work on Unicode text and are left abstract. *)
Record StringOps := mkStringOps {
  trim : string → string;
  toLowerCase : string → string
}.

(** [InitCommand.resolveToolsArg]: [Ok None] is its [null]. *)
Definition resolveToolsArg (ops : StringOps) (availableTools : list string)
    (toolsArg : option string) : Res (option (list string)) :=
  match toolsArg with
  | None => Ok None
  | Some arg =>
    let raw := trim ops arg in
    if bool_decide (String.length raw = 0) then
      Throw ("The --tools option requires a value. Use " +:+ dq +:+ "all" +:+ dq
             +:+ ", " +:+ dq +:+ "none" +:+ dq
             +:+ ", or a comma-separated list of tool IDs.")
    else
      let availableList := String.concat ", " ("all" :: "none" :: availableTools) in
      let lowerRaw := toLowerCase ops raw in
      if bool_decide (lowerRaw = "all") then Ok (Some availableTools)
      else if bool_decide (lowerRaw = "none") then Ok (Some [])
      else
        let tokens :=
          List.filter (λ token, bool_decide (0 < String.length token))
            (map (trim ops) (splitComma raw)) in
        if bool_decide (length tokens = 0) then
          Throw ("The --tools option requires at least one tool ID when not using "
                 +:+ dq +:+ "all" +:+ dq +:+ " or " +:+ dq +:+ "none" +:+ dq +:+ ".")
        else
          let normalizedTokens := map (toLowerCase ops) tokens in
          if existsb (λ token, bool_decide (token = "all")
                               || bool_decide (token = "none")) normalizedTokens then
            Throw ("Cannot combine reserved values " +:+ dq +:+ "all" +:+ dq
                   +:+ " or " +:+ dq +:+ "none" +:+ dq +:+ " with specific tool IDs.")
          else
            let invalidTokens :=
              map fst
                (List.filter (λ p, negb (bool_decide (p.2 ∈ availableTools)))
                   (zip tokens normalizedTokens)) in
            if bool_decide (0 < length invalidTokens) then
              Throw ("Invalid tool(s): " +:+ String.concat ", " invalidTokens
                     +:+ ". Available values: " +:+ availableList)
            else Ok (Some (toSet normalizedTokens))
  end.

(** The identity on text, for examples on ASCII ids that are already
    trimmed and in lower case. *)
Definition plainOps : StringOps := mkStringOps (λ s, s) (λ s, s).

(** What [validateTools] returns for an id and the tool it names. *)
Definition validatedAs (E : Env) (toolStates : string → option bool)
    (toolId : string) (t : Init.ValidatedTool) : Prop :=
  ∃ tool, findTool E toolId = Some tool
          ∧ Init.v_value t = toolId
          ∧ Init.v_name t = name tool
          ∧ truthyDir tool = Some (Init.v_skillsDir t)
          ∧ Init.wasConfigured t = default false (toolStates toolId).

(** ** [init]: one tool failing does not stop the others *)

(** How one iteration of [generateSkillsAndCommands] ends for a tool:
    recorded as created or refreshed, or as failed with the message of a
    write that failed. *)
Definition setupOutcome (t : Init.ValidatedTool) (w : World) (r : Init.Results)
    (s' : World * Init.Results) : Prop :=
  configFile s'.1 = configFile w
  ∧ ∃ evs, trace s'.1 = trace w ++ evs
     ∧ ((noWriteFailure evs
         ∧ Init.failedTools s'.2 = Init.failedTools r
         ∧ Init.createdTools s'.2
           = Init.createdTools r ++ (if Init.wasConfigured t then [] else [t])
         ∧ Init.refreshedTools s'.2
           = Init.refreshedTools r ++ (if Init.wasConfigured t then [t] else []))
        ∨ (∃ e p c, Failed (OpWriteFile p c) e ∈ evs
             ∧ Init.failedTools s'.2 = Init.failedTools r ++ [(Init.v_name t, e)]
             ∧ Init.createdTools s'.2 = Init.createdTools r
             ∧ Init.refreshedTools s'.2 = Init.refreshedTools r)).

(** The state inside the [try] block of an iteration. *)
Definition setupMid (w : World) (r : Init.Results) (s : World * Init.Results)
    : Prop :=
  configFile s.1 = configFile w
  ∧ Init.createdTools s.2 = Init.createdTools r
  ∧ Init.refreshedTools s.2 = Init.refreshedTools r
  ∧ Init.failedTools s.2 = Init.failedTools r
  ∧ ∃ evs, trace s.1 = trace w ++ evs ∧ noWriteFailure evs.

(** The state in which the [catch] block of an iteration starts. *)
Definition setupThrown (e : string) (w : World) (r : Init.Results)
    (s : World * Init.Results) : Prop :=
  configFile s.1 = configFile w
  ∧ Init.createdTools s.2 = Init.createdTools r
  ∧ Init.refreshedTools s.2 = Init.refreshedTools r
  ∧ Init.failedTools s.2 = Init.failedTools r
  ∧ ∃ evs p c, trace s.1 = trace w ++ evs ∧ Failed (OpWriteFile p c) e ∈ evs.

(** What holds after the loop of [generateSkillsAndCommands] has processed
    the tools [done]. *)
Definition setupLoop (w : World) (done : list Init.ValidatedTool)
    (s : World * Init.Results) : Prop :=
  configFile s.1 = configFile w
  ∧ length (Init.createdTools s.2) + length (Init.refreshedTools s.2)
    + length (Init.failedTools s.2) = length done
  ∧ (∀ t, t ∈ Init.createdTools s.2 → t ∈ done ∧ Init.wasConfigured t = false)
  ∧ (∀ t, t ∈ Init.refreshedTools s.2 → t ∈ done ∧ Init.wasConfigured t = true)
  ∧ ∃ evs, trace s.1 = trace w ++ evs
      ∧ (∀ n e, (n, e) ∈ Init.failedTools s.2 →
           ∃ t p c, t ∈ done ∧ n = Init.v_name t
                    ∧ Failed (OpWriteFile p c) e ∈ evs)
      ∧ (noWriteFailure evs → Init.failedTools s.2 = []).

(** ** [src/core/command-generation/adapters/claude-internal.ts]

    The text of a command file is built with regular expressions that see
    a string as its UTF-16 code units, so text is a list of code units
    here. *)

Module ClaudeInternal.

Definition text := list N.

(** An ASCII literal of the source. *)
Definition lit (s : string) : text :=
  map Ascii.N_of_ascii (String.list_ascii_of_string s).

Definition LF : N := 10.

Definition QUOTE : N := 34.

Definition BACKSLASH : N := 92.

(** The class [\s] of a regular expression: white space and line
    terminators. *)
Definition isSpace (c : N) : bool :=
  bool_decide (c ∈ [9; 10; 11; 12; 13; 32; 160; 5760; 8232; 8233; 8239; 8287;
                    12288; 65279]%N)
  || ((8192 <=? c)%N && (c <=? 8202)%N).

(** The character class of the test: colon, line feed, carriage return,
    hash, braces, brackets, comma, ampersand, star, bang, bar, greater
    than, single and double quote, percent, at sign and backquote. *)
Definition isSpecial (c : N) : bool :=
  bool_decide (c ∈ [58; 10; 13; 35; 123; 125; 91; 93; 44; 38; 42; 33; 124; 62;
                    39; 34; 37; 64; 96]%N).

(** [/[...]|^\s|\s$/.test(value)] *)
Definition needsQuoting (value : text) : bool :=
  existsb isSpecial value
  || from_option isSpace false (head value)
  || from_option isSpace false (last value).

(** [s.replace(/c/g, r)] for a pattern that is one code unit. *)
Definition replaceAll (c : N) (r : text) (s : text) : text :=
  flat_map (λ x, if (x =? c)%N then r else [x]) s.

Definition escapeYamlValue (value : text) : text :=
  if needsQuoting value then
    let escaped :=
      replaceAll LF [BACKSLASH; 110%N]
        (replaceAll QUOTE [BACKSLASH; QUOTE]
           (replaceAll BACKSLASH [BACKSLASH; BACKSLASH] value)) in
    [QUOTE] ++ escaped ++ [QUOTE]
  else value.

(** [parts.join(sep)] *)
Fixpoint join (sep : text) (parts : list text) : text :=
  match parts with
  | [] => []
  | [p] => p
  | p :: rest => p ++ sep ++ join sep rest
  end.

Definition formatTagsArray (tags : list text) : text :=
  let escapedTags := map escapeYamlValue tags in
  lit "[" ++ join (lit ", ") escapedTags ++ lit "]".

Record CommandContent := mkCommandContent {
  c_name : text;
  c_description : text;
  c_category : text;
  c_tags : list text;
  c_body : text
}.

Definition formatFile (content : CommandContent) : text :=
  lit "---" ++ [LF]
  ++ lit "name: " ++ escapeYamlValue (c_name content) ++ [LF]
  ++ lit "description: " ++ escapeYamlValue (c_description content) ++ [LF]
  ++ lit "category: " ++ escapeYamlValue (c_category content) ++ [LF]
  ++ lit "tags: " ++ formatTagsArray (c_tags content) ++ [LF]
  ++ lit "---" ++ [LF] ++ [LF]
  ++ c_body content ++ [LF].

(** What the three passes of [escapeYamlValue] do to one code unit. *)
Definition escapeUnit (c : N) : text :=
  if (c =? BACKSLASH)%N then [BACKSLASH; BACKSLASH]
  else if (c =? QUOTE)%N then [BACKSLASH; QUOTE]
  else if (c =? LF)%N then [BACKSLASH; 110%N]
  else [c].

(** The number of line feeds of a text. *)
Definition lineFeeds (s : text) : nat :=
  length (List.filter (λ c, (c =? LF)%N) s).

(** The part of a command file that precedes its body. *)
Definition header (content : CommandContent) : text :=
  lit "---" ++ [LF]
  ++ lit "name: " ++ escapeYamlValue (c_name content) ++ [LF]
  ++ lit "description: " ++ escapeYamlValue (c_description content) ++ [LF]
  ++ lit "category: " ++ escapeYamlValue (c_category content) ++ [LF]
  ++ lit "tags: " ++ formatTagsArray (c_tags content) ++ [LF]
  ++ lit "---" ++ [LF] ++ [LF].

End ClaudeInternal.

(** ** What a run of [update] can touch *)

(** The paths an iteration of the loop may change for a tool: the paths it
    may delete, the files it was asked to write and the directories above
    them. *)
Definition touchedBy (E : Env) (P : path) (gs gc : bool)
    (st : list SkillTemplateEntry) (cc : list string)
    (toolId : string) (tool : AIToolOption) (d : string) (q : path) : Prop :=
  deletableBy E P gs gc toolId d q
  ∨ ∃ pc, pc ∈ requestedWrites E P gs gc st cc tool d ∧ q `prefix_of` pc.1.

(** The tree [f'] differs from [f] only at paths of [T]. *)
Definition sameOutside (T : path → Prop) (f f' : FS) : Prop :=
  ∀ q, ¬ T q → f' !! q = f !! q.

(** The paths the loop may change when it processes the tools [ids]. *)
Definition touchedByAny (E : Env) (P : path) (gs gc : bool)
    (st : list SkillTemplateEntry) (cc : list string)
    (ids : list string) (q : path) : Prop :=
  ∃ toolId tool d, toolId ∈ ids ∧ validTool E toolId tool d
                   ∧ touchedBy E P gs gc st cc toolId tool d q.

(** ** Drift after a run *)

(** The paths the drift check looks at for a tool. *)
Definition probedBy (E : Env) (P : path) (toolId : string) (q : path) : Prop :=
  ∃ tool d, validTool E toolId tool d
    ∧ ((∃ wf dn, tableGet WORKFLOW_TO_SKILL_DIR wf = Some dn
                 ∧ (q = (P ++ [d; "skills"]) ++ [dn; "SKILL.md"]
                    ∨ q = (P ++ [d; "skills"]) ++ [dn]))
       ∨ isCommandPath E P toolId q).

(** No path the drift check looks at for tool [A] can be changed by an
    iteration of the loop for tool [B]. *)
Definition toolsApart (E : Env) (P : path) (gs gc : bool)
    (st : list SkillTemplateEntry) (cc : list string) (A B : string) : Prop :=
  ∀ toolB dB q, validTool E B toolB dB → probedBy E P A q →
                ¬ touchedBy E P gs gc st cc B toolB dB q.

(** The path [q] lies in the directory [d] of the project. *)
Definition inDir (P : path) (d : string) (q : path) : Prop :=
  ∃ r, q = P ++ d :: r.

(** The command files of a tool lie in its own directory. *)
Definition commandsUnder (E : Env) (P : path) (toolId : string) : Prop :=
  ∀ tool d a wf, validTool E toolId tool d →
                 CommandAdapterRegistry_get E toolId = Some a →
                 inDir P d (resolvePath P (getFilePath a wf)).

(* ===================================================================== *)
(** * Part II: properties                                                  *)
(* ===================================================================== *)

(** ** Sets and the installed-workflow scan *)

Lemma setAdd_elem x y l : x ∈ setAdd y l ↔ x = y ∨ x ∈ l.
Proof.
  unfold setAdd. case_bool_decide as H.
  - split; [auto|]. intros [->|]; auto.
  - rewrite elem_of_app, list_elem_of_singleton. tauto.
Qed.

Lemma setAdd_NoDup y l : NoDup l → NoDup (setAdd y l).
Proof.
  unfold setAdd. case_bool_decide as H; [done|].
  intros Hl. apply NoDup_app. split_and!; [done| |apply NoDup_singleton].
  intros x Hx Hx'. apply list_elem_of_singleton in Hx'. by subst.
Qed.

Lemma toSet_fold_elem x l acc :
  x ∈ foldl (λ acc x, setAdd x acc) acc l ↔ x ∈ acc ∨ x ∈ l.
Proof.
  revert acc. induction l as [|y l IH]; intros acc; simpl.
  - rewrite elem_of_nil. tauto.
  - rewrite IH, setAdd_elem, elem_of_cons. tauto.
Qed.

Lemma toSet_elem x l : x ∈ toSet l ↔ x ∈ l.
Proof. unfold toSet. rewrite toSet_fold_elem, elem_of_nil. tauto. Qed.

(** The inner loop of the scan, over the table. *)
Lemma scan_inner_elem (f : FS) (sd : path) x (table : list (string * string)) acc :
  x ∈ foldl (λ installed '(workflowId, skillDirName),
        if existsSync f (sd ++ [skillDirName; "SKILL.md"])
        then setAdd workflowId installed else installed) acc table
  ↔ x ∈ acc ∨ ∃ dn, (x, dn) ∈ table ∧ existsSync f (sd ++ [dn; "SKILL.md"]) = true.
Proof.
  revert acc. induction table as [|[k v] t IH]; intros acc; simpl.
  - split; [auto|]. intros [|(dn & H & _)]; [done|]. by apply elem_of_nil in H.
  - rewrite IH. destruct (existsSync f (sd ++ [v; "SKILL.md"])) eqn:Hex.
    + rewrite setAdd_elem. split.
      * intros [[->|]|(dn & H & H')]; eauto.
        -- right. exists v. split; [left|done].
        -- right. exists dn. split; [by right|done].
      * intros [|(dn & H & H')]; [auto|].
        apply elem_of_cons in H as [[= -> ->]|H]; eauto.
    + split.
      * intros [|(dn & H & H')]; eauto. right. exists dn. split; [by right|done].
      * intros [|(dn & H & H')]; [auto|].
        apply elem_of_cons in H as [[= -> ->]|H]; [congruence|eauto].
Qed.

Lemma scan_outer_elem (f : FS) (P : path) (table : list (string * string)) tools x acc :
  x ∈ foldl (λ installed tool,
      match truthyDir tool with
      | None => installed
      | Some d =>
        let skillsDir := P ++ [d; "skills"] in
        foldl (λ installed '(workflowId, skillDirName),
          let skillFile := skillsDir ++ [skillDirName; "SKILL.md"] in
          if existsSync f skillFile then setAdd workflowId installed
          else installed) installed table
      end) acc tools
  ↔ x ∈ acc ∨ ∃ t d dn, t ∈ tools ∧ truthyDir t = Some d
      ∧ (x, dn) ∈ table
      ∧ existsSync f (P ++ [d; "skills"; dn; "SKILL.md"]) = true.
Proof.
  revert acc. induction tools as [|t ts IH]; intros acc; simpl.
  - split; [auto|]. intros [|(t & d & dn & H & _)]; [done|].
    by apply elem_of_nil in H.
  - rewrite IH. destruct (truthyDir t) as [d|] eqn:Hd.
    + cbv zeta. rewrite (scan_inner_elem f (P ++ [d; "skills"])). split.
      * intros [[|(dn & H1 & H2)]|(t' & d' & dn & H1 & H2)]; eauto.
        -- right. exists t, d, dn. split; [left|]. rewrite <- (assoc_L app) in H2. done.
        -- right. exists t', d', dn. split; [by right|done].
      * intros [|(t' & d' & dn & H1 & H2 & H3 & H4)]; [auto|].
        apply elem_of_cons in H1 as [->|H1].
        -- left. right. exists dn. rewrite Hd in H2. injection H2 as ->.
           rewrite <- (assoc_L app). done.
        -- right. exists t', d', dn. done.
    + split.
      * intros [|(t' & d' & dn & H1 & H2)]; eauto.
        right. exists t', d', dn. split; [by right|done].
      * intros [|(t' & d' & dn & H1 & H2 & H3)]; [auto|].
        apply elem_of_cons in H1 as [->|H1]; [congruence|].
        right. exists t', d', dn. done.
Qed.

Lemma scanInstalledWorkflows_elem (f : FS) (P : path) tools x :
  x ∈ Migration.scanInstalledWorkflows f P tools
  ↔ ∃ t d dn, t ∈ tools ∧ truthyDir t = Some d
      ∧ (x, dn) ∈ Migration.WORKFLOW_TO_SKILL_DIR
      ∧ existsSync f (P ++ [d; "skills"; dn; "SKILL.md"]) = true.
Proof.
  unfold Migration.scanInstalledWorkflows.
  rewrite scan_outer_elem, elem_of_nil. tauto.
Qed.

(** C5.  [getProfileWorkflows] is a total function of the profile text and
    the optional custom list.  Under [core] it returns the fixed core list
    whatever custom list is supplied; under [custom] it returns the custom
    list verbatim, and the empty list when the custom list is absent or
    empty; every other profile text is resolved as [core]. *)
Theorem C5_getProfileWorkflows_resolution :
  ∀ (p : string) (customWorkflows : option (list string)),
    getProfileWorkflows "core" customWorkflows = CORE_WORKFLOWS
    ∧ getProfileWorkflows "custom" customWorkflows = default [] customWorkflows
    ∧ getProfileWorkflows "custom" None = []
    ∧ getProfileWorkflows "custom" (Some []) = []
    ∧ (p = "custom" ∨ getProfileWorkflows p customWorkflows = CORE_WORKFLOWS).
Proof.
  intros p cw. split_and!.
  - reflexivity.
  - destruct cw; reflexivity.
  - reflexivity.
  - reflexivity.
  - unfold getProfileWorkflows. case_bool_decide; auto.
Qed.

Lemma toJson_profile c : toJson c !! "profile" = JString <$> profile c.
Proof.
  unfold toJson, optInsert.
  destruct (profile c), (workflows c), (delivery c); simpl;
    repeat (rewrite lookup_insert_ne by done || rewrite lookup_insert_eq);
    try done.
Qed.

Lemma toJson_workflows c : toJson c !! "workflows" = JStrings <$> workflows c.
Proof.
  unfold toJson, optInsert.
  destruct (profile c), (workflows c), (delivery c); simpl;
    repeat (rewrite lookup_insert_ne by done || rewrite lookup_insert_eq);
    try done.
Qed.

(** X23.  [migrateIfNeeded] never touches the file tree.  On a config
    file that holds [null] it throws a [TypeError] and changes nothing.
    On every other config file it returns, and it fires exactly when the
    raw config can be read, has no [profile] key, and the scan finds an
    installed workflow: it then saves a config whose profile is [custom]
    and whose workflows are the scanned ones, and the saved file has the
    [profile] key.  In every other case the world, hence the config file,
    is unchanged.  Once it has fired, a later call on the saved config
    changes nothing, for any project, tools and file tree. *)
Theorem X23_migrateIfNeeded_fires_once :
  ∀ (projectPath : path) (tools : list AIToolOption) (w : World),
    (configFile w = ConfigNull ↔
       Migration.migrateIfNeeded projectPath tools w
       = (Throw Migration.NULL_PROFILE_ERROR, w))
    ∧ (configFile w = ConfigNull ∨
       ∃ w',
         Migration.migrateIfNeeded projectPath tools w = (Ok tt, w')
         ∧ fs w' = fs w
         ∧ (if migrationFires projectPath tools w then
              ∃ c, configFile w' = ConfigJson (toJson c)
                   ∧ profile c = Some "custom"
                   ∧ workflows c
                     = Some (Migration.scanInstalledWorkflows (fs w)
                               projectPath tools)
                   ∧ toJson c !! "profile" = Some (JString "custom")
            else w' = w)
         ∧ (∀ projectPath' tools' w2,
              migrationFires projectPath tools w = true →
              configFile w2 = configFile w' →
              Migration.migrateIfNeeded projectPath' tools' w2 = (Ok tt, w2))).
Proof.
  intros P tools w. split.
  { unfold Migration.migrateIfNeeded.
    unfold bind, getGlobalConfig, gets, ret, throw, saveGlobalConfig,
      consoleLog, modify.
    simpl. destruct (configFile w) as [| | |obj]; simpl;
      (split; [try done|]); repeat case_bool_decide; done. }
  unfold Migration.migrateIfNeeded, migrationFires.
  unfold bind, getGlobalConfig, gets, ret, throw, saveGlobalConfig, consoleLog,
    modify.
  simpl.
  destruct (Migration.readRawConfig (configFile w)) as [[|raw]|] eqn:Hraw.
  - left. by destruct (configFile w).
  - right. case_bool_decide as Hp.
    { exists w. split_and!; try done.
      - destruct Hp as [v Hv]. rewrite bool_decide_false; [done|congruence].
      - intros ???. rewrite bool_decide_false; [done|].
        destruct Hp as [v Hv]. congruence. }
    assert (raw !! "profile" = None) as Hnone.
    { destruct (raw !! "profile") eqn:?; [|done]. exfalso. apply Hp. eauto. }
    rewrite (bool_decide_true _ Hnone). simpl.
    case_bool_decide as Hlen.
    { exists w. split_and!; try done.
      - apply nil_length_inv in Hlen. by rewrite bool_decide_true.
      - apply nil_length_inv in Hlen. by rewrite bool_decide_true. }
    eexists. split; [reflexivity|]. simpl. split_and!; try done.
    + rewrite bool_decide_false; [|intros Heq; by rewrite Heq in Hlen]. simpl.
      eexists. split; [reflexivity|]. split_and!; try done.
      by rewrite toJson_profile.
    + intros P' tools' w2 _ Hcf.
      destruct w2 as [f2 c2 o2 t2]. simpl in *. subst c2. simpl.
      rewrite bool_decide_true; [done|].
      rewrite toJson_profile. simpl. eauto.
  - right. exists w. split_and!; done.
Qed.

Lemma wp_ret {S A} (a : A) (Q : Res A → S → Prop) s : Q (Ok a) s → wp (ret a) Q s.
Proof. done. Qed.

Lemma wp_throw {S A} e (Q : Res A → S → Prop) s : Q (Throw e) s → wp (throw e) Q s.
Proof. done. Qed.

Lemma wp_exit {S A} c (Q : Res A → S → Prop) s : Q (Exit c) s → wp (processExit c) Q s.
Proof. done. Qed.

Lemma wp_gets {S A} (g : S → A) (Q : Res A → S → Prop) s :
  Q (Ok (g s)) s → wp (gets g) Q s.
Proof. done. Qed.

Lemma wp_modify {S} (g : S → S) (Q : Res unit → S → Prop) s :
  Q (Ok tt) (g s) → wp (modify g) Q s.
Proof. done. Qed.

Lemma wp_bind {S A B} (m : M S A) (k : A → M S B) (Q : Res B → S → Prop) s :
  wp m (next k Q) s → wp (bind m k) Q s.
Proof.
  unfold wp, next, bind. destruct (m s) as [[a|e|c] s']; simpl; done.
Qed.

Lemma wp_tryCatch {S A} (m : M S A) (h : string → M S A) (Q : Res A → S → Prop) s :
  wp m (λ r s', match r with
                | Ok a => Q (Ok a) s'
                | Throw e => wp (h e) Q s'
                | Exit c => Q (Exit c) s'
                end) s →
  wp (tryCatch m h) Q s.
Proof.
  unfold wp, tryCatch. destruct (m s) as [[a|e|c] s']; simpl; done.
Qed.

Lemma wp_mono {S A} (m : M S A) (Q Q' : Res A → S → Prop) s :
  wp m Q s → (∀ r s', Q r s' → Q' r s') → wp m Q' s.
Proof. unfold wp. auto. Qed.

(** A loop keeps an invariant, indexed by the elements already processed,
    as long as it runs; it may leave by an exception or an exit that
    already satisfies the postcondition. *)
Lemma wp_foldM_from {S A B} (pre l : list A) (f : B → A → M S B) (b : B)
    (I : list A → B → S → Prop) (Q : Res B → S → Prop) s :
  I pre b s →
  (∀ done x rest b s, pre ++ l = done ++ x :: rest → I done b s →
     wp (f b x) (λ r s', match r with
                         | Ok b' => I (done ++ [x]) b' s'
                         | Throw e => Q (Throw e) s'
                         | Exit c => Q (Exit c) s'
                         end) s) →
  (∀ b s, I (pre ++ l) b s → Q (Ok b) s) →
  wp (foldM f l b) Q s.
Proof.
  revert pre b s. induction l as [|x l IH]; intros pre b s HI Hstep Hend; simpl.
  - apply wp_ret. apply Hend. by rewrite app_nil_r.
  - apply wp_bind. eapply wp_mono; [exact (Hstep pre x l b s eq_refl HI)|].
    intros [b'|e|c] s' H; simpl; [|done..].
    apply (IH (pre ++ [x])); [done| |].
    + intros done y rest b0 s0 Heq. apply (Hstep done y rest).
      by rewrite <- Heq, <- (assoc_L app).
    + intros b0 s0. rewrite <- (assoc_L app). apply Hend.
Qed.

Lemma wp_foldM {S A B} (l : list A) (f : B → A → M S B) (b : B)
    (I : list A → B → S → Prop) (Q : Res B → S → Prop) s :
  I [] b s →
  (∀ done x rest b s, l = done ++ x :: rest → I done b s →
     wp (f b x) (λ r s', match r with
                         | Ok b' => I (done ++ [x]) b' s'
                         | Throw e => Q (Throw e) s'
                         | Exit c => Q (Exit c) s'
                         end) s) →
  (∀ b s, I l b s → Q (Ok b) s) →
  wp (foldM f l b) Q s.
Proof. apply (wp_foldM_from [] l). Qed.

Lemma wp_forEach_from {S A} (pre l : list A) (f : A → M S unit)
    (I : list A → S → Prop) (Q : Res unit → S → Prop) s :
  I pre s →
  (∀ done x rest s, pre ++ l = done ++ x :: rest → I done s →
     wp (f x) (λ r s', match r with
                       | Ok _ => I (done ++ [x]) s'
                       | Throw e => Q (Throw e) s'
                       | Exit c => Q (Exit c) s'
                       end) s) →
  (∀ s, I (pre ++ l) s → Q (Ok tt) s) →
  wp (forEach l f) Q s.
Proof.
  revert pre s. induction l as [|x l IH]; intros pre s HI Hstep Hend; simpl.
  - apply wp_ret. apply Hend. by rewrite app_nil_r.
  - apply wp_bind. eapply wp_mono; [exact (Hstep pre x l s eq_refl HI)|].
    intros [[]|e|c] s' H; simpl; [|done..].
    apply (IH (pre ++ [x])); [done| |].
    + intros done y rest s0 Heq. apply (Hstep done y rest).
      by rewrite <- Heq, <- (assoc_L app).
    + intros s0. rewrite <- (assoc_L app). apply Hend.
Qed.

Lemma wp_forEach {S A} (l : list A) (f : A → M S unit)
    (I : list A → S → Prop) (Q : Res unit → S → Prop) s :
  I [] s →
  (∀ done x rest s, l = done ++ x :: rest → I done s →
     wp (f x) (λ r s', match r with
                       | Ok _ => I (done ++ [x]) s'
                       | Throw e => Q (Throw e) s'
                       | Exit c => Q (Exit c) s'
                       end) s) →
  (∀ s, I l s → Q (Ok tt) s) →
  wp (forEach l f) Q s.
Proof. apply (wp_forEach_from [] l). Qed.

Lemma wp_liftW {L A} (m : M World A) (Q : Res A → World * L → Prop) w l :
  wp m (λ r w', Q r (w', l)) w → wp (liftW m) Q (w, l).
Proof. unfold wp, liftW. simpl. destruct (m w). done. Qed.

Lemma wp_withLocals {L A} (init : L) (m : M (World * L) A)
    (Q : Res (A * L) → World → Prop) w :
  wp m (λ r s, match r with
               | Ok a => Q (Ok (a, s.2)) s.1
               | Throw e => Q (Throw e) s.1
               | Exit c => Q (Exit c) s.1
               end) (w, init) →
  wp (withLocals init m) Q w.
Proof.
  unfold wp, withLocals. destruct (m (w, init)) as [[a|e|c] [w' l]]; done.
Qed.

Lemma wp_attempt (E : Env) op eff (Q : Res unit → World → Prop) w :
  (fault E (fs w) op = None →
     Q (Ok tt) (addEvent (Done op) (setFs (eff (fs w)) w))) →
  (∀ msg, fault E (fs w) op = Some msg →
     Q (Throw msg) (addEvent (Failed op msg) w)) →
  wp (attempt E op eff) Q w.
Proof.
  unfold wp, attempt. destruct (fault E (fs w) op); simpl; auto.
Qed.

(** ** The file tree *)

Lemma ensureDir_subseteq (d : path) (f : FS) : f ⊆ ensureDir d f.
Proof.
  unfold ensureDir. destruct (f !! d) eqn:H; [done|]. by apply insert_subseteq.
Qed.

Lemma mkdirp_subseteq (d : path) (f : FS) : f ⊆ mkdirp d f.
Proof.
  unfold mkdirp. induction (inits d) as [|q l IH]; simpl; [done|].
  etrans; [exact IH|]. apply ensureDir_subseteq.
Qed.

Lemma fsWrite_lookup_eq (p : path) (c : content) (f : FS) : fsWrite p c f !! p = Some (File c).
Proof. unfold fsWrite. apply lookup_insert_eq. Qed.

Lemma fsWrite_is_Some (p : path) (c : content) (f : FS) (q : path) :
  is_Some (f !! q) → is_Some (fsWrite p c f !! q).
Proof.
  intros [n Hn]. unfold fsWrite. destruct (decide (p = q)) as [->|Hne].
  - rewrite lookup_insert_eq. eauto.
  - rewrite lookup_insert_ne by done. exists n.
    eapply lookup_weaken; [exact Hn|]. apply mkdirp_subseteq.
Qed.

Lemma writeTree_is_Some (l : list (path * content)) (f : FS) (q : path) :
  is_Some (f !! q) → is_Some (writeTree l f !! q).
Proof.
  revert f. induction l as [|[p c] l IH]; intros f H; simpl; [done|].
  apply IH. by apply fsWrite_is_Some.
Qed.

Lemma writeTree_written (l : list (path * content)) (f : FS) (p : path) (c : content) :
  (p, c) ∈ l → is_Some (writeTree l f !! p).
Proof.
  revert f. induction l as [|[p' c'] l IH]; intros f H; simpl.
  - by apply elem_of_nil in H.
  - apply elem_of_cons in H as [[= -> ->]|H]; [|by apply IH].
    apply writeTree_is_Some. rewrite fsWrite_lookup_eq. eauto.
Qed.

Lemma existsSync_true (f : FS) (p : path) : existsSync f p = true ↔ is_Some (f !! p).
Proof. unfold existsSync. apply bool_decide_eq_true. Qed.

Lemma existsSync_false (f : FS) (p : path) : existsSync f p = false ↔ f !! p = None.
Proof.
  unfold existsSync. rewrite bool_decide_eq_false, <- eq_None_not_Some. done.
Qed.

Lemma fsRm_lookup (d : path) (f : FS) (q : path) :
  fsRm d f !! q = if decide (d `prefix_of` q) then None else f !! q.
Proof.
  unfold fsRm. destruct (decide (d `prefix_of` q)) as [H|H].
  - apply map_lookup_filter_None. right. intros n _. simpl. auto.
  - destruct (f !! q) as [n|] eqn:Hq.
    + apply map_lookup_filter_Some. done.
    + apply map_lookup_filter_None. by left.
Qed.

Lemma fsRm_subseteq (d : path) (f : FS) : fsRm d f ⊆ f.
Proof. apply map_filter_subseteq. Qed.

Lemma fsUnlink_subseteq (p : path) (f : FS) : fsUnlink p f ⊆ f.
Proof. apply delete_subseteq. Qed.

(** ** World updates *)

Lemma trace_addEvent e w : trace (addEvent e w) = trace w ++ [e].
Proof. done. Qed.

Lemma forEach_map {S A B} (g : A → B) (f : B → M S unit) l :
  forEach (map g l) f = forEach l (λ x, f (g x)).
Proof. induction l as [|x l IH]; simpl; [done|]. by rewrite IH. Qed.

Lemma writeSkills_writeAll E skillsDir tool st :
  Update.writeSkills E skillsDir tool st
  = writeAll E (skillWrites E skillsDir (value tool) st).
Proof.
  unfold Update.writeSkills, writeAll, skillWrites. by rewrite forEach_map.
Qed.

Lemma writeCommands_writeAll E P l :
  Update.writeCommands E P l
  = writeAll E (map (λ c, (resolvePath P c.1, c.2)) l).
Proof.
  unfold Update.writeCommands, writeAll. by rewrite forEach_map.
Qed.

Lemma wp_writeAll E l (Q : Res unit → World → Prop) w :
  (∀ w', sameShell w w' →
         trace w' = trace w ++ doneWrites l →
         fs w' = writeTree l (fs w) →
         Q (Ok tt) w') →
  (∀ w' e pre x post,
         l = pre ++ x :: post →
         sameShell w w' →
         trace w' = trace w ++ doneWrites pre ++ [Failed (OpWriteFile x.1 x.2) e] →
         fs w' = writeTree pre (fs w) →
         fault E (fs w') (OpWriteFile x.1 x.2) = Some e →
         Q (Throw e) w') →
  wp (writeAll E l) Q w.
Proof.
  revert w. induction l as [|[p c] l IH]; intros w Hok Hfail.
  - apply wp_ret. apply Hok; [done| |done]. simpl. by rewrite app_nil_r.
  - unfold writeAll. simpl. apply wp_bind. apply wp_attempt.
    + intros Hnf. simpl. apply IH.
      * intros w' [Hc Hcf] Htr Hfs. apply Hok.
        -- done.
        -- rewrite Htr. simpl. by rewrite <- (assoc_L app).
        -- done.
      * intros w' e pre x post -> [Hc Hcf] Htr Hfs Hflt.
        apply (Hfail w' e ((p, c) :: pre) x post); [done|done| |done|done].
        rewrite Htr. simpl. by rewrite <- (assoc_L app).
    + intros msg Hf. simpl. apply (Hfail _ msg [] (p, c) l); done.
Qed.

Lemma writesOf_app t1 t2 : writesOf (t1 ++ t2) = writesOf t1 ++ writesOf t2.
Proof. unfold writesOf. apply omap_app. Qed.

Lemma writesOf_deletes evs : Forall isDeleteEvent evs → writesOf evs = [].
Proof.
  induction 1 as [|e evs He _ IH]; [done|].
  destruct e as [[]|[]]; simpl in He; try done; exact IH.
Qed.

Lemma writesOf_doneWrites l : writesOf (doneWrites l) = l.
Proof.
  induction l as [|[p c] l IH]; [done|].
  change (writesOf (doneWrites ((p, c) :: l)))
    with ((p, c) :: writesOf (doneWrites l)).
  by rewrite IH.
Qed.

Lemma removalOutcome_refl R w : removalOutcome R w w.
Proof.
  split_and!; try done; [auto|]. exists []. by rewrite app_nil_r.
Qed.

Lemma removalOutcome_step R (w w' : World) (eff : FS → FS) (ev : FsEvent) :
  removalOutcome R w w' →
  isDeleteEvent ev →
  (∀ f, eff f ⊆ f) →
  (∀ f q, is_Some (f !! q) → is_Some (eff f !! q) ∨ R q) →
  removalOutcome R w (addEvent ev (setFs (eff (fs w')) w')).
Proof.
  intros ([Hc Hcf] & Hsub & Hkeep & evs & Htr & Hall) Hev Heff HR.
  split_and!; simpl; try done.
  - etrans; [apply Heff|done].
  - intros q Hq. destruct (Hkeep q Hq) as [H|H]; [|by right]. by apply HR.
  - exists (evs ++ [ev]). rewrite Htr, (assoc_L app). split; [done|].
    apply Forall_app. split; [done|]. by apply Forall_singleton.
Qed.

Lemma removalOutcome_fail R w w' ev :
  removalOutcome R w w' →
  isDeleteEvent ev →
  removalOutcome R w (addEvent ev w').
Proof.
  intros ([Hc Hcf] & Hsub & Hkeep & evs & Htr & Hall) Hev.
  split_and!; simpl; try done.
  exists (evs ++ [ev]). rewrite Htr, (assoc_L app). split; [done|].
  apply Forall_app. split; [done|]. by apply Forall_singleton.
Qed.

Lemma tableGet_Some (table : list (string * string)) k v :
  tableGet table k = Some v → (k, v) ∈ table.
Proof.
  induction table as [|[k' v'] t IH]; [intros [=]|].
  change (tableGet ((k', v') :: t) k)
    with (if bool_decide (k' = k) then Some v' else tableGet t k).
  case_bool_decide as H.
  - intros [= ->]. subst. left.
  - intros. right. auto.
Qed.

Lemma wp_removeSkillDirs E (skillsDir : path) (Q : Res nat → World → Prop) w :
  (∀ k w',
     removalOutcome (underSkillDir skillsDir) w w' →
     ((∀ f d, fault E f (OpRm d) = None) →
        ∀ wf dn, wf ∈ ALL_WORKFLOWS → tableGet WORKFLOW_TO_SKILL_DIR wf = Some dn →
                 fs w' !! (skillsDir ++ [dn]) = None) →
     Q (Ok k) w') →
  wp (removeSkillDirs E skillsDir) Q w.
Proof.
  intros HQ. unfold removeSkillDirs.
  apply (wp_foldM _ _ _ (λ done (k : nat) w',
    removalOutcome (underSkillDir skillsDir) w w'
    ∧ ((∀ f d, fault E f (OpRm d) = None) →
        ∀ wf dn, wf ∈ done → tableGet WORKFLOW_TO_SKILL_DIR wf = Some dn →
                 fs w' !! (skillsDir ++ [dn]) = None))).
  - split; [apply removalOutcome_refl|]. intros _ wf dn Hwf. by apply elem_of_nil in Hwf.
  - intros done wf rest k w' _ [Hout Habs].
    assert (Hkeep : ∀ w'', fs w'' ⊆ fs w' →
      (∀ f d, fault E f (OpRm d) = None) →
      ∀ wf' dn', wf' ∈ done → tableGet WORKFLOW_TO_SKILL_DIR wf' = Some dn' →
                 fs w'' !! (skillsDir ++ [dn']) = None).
    { intros w'' Hsub Hnf wf' dn' H1 H2.
      eapply lookup_weaken_None; [|exact Hsub]. eauto. }
    destruct (tableGet WORKFLOW_TO_SKILL_DIR wf) as [dn|] eqn:Hdn.
    + apply wp_tryCatch, wp_bind, wp_gets. simpl.
      destruct (existsSync (fs w') (skillsDir ++ [dn])) eqn:Hex.
      * apply wp_bind, wp_attempt.
        -- intros Hnf. simpl. apply wp_ret. split.
           ++ apply removalOutcome_step; [done|done|apply fsRm_subseteq|].
              intros f q Hq. rewrite fsRm_lookup.
              destruct (decide _); [|by left]. right. by exists wf, dn.
           ++ intros Hall wf' dn' Hin Hget. simpl.
              apply elem_of_app in Hin as [Hin|Hin].
              ** rewrite fsRm_lookup. destruct (decide _); [reflexivity|]. eauto.
              ** apply list_elem_of_singleton in Hin as ->.
                 rewrite Hdn in Hget. injection Hget as <-.
                 rewrite fsRm_lookup. by rewrite decide_True.
        -- intros msg Hf. simpl. apply wp_ret. split.
           ++ by apply removalOutcome_fail.
           ++ intros Hall. by rewrite Hall in Hf.
      * apply wp_ret. split; [done|].
        intros Hall wf' dn' Hin Hget.
        apply elem_of_app in Hin as [Hin|Hin]; [eauto|].
        apply list_elem_of_singleton in Hin as ->.
        rewrite Hdn in Hget. injection Hget as <-.
        by apply existsSync_false.
    + apply wp_ret. split; [done|].
      intros Hall wf' dn' Hin Hget.
      apply elem_of_app in Hin as [Hin|Hin]; [eauto|].
      apply list_elem_of_singleton in Hin as ->. congruence.
  - intros k w' [Hout Habs]. apply HQ; done.
Qed.

Lemma wp_removeCommandFiles E (P : path) toolId (Q : Res nat → World → Prop) w :
  (∀ k w',
     removalOutcome (isCommandPath E P toolId) w w' →
     ((∀ f p, fault E f (OpUnlink p) = None) →
        ∀ a wf, CommandAdapterRegistry_get E toolId = Some a →
                wf ∈ ALL_WORKFLOWS →
                fs w' !! resolvePath P (getFilePath a wf) = None) →
     Q (Ok k) w') →
  wp (removeCommandFiles E P toolId) Q w.
Proof.
  intros HQ. unfold removeCommandFiles.
  destruct (CommandAdapterRegistry_get E toolId) as [a|] eqn:Ha.
  2:{ apply wp_ret. apply HQ; [apply removalOutcome_refl|]. intros _ a' wf [=]. }
  apply (wp_foldM _ _ _ (λ done (k : nat) w',
    removalOutcome (isCommandPath E P toolId) w w'
    ∧ ((∀ f p, fault E f (OpUnlink p) = None) →
        ∀ wf, wf ∈ done → fs w' !! resolvePath P (getFilePath a wf) = None))).
  - split; [apply removalOutcome_refl|]. intros _ wf Hwf. by apply elem_of_nil in Hwf.
  - intros done wf rest k w' _ [Hout Habs].
    apply wp_tryCatch, wp_bind, wp_gets. simpl.
    destruct (existsSync (fs w') (resolvePath P (getFilePath a wf))) eqn:Hex.
    + apply wp_bind, wp_attempt.
      * intros Hnf. simpl. apply wp_ret. split.
        -- apply removalOutcome_step; [done|done|apply fsUnlink_subseteq|].
           intros f q Hq. unfold fsUnlink.
           destruct (decide (resolvePath P (getFilePath a wf) = q)) as [<-|Hne].
           ++ right. by exists a, wf.
           ++ left. by rewrite lookup_delete_ne.
        -- intros Hall wf' Hin. simpl.
           apply elem_of_app in Hin as [Hin|Hin].
           ++ eapply lookup_weaken_None; [|apply fsUnlink_subseteq]. eauto.
           ++ apply list_elem_of_singleton in Hin as ->. apply lookup_delete_eq.
      * intros msg Hf. simpl. apply wp_ret. split.
        -- by apply removalOutcome_fail.
        -- intros Hall. by rewrite Hall in Hf.
    + apply wp_ret. split; [done|].
      intros Hall wf' Hin.
      apply elem_of_app in Hin as [Hin|Hin]; [eauto|].
      apply list_elem_of_singleton in Hin as ->. by apply existsSync_false.
  - intros k w' [Hout Habs]. apply HQ; [done|].
    intros Hall a' wf [= <-]. eauto.
Qed.

Lemma wp_emitW {L} (o : Out) (Q : Res unit → World * L → Prop) w (l : L) :
  Q (Ok tt) (addOut o w, l) → wp (liftW (emit o)) Q (w, l).
Proof. intros H. apply wp_liftW. by apply wp_modify. Qed.

Lemma wp_setLocals {L} (g : L → L) (Q : Res unit → World * L → Prop) w (l : L) :
  Q (Ok tt) (w, g l) → wp (setLocals g) Q (w, l).
Proof. intros H. by apply wp_modify. Qed.

Lemma commandWrites_adapter E P tool a cc :
  CommandAdapterRegistry_get E (value tool) = Some a →
  map (λ c, (resolvePath P c.1, c.2)) (generateCommands cc a)
  = commandWrites E P (value tool) cc.
Proof. intros H. unfold commandWrites. by rewrite H. Qed.

Lemma commandWrites_none E P tool cc :
  CommandAdapterRegistry_get E (value tool) = None →
  commandWrites E P (value tool) cc = [].
Proof. intros H. unfold commandWrites. by rewrite H. Qed.

Lemma findTool_value E id tool : findTool E id = Some tool → value tool = id.
Proof.
  unfold findTool. intros H. apply find_some in H as [_ H].
  by apply bool_decide_eq_true in H.
Qed.

Lemma writesOf_written_exist (l : list (path * content)) (f : FS) q c :
  (q, c) ∈ l → is_Some (writeTree l f !! q).
Proof. apply writeTree_written. Qed.

Lemma not_write_failure_delete e :
  isDeleteEvent e →
  match e with Failed (OpWriteFile _ _) _ => False | _ => True end.
Proof. destruct e as [[]|[]]; done. Qed.

Lemma not_write_failure_done l e :
  e ∈ doneWrites l →
  match e with Failed (OpWriteFile _ _) _ => False | _ => True end.
Proof.
  unfold doneWrites. intros H. apply list_elem_of_fmap in H as (x & -> & _). done.
Qed.

Lemma noWriteFailure_app evs1 evs2 :
  noWriteFailure evs1 → noWriteFailure evs2 → noWriteFailure (evs1 ++ evs2).
Proof.
  intros H1 H2 e He.
  apply elem_of_app in He as [He|He]; [by apply H1|by apply H2].
Qed.

Lemma noWriteFailure_deletes evs : Forall isDeleteEvent evs → noWriteFailure evs.
Proof.
  intros H e He. rewrite Forall_forall in H.
  apply not_write_failure_delete. auto.
Qed.

Lemma noWriteFailure_doneWrites l : noWriteFailure (doneWrites l).
Proof. intros e He. by eapply not_write_failure_done. Qed.

Lemma writesOf_failed op m : writesOf [Failed op m] = [].
Proof. done. Qed.

(** A write phase inside the [try] block. *)
Lemma wp_writePhase E P gs gc toolId tool d W X Wall w l s
    (Q : Res unit → World * Update.Locals → Prop) :
  midTool E P gs gc toolId tool d W true w l s →
  (∀ x, x ∈ W ++ X → x ∈ Wall) →
  (∀ s', midTool E P gs gc toolId tool d (W ++ X) true w l s' → Q (Ok tt) s') →
  (∀ e s', thrownTool E P gs gc toolId tool d Wall e w l s' → Q (Throw e) s') →
  wp (liftW (writeAll E X)) Q s.
Proof.
  intros (Hc & Hcf & Hu & Hf & Hkeep & evs & Htr & HW & Hnw & Hex) HX HQ1 HQ2.
  destruct s as [w1 l1]. simpl in *.
  apply wp_liftW, wp_writeAll.
  - intros w2 [Hc2 Hcf2] Htr2 Hfs2. apply HQ1.
    split_and!; simpl; try congruence.
    + intros q Hq. destruct (Hkeep q Hq) as [H|H]; [|by right].
      left. rewrite Hfs2. by apply writeTree_is_Some.
    + exists (evs ++ doneWrites X). split_and!.
      * by rewrite Htr2, Htr, (assoc_L app).
      * by rewrite writesOf_app, writesOf_doneWrites, HW.
      * apply noWriteFailure_app; [done|apply noWriteFailure_doneWrites].
      * intros _ q c Hq. rewrite Hfs2. apply elem_of_app in Hq as [Hq|Hq].
        -- apply writeTree_is_Some. eauto.
        -- by eapply writeTree_written.
  - intros w2 e pre x post -> [Hc2 Hcf2] Htr2 Hfs2 Hflt. apply HQ2.
    split_and!; simpl; try congruence.
    + intros q Hq. destruct (Hkeep q Hq) as [H|H]; [|by right].
      left. rewrite Hfs2. by apply writeTree_is_Some.
    + exists (evs ++ doneWrites pre ++ [Failed (OpWriteFile x.1 x.2) e]),
        x.1, x.2, (evs ++ doneWrites pre).
      split_and!.
      * by rewrite Htr2, Htr, !(assoc_L app).
      * by rewrite !(assoc_L app).
      * apply noWriteFailure_app; [done|apply noWriteFailure_doneWrites].
      * destruct x. apply HX. apply elem_of_app. right.
        apply elem_of_app. right. left.
      * done.
      * intros pc. rewrite !writesOf_app, writesOf_doneWrites, HW. simpl.
        rewrite app_nil_r. intros Hq. apply HX.
        apply elem_of_app in Hq as [Hq|Hq]; apply elem_of_app; [by left|right].
        apply elem_of_app. by left.
      * intros q c'. rewrite !writesOf_app, writesOf_doneWrites, HW. simpl.
        rewrite app_nil_r. intros Hq. rewrite Hfs2.
        apply elem_of_app in Hq as [Hq|Hq].
        -- apply writeTree_is_Some. eauto.
        -- by eapply writeTree_written.
Qed.

(** The removal of skill directories inside the [try] block: only when
    skills are not generated, so nothing has been written yet. *)
Lemma wp_rmPhase E P gc toolId tool d w l s
    (Q : Res unit → World * Update.Locals → Prop) :
  midTool E P false gc toolId tool d [] true w l s →
  (∀ s', midTool E P false gc toolId tool d [] true w l s' → Q (Ok tt) s') →
  wp (k <- liftW (removeSkillDirs E (P ++ [d; "skills"])) ;;
      setLocals (Update.addRemovedSkills k)) Q s.
Proof.
  intros (Hc & Hcf & Hu & Hf & Hkeep & evs & Htr & HW & Hnw & Hex) HQ.
  destruct s as [w1 l1]. simpl in *.
  apply wp_bind, wp_liftW, wp_removeSkillDirs.
  intros k w2 ([Hc2 Hcf2] & Hsub & Hkeep2 & evs2 & Htr2 & Hdel) _. simpl.
  apply wp_setLocals. apply HQ.
  split_and!; simpl; try congruence.
  - intros q Hq. destruct (Hkeep q Hq) as [H|H]; [|by right].
    destruct (Hkeep2 q H) as [H'|H']; [by left|]. right. by left.
  - exists (evs ++ evs2). split_and!.
    + by rewrite Htr2, Htr, (assoc_L app).
    + by rewrite writesOf_app, HW, (writesOf_deletes evs2).
    + apply noWriteFailure_app; [done|by apply noWriteFailure_deletes].
    + intros _ q c Hq. by apply elem_of_nil in Hq.
Qed.

(** The removal of command files, the last phase of the [try] block. *)
Lemma wp_unlinkPhase E P gs toolId tool d W w l s
    (Q : Res unit → World * Update.Locals → Prop) :
  midTool E P gs false toolId tool d W true w l s →
  (∀ s', midTool E P gs false toolId tool d W false w l s' → Q (Ok tt) s') →
  wp (k <- liftW (removeCommandFiles E P toolId) ;;
      setLocals (Update.addRemovedCommands k)) Q s.
Proof.
  intros (Hc & Hcf & Hu & Hf & Hkeep & evs & Htr & HW & Hnw & Hex) HQ.
  destruct s as [w1 l1]. simpl in *.
  apply wp_bind, wp_liftW, wp_removeCommandFiles.
  intros k w2 ([Hc2 Hcf2] & Hsub & Hkeep2 & evs2 & Htr2 & Hdel) _. simpl.
  apply wp_setLocals. apply HQ.
  split_and!; simpl; try congruence.
  - intros q Hq. destruct (Hkeep q Hq) as [H|H]; [|by right].
    destruct (Hkeep2 q H) as [H'|H']; [by left|]. right. by right.
  - exists (evs ++ evs2). split_and!.
    + by rewrite Htr2, Htr, (assoc_L app).
    + by rewrite writesOf_app, HW, (writesOf_deletes evs2), app_nil_r.
    + apply noWriteFailure_app; [done|by apply noWriteFailure_deletes].
    + done.
Qed.

Lemma midTool_weaken E P gs gc toolId tool d W w l s :
  midTool E P gs gc toolId tool d W true w l s →
  midTool E P gs gc toolId tool d W false w l s.
Proof.
  intros (Hc & Hcf & Hu & Hf & Hkeep & evs & Htr & HW & Hnw & Hex).
  split_and!; try done. exists evs. split_and!; done.
Qed.

Lemma midTool_start E P gs gc toolId tool d w l :
  midTool E P gs gc toolId tool d [] true (w : World) l
    (addOut (startLine tool) w, l).
Proof.
  split_and!; simpl; try done; [auto|].
  exists []. split_and!; try done.
  - by rewrite app_nil_r.
  - intros e He. by apply elem_of_nil in He.
  - intros _ q c Hq. by apply elem_of_nil in Hq.
Qed.

Lemma wp_updateTool_valid E P gs gc st cc toolId tool d w l :
  findTool E toolId = Some tool →
  truthyDir tool = Some d →
  wp (Update.updateTool E P gs gc st cc toolId)
     (λ r s', r = Ok tt ∧ toolOutcome E P gs gc st cc toolId tool d w l s')
     (w, l).
Proof.
  intros Hfind Hdir. unfold Update.updateTool. rewrite Hfind, Hdir.
  pose proof (findTool_value _ _ _ Hfind) as Hval.
  set (Wall := requestedWrites E P gs gc st cc tool d).
  apply wp_bind, wp_emitW. simpl.
  pose proof (midTool_start E P gs gc toolId tool d w l) as Hmid.
  (* what the [catch] block does *)
  assert (Hcatch : ∀ e s',
    thrownTool E P gs gc toolId tool d Wall e w l s' →
    wp (liftW (emit (failLine tool)) ;;; setLocals (Update.pushFailed (name tool) e))
       (λ r s', r = Ok tt ∧ toolOutcome E P gs gc st cc toolId tool d w l s') s').
  { intros e [w1 l1] (Hc & Hcf & Hu & Hf & Hkeep & evs & p & c & pre & Htr & Hevs & Hnw & Hin & Hflt & Hsub & Hex).
    simpl in *. apply wp_bind, wp_emitW. simpl. apply wp_setLocals.
    split; [done|]. split_and!; simpl; try done.
    exists evs. split; [done|]. right. exists p, c, e, pre.
    split_and!; simpl; try done.
    - rewrite Hc. by rewrite <- (assoc_L app).
    - by rewrite Hf. }
  (* what the end of the [try] block does *)
  assert (Hend : ∀ b s',
    midTool E P gs gc toolId tool d Wall b w l s' →
    wp (liftW (emit (succeedLine tool)) ;;; setLocals (Update.pushUpdated (name tool)))
       (λ r s', match r with
                | Ok _ => toolOutcome E P gs gc st cc toolId tool d w l s'
                | _ => False
                end) s').
  { intros b [w1 l1] (Hc & Hcf & Hu & Hf & Hkeep & evs & Htr & HW & Hnw & Hex).
    simpl in *. apply wp_bind, wp_emitW. simpl. apply wp_setLocals.
    split_and!; simpl; try done.
    exists evs. split; [done|]. left.
    split_and!; simpl; try done.
    - rewrite Hc. by rewrite <- (assoc_L app).
    - by rewrite Hu. }
  apply wp_tryCatch.
  apply (wp_mono _ (λ r s', match r with
                           | Ok _ => toolOutcome E P gs gc st cc toolId tool d w l s'
                           | Throw e => thrownTool E P gs gc toolId tool d Wall e w l s'
                           | Exit _ => False
                           end)).
  2:{ intros [[]|e|c] s' H; [by split|by apply Hcatch|done]. }
  (* the four phases *)
  unfold Wall, requestedWrites in *.
  destruct gs, gc; simpl.
  - (* both *)
    apply wp_bind. rewrite writeSkills_writeAll.
    eapply (wp_writePhase _ _ _ _ _ _ _ [] _ Wall); [exact Hmid| | |].
    { intros x Hx. apply elem_of_app. by left. }
    2:{ intros e s' H. exact H. }
    intros s1 Hm1. simpl. apply wp_bind, wp_ret. simpl. apply wp_bind.
    destruct (CommandAdapterRegistry_get E (value tool)) as [a|] eqn:Ha.
    + rewrite writeCommands_writeAll, (commandWrites_adapter _ _ _ _ _ Ha).
      eapply (wp_writePhase _ _ _ _ _ _ _ _ _ Wall); [exact Hm1| | |].
      { intros x Hx. exact Hx. }
      2:{ intros e s' H. exact H. }
      intros s2 Hm2. simpl. apply wp_bind, wp_ret. simpl.
      eapply wp_mono; [by eapply Hend|]. by intros [[]|?|?] ?.
    + apply wp_ret. simpl. apply wp_bind, wp_ret. simpl.
      eapply wp_mono; [eapply Hend|by intros [[]|?|?] ?].
      rewrite (commandWrites_none _ _ _ _ Ha), app_nil_r.
      exact Hm1.
  - (* skills only *)
    apply wp_bind. rewrite writeSkills_writeAll.
    eapply (wp_writePhase _ _ _ _ _ _ _ [] _ Wall); [exact Hmid| | |].
    { intros x Hx. apply elem_of_app. by left. }
    2:{ intros e s' H. exact H. }
    intros s1 Hm1. simpl. apply wp_bind, wp_ret. simpl.
    apply wp_bind, wp_ret. simpl. apply wp_bind.
    eapply wp_unlinkPhase; [exact Hm1|].
    intros s2 Hm2. simpl.
    eapply wp_mono; [eapply Hend|by intros [[]|?|?] ?].
    rewrite app_nil_r. exact Hm2.
  - (* commands only *)
    apply wp_bind, wp_ret. simpl. apply wp_bind.
    eapply wp_rmPhase; [exact Hmid|].
    intros s1 Hm1. simpl. apply wp_bind.
    destruct (CommandAdapterRegistry_get E (value tool)) as [a|] eqn:Ha.
    + rewrite writeCommands_writeAll, (commandWrites_adapter _ _ _ _ _ Ha).
      eapply (wp_writePhase _ _ _ _ _ _ _ [] _ Wall); [exact Hm1| | |].
      { intros x Hx. done. }
      2:{ intros e s' H. exact H. }
      intros s2 Hm2. simpl. apply wp_bind, wp_ret. simpl.
      eapply wp_mono; [by eapply Hend|]. by intros [[]|?|?] ?.
    + apply wp_ret. simpl. apply wp_bind, wp_ret. simpl.
      eapply wp_mono; [eapply Hend|by intros [[]|?|?] ?].
      rewrite (commandWrites_none _ _ _ _ Ha).
      exact Hm1.
  - (* neither *)
    apply wp_bind, wp_ret. simpl. apply wp_bind.
    eapply wp_rmPhase; [exact Hmid|].
    intros s1 Hm1. simpl. apply wp_bind, wp_ret. simpl. apply wp_bind.
    eapply wp_unlinkPhase; [exact Hm1|].
    intros s2 Hm2. simpl.
    eapply wp_mono; [eapply Hend|by intros [[]|?|?] ?]. exact Hm2.
Qed.

Lemma updateTool_skip E P gs gc st cc toolId s :
  findTool E toolId ≫= truthyDir = None →
  Update.updateTool E P gs gc st cc toolId s = (Ok tt, s).
Proof.
  unfold Update.updateTool. destruct (findTool E toolId) as [tool|]; simpl; [|done].
  by intros ->.
Qed.

Lemma elem_of_writesOf evs p c :
  (p, c) ∈ writesOf evs ↔ Done (OpWriteFile p c) ∈ evs.
Proof.
  unfold writesOf. rewrite list_elem_of_omap. split.
  - intros (e & He & Hm). destruct e as [[]|]; simplify_eq. done.
  - intros H. exists (Done (OpWriteFile p c)). done.
Qed.

Lemma loopOutcome_start E P gs gc st cc w :
  loopOutcome E P gs gc st cc w [] (w, Update.mkLocals [] [] 0 0).
Proof.
  split_and!; simpl; try done.
  - auto.
  - intros ??? H. by apply elem_of_nil in H.
  - intros ? H. by apply elem_of_nil in H.
  - intros ?? H. by apply elem_of_nil in H.
  - exists []. rewrite app_nil_r. split_and!; try done.
    + intros ?? H. by apply elem_of_nil in H.
    + intros ??? H. by apply elem_of_nil in H.
    + intros ? H. by apply elem_of_nil in H.
Qed.

Lemma loopOutcome_skip E P gs gc st cc w done toolId s :
  findTool E toolId ≫= truthyDir = None →
  loopOutcome E P gs gc st cc w done s →
  loopOutcome E P gs gc st cc w (done ++ [toolId]) s.
Proof.
  intros Hnone (Hcf & Hcon & Hkeep & Hatt & Hupd & Hline & evs & Htr & Hrec & Hall & Hwr).
  assert (Hin : ∀ x, x ∈ done → x ∈ done ++ [toolId]).
  { intros x Hx. apply elem_of_app. by left. }
  assert (Hnot : ∀ tool d, ¬ validTool E toolId tool d).
  { intros tool d [H1 H2]. rewrite H1 in Hnone. simpl in Hnone. congruence. }
  split_and!; try done.
  - intros q Hq. destruct (Hkeep q Hq) as [H|(i & t & d & H1 & H2 & H3)]; [by left|].
    right. exists i, t, d. auto.
  - intros i t d Hi Hv. apply elem_of_app in Hi as [Hi|Hi]; [eauto|].
    apply list_elem_of_singleton in Hi as ->. by destruct (Hnot t d).
  - intros n Hn. destruct (Hupd n Hn) as (i & t & d & H1 & H2 & H3).
    exists i, t, d. auto.
  - exists evs. split_and!; try done.
    + intros n e Hne. destruct (Hrec n e Hne) as (i & t & d & p & c & H1 & H2).
      exists i, t, d, p, c. auto.
    + intros pc Hpc. destruct (Hwr pc Hpc) as (i & t & d & H1 & H2).
      exists i, t, d. auto.
Qed.

Lemma loopOutcome_step E P gs gc st cc w done toolId tool d s s' :
  validTool E toolId tool d →
  loopOutcome E P gs gc st cc w done s →
  toolOutcome E P gs gc st cc toolId tool d s.1 s.2 s' →
  loopOutcome E P gs gc st cc w (done ++ [toolId]) s'.
Proof.
  intros Hv (Hcf & Hcon & Hkeep & Hatt & Hupd & Hline & evs & Htr & Hrec & Hall & Hwr)
    (Hcf' & Hkeep' & evs' & Htr' & Hcase).
  assert (Hin : ∀ x, x ∈ done → x ∈ done ++ [toolId]).
  { intros x Hx. apply elem_of_app. by left. }
  assert (Hlast : toolId ∈ done ++ [toolId]).
  { apply elem_of_app. right. left. }
  assert (Hcon' : console s.1 `prefix_of` console s'.1).
  { destruct Hcase as [(Hc & _)|(p & c & e & pre & Hc & _)]; rewrite Hc;
      by apply prefix_app_r. }
  assert (Hlists :
    (∀ n, n ∈ Update.updatedTools s.2 → n ∈ Update.updatedTools s'.2)
    ∧ (∀ x, x ∈ Update.failedTools s.2 → x ∈ Update.failedTools s'.2)).
  { destruct Hcase as [(_ & Hu & Hf & _)|(p & c & e & pre & _ & Hu & Hf & _)];
      rewrite Hu, Hf; split; intros; try done; apply elem_of_app; by left. }
  destruct Hlists as [Hupd_mono Hfail_mono].
  split_and!.
  - congruence.
  - by etrans.
  - intros q Hq. destruct (Hkeep q Hq) as [H|(i & t & d' & H1 & H2 & H3)].
    + destruct (Hkeep' q H) as [H'|H']; [by left|].
      right. exists toolId, tool, d. auto.
    + right. exists i, t, d'. auto.
  - intros i t d' Hi Hvi. apply elem_of_app in Hi as [Hi|Hi].
    + destruct (Hatt i t d' Hi Hvi) as [H|H]; [left; auto|right].
      apply list_elem_of_fmap in H as ([n e] & -> & H).
      apply list_elem_of_fmap. exists (n, e). auto.
    + apply list_elem_of_singleton in Hi as ->.
      destruct Hv as [Hv1 Hv2], Hvi as [Hvi1 Hvi2].
      rewrite Hv1 in Hvi1. injection Hvi1 as <-.
      destruct Hcase as [(_ & Hu & _)|(p & c & e & pre & _ & _ & Hf & _)].
      * left. rewrite Hu. apply elem_of_app. right. left.
      * right. rewrite Hf. rewrite fmap_app. apply elem_of_app. right. left.
  - intros n Hn.
    destruct Hcase as [(_ & Hu & _)|(p & c & e & pre & _ & Hu & _)].
    + rewrite Hu in Hn. apply elem_of_app in Hn as [Hn|Hn].
      * destruct (Hupd n Hn) as (i & t & d' & H1 & H2 & H3). exists i, t, d'. auto.
      * apply list_elem_of_singleton in Hn as ->. exists toolId, tool, d. auto.
    + rewrite Hu in Hn.
      destruct (Hupd n Hn) as (i & t & d' & H1 & H2 & H3). exists i, t, d'. auto.
  - intros n e Hne.
    destruct Hcase as [(Hc & _ & Hf & _)|(p & c & e' & pre & Hc & _ & Hf & _)].
    + rewrite Hf in Hne. destruct Hcon' as [o Ho]. rewrite Ho.
      apply elem_of_app. left. eauto.
    + rewrite Hf in Hne. apply elem_of_app in Hne as [Hne|Hne].
      * destruct Hcon' as [o Ho]. rewrite Ho. apply elem_of_app. left. eauto.
      * apply list_elem_of_singleton in Hne. injection Hne as -> ->.
        rewrite Hc. apply elem_of_app. right. right. left.
  - exists (evs ++ evs'). split; [by rewrite Htr', Htr, (assoc_L app)|].
    split_and!.
    + intros n e Hne.
      destruct Hcase as [(_ & _ & Hf & _)|(p & c & e' & pre & _ & _ & Hf & Hevs & _ & Hreq & _)].
      * rewrite Hf in Hne. destruct (Hrec n e Hne) as (i & t & d' & p & c & H1 & H2 & H3 & H4 & H5).
        exists i, t, d', p, c. split_and!; auto. apply elem_of_app. by left.
      * rewrite Hf in Hne. apply elem_of_app in Hne as [Hne|Hne].
        -- destruct (Hrec n e Hne) as (i & t & d' & p0 & c0 & H1 & H2 & H3 & H4 & H5).
           exists i, t, d', p0, c0. split_and!; auto. apply elem_of_app. by left.
        -- apply list_elem_of_singleton in Hne. injection Hne as -> ->.
           exists toolId, tool, d, p, c. split_and!; auto.
           apply elem_of_app. right. rewrite Hevs. apply elem_of_app. right. left.
    + intros p c e He. apply elem_of_app in He as [He|He].
      * destruct (Hall p c e He) as [n Hn]. exists n. auto.
      * destruct Hcase as [(_ & _ & _ & _ & Hnw)|(p' & c' & e' & pre & _ & _ & Hf & Hevs & Hnw & Hreq & Hex)].
        -- by destruct (Hnw _ He).
        -- exists (name tool). rewrite Hf. apply elem_of_app. right.
           rewrite Hevs in He. apply elem_of_app in He as [He|He].
           ++ by destruct (Hnw _ He).
           ++ apply list_elem_of_singleton in He. injection He as -> -> ->. left.
    + intros pc. rewrite writesOf_app. intros Hpc.
      apply elem_of_app in Hpc as [Hpc|Hpc].
      * destruct (Hwr pc Hpc) as (i & t & d' & H1 & H2 & H3). exists i, t, d'. auto.
      * exists toolId, tool, d. split_and!; auto.
        destruct Hcase as [(_ & _ & _ & HW & _)|(p' & c' & e' & pre & _ & _ & _ & _ & _ & _ & _ & Hsub & _)].
        -- by rewrite <- HW.
        -- by apply Hsub.
Qed.

Lemma wp_run {S A} (m : M S A) (Q : Res A → S → Prop) s :
  wp m Q s → ∃ r s', m s = (r, s') ∧ Q r s'.
Proof. unfold wp. destruct (m s) as [r s']. eauto. Qed.

Lemma reconcileLoop_outcome E P gs gc st cc toolsToUpdate w :
  ∃ l w',
    Update.reconcileLoop E P gs gc st cc toolsToUpdate w = (Ok (tt, l), w')
    ∧ loopOutcome E P gs gc st cc w toolsToUpdate (w', l).
Proof.
  assert (Hwp : wp (Update.reconcileLoop E P gs gc st cc toolsToUpdate)
    (λ r w', ∃ l, r = Ok (tt, l)
                  ∧ loopOutcome E P gs gc st cc w toolsToUpdate (w', l)) w).
  { unfold Update.reconcileLoop. apply wp_withLocals.
    apply (wp_forEach _ _ (λ done s, loopOutcome E P gs gc st cc w done s)).
    - apply loopOutcome_start.
    - intros done toolId rest [w1 l1] _ Hinv.
      destruct (findTool E toolId ≫= truthyDir) as [d|] eqn:Hv.
      + destruct (findTool E toolId) as [tool|] eqn:Hfind; [|done]. simpl in Hv.
        eapply wp_mono; [by apply (wp_updateTool_valid _ _ _ _ _ _ _ tool d)|].
        intros r s' [-> Hout]. by eapply loopOutcome_step.
      + unfold wp. rewrite updateTool_skip by done. simpl.
        by apply loopOutcome_skip.
    - intros [w1 l1] Hinv. exists l1. done. }
  apply wp_run in Hwp as (r & w' & Hrun & l & -> & Hout). eauto.
Qed.

Lemma quietOutcome_refl w : quietOutcome w w.
Proof. done. Qed.

Lemma quietOutcome_trans w1 w2 w3 :
  quietOutcome w1 w2 → quietOutcome w2 w3 → quietOutcome w1 w3.
Proof.
  intros (?&?&?&?) (?&?&?&?). split_and!; try congruence. by etrans.
Qed.

Lemma Quiet_ret {A} (a : A) : Quiet (ret a).
Proof. intros w. exists a, w. done. Qed.

Lemma Quiet_gets {A} (g : World → A) : Quiet (gets g).
Proof. intros w. exists (g w), w. done. Qed.

Lemma Quiet_consoleLog s : Quiet (consoleLog s).
Proof.
  intros w. exists tt, (addOut (ConsoleLog s) w). split; [done|].
  split_and!; try done. simpl. by apply prefix_app_r.
Qed.

Lemma Quiet_emit o : Quiet (emit o).
Proof.
  intros w. exists tt, (addOut o w). split; [done|].
  split_and!; try done. simpl. by apply prefix_app_r.
Qed.

Lemma Quiet_bind {A B} (m : M World A) (k : A → M World B) :
  Quiet m → (∀ a, Quiet (k a)) → Quiet (bind m k).
Proof.
  intros Hm Hk w. destruct (Hm w) as (a & w1 & Hr & Hq).
  destruct (Hk a w1) as (b & w2 & Hr2 & Hq2).
  exists b, w2. split; [|by eapply quietOutcome_trans].
  unfold bind. by rewrite Hr.
Qed.

Lemma Quiet_if {A} (b : bool) (m1 m2 : M World A) :
  Quiet m1 → Quiet m2 → Quiet (if b then m1 else m2).
Proof. by destruct b. Qed.

Lemma Quiet_forEach {A} (l : list A) (f : A → M World unit) :
  (∀ x, Quiet (f x)) → Quiet (forEach l f).
Proof.
  intros Hf. induction l as [|x l IH]; simpl.
  - apply Quiet_ret.
  - apply Quiet_bind; [apply Hf|done].
Qed.

Ltac quiet :=
  repeat first
    [ apply Quiet_ret | apply Quiet_gets | apply Quiet_consoleLog
    | apply Quiet_emit | apply Quiet_if | apply Quiet_forEach; intros ?
    | apply Quiet_bind; [|intros ?] ].

Lemma Quiet_displayUpToDateMessage E ts : Quiet (Update.displayUpToDateMessage E ts).
Proof. unfold Update.displayUpToDateMessage. quiet. Qed.

Lemma Quiet_displayUpdatePlan E a b c : Quiet (Update.displayUpdatePlan E a b c).
Proof. unfold Update.displayUpdatePlan. quiet. Qed.

Lemma Quiet_detectNewTools E P ct : Quiet (Update.detectNewTools E P ct).
Proof. unfold Update.detectNewTools. quiet. Qed.

Lemma Quiet_displayExtraWorkflowsNote E P ct pw :
  Quiet (Update.displayExtraWorkflowsNote E P ct pw).
Proof. unfold Update.displayExtraWorkflowsNote. quiet. Qed.

Lemma Quiet_displaySummary E l : Quiet (Update.displaySummary E l).
Proof. unfold Update.displaySummary. quiet. Qed.

Lemma wp_quiet {A} (m : M World A) (Q : Res A → World → Prop) w :
  Quiet m →
  (∀ a w', quietOutcome w w' → m w = (Ok a, w') → Q (Ok a) w') →
  wp m Q w.
Proof.
  intros Hm HQ. destruct (Hm w) as (a & w' & Hr & Hq).
  unfold wp. rewrite Hr. simpl. by apply HQ.
Qed.

(** The migration neither touches the file tree nor records an event; it
    returns unless the config file holds [null]. *)
Lemma migrateIfNeeded_frame P tools w :
  ∃ r w', Migration.migrateIfNeeded P tools w = (r, w')
          ∧ fs w' = fs w ∧ trace w' = trace w
          ∧ console w `prefix_of` console w'
          ∧ (r = Ok tt ∧ configFile w ≠ ConfigNull
             ∨ r = Throw Migration.NULL_PROFILE_ERROR ∧ w' = w
               ∧ configFile w = ConfigNull).
Proof.
  unfold Migration.migrateIfNeeded.
  unfold bind, getGlobalConfig, gets, ret, throw, saveGlobalConfig, consoleLog,
    modify.
  simpl.
  destruct (configFile w) as [| | |obj] eqn:Hcf; simpl.
  - repeat case_bool_decide; eexists _, _; (split; [reflexivity|]); simpl;
      split_and!; try done; try (by left);
      rewrite <- (assoc_L app); by apply prefix_app_r.
  - eexists _, _. split; [reflexivity|]. split_and!; try done. by left.
  - eexists _, _. split; [reflexivity|]. split_and!; try done. by right.
  - repeat case_bool_decide; eexists _, _; (split; [reflexivity|]); simpl;
      split_and!; try done; try (by left);
      rewrite <- (assoc_L app); by apply prefix_app_r.
Qed.

Lemma displaySummary_failed E l w :
  0 < length (Update.failedTools l) →
  failedLine (Update.failedTools l) ∈ console (Update.displaySummary E l w).2.
Proof.
  intros Hlen. unfold Update.displaySummary, failedLine.
  rewrite (bool_decide_true _ Hlen).
  unfold bind, consoleLog, modify, ret.
  repeat case_bool_decide; simpl;
    repeat (first [ apply elem_of_app; right; by left
                  | apply elem_of_app; left ]).
Qed.

Lemma elem_of_prefix {A} (l1 l2 : list A) x : l1 `prefix_of` l2 → x ∈ l1 → x ∈ l2.
Proof. intros [k ->] H. apply elem_of_app. by left. Qed.

Lemma wp_of_run {S A} (m : M S A) (Q : Res A → S → Prop) s r s' :
  m s = (r, s') → Q r s' → wp m Q s.
Proof. intros H HQ. unfold wp. by rewrite H. Qed.

(** Steps 3 to 15 return, in one of the shapes of [RunShape], unless some
    tool is configured and the config file holds [null]: the migration
    step then throws in the world the run started in. *)
Lemma executeAfterLegacy_outcome E force P newlyConfiguredTools w :
  ∃ r w', Update.executeAfterLegacy E force P newlyConfiguredTools w = (r, w')
        ∧ console w `prefix_of` console w'
        ∧ (r = Ok tt
           ∧ RunShape E force P newlyConfiguredTools w
               (migrated E P newlyConfiguredTools w) w'
           ∧ (configFile w = ConfigNull →
              Update.getConfiguredToolsForUpdate E (fs w) P = []
              ∧ newlyConfiguredTools = [])
           ∨ r = Throw Migration.NULL_PROFILE_ERROR ∧ w' = w
             ∧ configFile w = ConfigNull
             ∧ ¬ (Update.getConfiguredToolsForUpdate E (fs w) P = []
                  ∧ newlyConfiguredTools = [])).
Proof.
  enough (Hwp : wp (Update.executeAfterLegacy E force P newlyConfiguredTools)
    (λ r w', console w `prefix_of` console w'
      ∧ (r = Ok tt
         ∧ RunShape E force P newlyConfiguredTools w
             (migrated E P newlyConfiguredTools w) w'
         ∧ (configFile w = ConfigNull →
            Update.getConfiguredToolsForUpdate E (fs w) P = []
            ∧ newlyConfiguredTools = [])
         ∨ r = Throw Migration.NULL_PROFILE_ERROR ∧ w' = w
           ∧ configFile w = ConfigNull
           ∧ ¬ (Update.getConfiguredToolsForUpdate E (fs w) P = []
                ∧ newlyConfiguredTools = []))) w).
  { apply wp_run in Hwp as (r & w' & Hrun & H). eauto. }
  unfold Update.executeAfterLegacy.
  apply wp_bind, wp_gets. simpl.
  set (ct := Update.getConfiguredToolsForUpdate E (fs w) P).
  destruct (bool_decide (length ct = 0)
            && bool_decide (length newlyConfiguredTools = 0)) eqn:Hnone.
  { apply andb_true_iff in Hnone as [H1 H2].
    apply bool_decide_eq_true, nil_length_inv in H1.
    apply bool_decide_eq_true, nil_length_inv in H2.
    apply wp_quiet; [quiet|].
    intros [] w' (Hfs & Hcf & Htr & Hcon) _. split; [done|]. left.
    split; [done|]. split; [by apply NothingConfigured|done]. }
  apply wp_bind.
  destruct (migrateIfNeeded_frame P
    (omap (findTool E) (toSet (ct ++ newlyConfiguredTools))) w)
    as (rm & wm & Hmig & Hfsm & Htrm & Hconm
        & [[-> Hnn]|(-> & -> & Hnull)]).
  2:{ eapply wp_of_run; [exact Hmig|]. simpl. split; [done|]. right.
      split_and!; try done. intros [H1 H2]. fold ct in H1.
      by rewrite H1, H2 in Hnone. }
  assert (Hwm : migrated E P newlyConfiguredTools w = wm).
  { unfold migrated. fold ct. by rewrite Hmig. }
  rewrite Hwm.
  eapply wp_of_run; [exact Hmig|]. simpl.
  apply wp_bind, wp_gets. simpl.
  apply wp_bind, wp_gets. simpl. rewrite Hfsm.
  set (c := readConfig (configFile wm)).
  destruct (negb force
            && bool_decide (length (Update.toolsToUpdateSetOf E (fs w) P ct c) = 0))
    eqn:Hup.
  { apply andb_true_iff in Hup as [H1 H2].
    apply negb_true_iff in H1.
    apply bool_decide_eq_true, nil_length_inv in H2.
    apply wp_quiet; [quiet; first [apply Quiet_displayUpToDateMessage
                                  |apply Quiet_detectNewTools
                                  |apply Quiet_displayExtraWorkflowsNote]|].
    intros [] w' (Hfs & Hcf & Htr & Hcon) _. split; [by etrans|]. left.
    split; [done|]. split; [|done]. apply UpToDate; try done; congruence. }
  apply wp_bind. apply wp_quiet.
  { apply Quiet_if; [apply Quiet_consoleLog|apply Quiet_displayUpdatePlan]. }
  intros [] w1 (Hfs1 & Hcf1 & Htr1 & Hcon1) _. simpl.
  apply wp_bind. apply wp_quiet; [apply Quiet_consoleLog|].
  intros [] w2 (Hfs2 & Hcf2 & Htr2 & Hcon2) _. simpl.
  apply wp_bind.
  destruct (reconcileLoop_outcome E P
    (Update.shouldGenerateSkillsOf c) (Update.shouldGenerateCommandsOf c)
    (Update.skillTemplatesOf c) (Update.commandContentsOf c)
    (if force then ct else Update.toolsToUpdateSetOf E (fs w) P ct c) w2)
    as (l & wl & Hloop & Hout).
  eapply wp_of_run; [exact Hloop|]. simpl.
  apply wp_bind. apply wp_quiet; [apply Quiet_displaySummary|].
  intros [] w3 (Hfs3 & Hcf3 & Htr3 & Hcon3) Hsum. simpl.
  apply wp_quiet.
  { quiet; first [apply Quiet_detectNewTools
                 |apply Quiet_displayExtraWorkflowsNote]. }
  intros [] w' (Hfs4 & Hcf4 & Htr4 & Hcon4) _.
  destruct Hout as (Hcfl & Hconl & _). simpl in Hcfl, Hconl.
  split.
  - etrans; [exact Hconm|]. etrans; [exact Hcon1|]. etrans; [exact Hcon2|].
    etrans; [exact Hconl|]. etrans; [exact Hcon3|]. exact Hcon4.
  - left. split; [done|]. split; [|done].
    apply (Reconciled _ _ _ _ _ _ _ w2 l wl); try congruence.
    + etrans; [exact Hconm|]. etrans; [exact Hcon1|]. exact Hcon2.
    + exact Hloop.
    + by etrans.
    + intros Hlen. eapply elem_of_prefix; [exact Hcon4|].
      pose proof (displaySummary_failed E l wl Hlen) as Hline.
      by rewrite Hsum in Hline.
Qed.

Lemma inits_prefix (p q : path) : q ∈ inits p → q `prefix_of` p.
Proof.
  revert q. induction p as [|s r IH]; intros q; simpl.
  - intros H. apply list_elem_of_singleton in H as ->. done.
  - intros H. apply elem_of_cons in H as [->|H]; [apply prefix_nil|].
    apply list_elem_of_fmap in H as (q' & -> & Hq').
    apply prefix_cons. by apply IH.
Qed.

Lemma dirname_prefix (p : path) : dirname p `prefix_of` p.
Proof.
  unfold dirname. destruct (decide (p = [])) as [->|Hne]; [done|].
  exists [List.last p ""]. by apply app_removelast_last.
Qed.

Lemma mkdirp_lookup_None (d : path) (f : FS) (q : path) :
  f !! q = None → ¬ q `prefix_of` d → mkdirp d f !! q = None.
Proof.
  intros Hq Hpre. unfold mkdirp.
  assert (Hall : ∀ x, x ∈ inits d → x ≠ q).
  { intros x Hx ->. by apply Hpre, inits_prefix. }
  induction (inits d) as [|x l IH]; simpl; [done|].
  assert (IH' : foldr ensureDir f l !! q = None).
  { apply IH. intros y Hy. apply Hall. by right. }
  unfold ensureDir at 1. destruct (foldr ensureDir f l !! x) eqn:Hx; [done|].
  rewrite lookup_insert_ne; [done|]. apply Hall. by left.
Qed.

Lemma fsWrite_lookup_None (p : path) (c : content) (f : FS) (q : path) :
  f !! q = None → ¬ q `prefix_of` p → fsWrite p c f !! q = None.
Proof.
  intros Hq Hpre. unfold fsWrite.
  rewrite lookup_insert_ne; [|by intros ->].
  apply mkdirp_lookup_None; [done|].
  intros H. apply Hpre. etrans; [exact H|apply dirname_prefix].
Qed.

Lemma writeTree_lookup_None (l : list (path * content)) (f : FS) (q : path) :
  f !! q = None → (∀ pc, pc ∈ l → ¬ q `prefix_of` pc.1) →
  writeTree l f !! q = None.
Proof.
  revert f. induction l as [|[p c] l IH]; intros f Hq Hl; simpl; [done|].
  apply IH.
  - apply fsWrite_lookup_None; [done|]. apply (Hl (p, c)). by left.
  - intros pc Hpc. apply Hl. by right.
Qed.

(** The three kinds of phases when no operation fails. *)
Lemma wp_writeAll_nofault {L} E X (Q : Res unit → World * L → Prop) w (l : L) :
  noFaults E →
  (∀ w', fs w' = writeTree X (fs w) → Q (Ok tt) (w', l)) →
  wp (liftW (writeAll E X)) Q (w, l).
Proof.
  intros Hnf HQ. apply wp_liftW, wp_writeAll.
  - intros w' _ _ Hfs. by apply HQ.
  - intros w' e pre x post _ _ _ _ Hflt. by rewrite Hnf in Hflt.
Qed.

Lemma wp_removeSkillDirs_nofault {L} E skillsDir (g : nat → L → L)
    (Q : Res unit → World * L → Prop) w (l : L) :
  noFaults E →
  (∀ s', fs s'.1 ⊆ fs w →
         (∀ wf dn, wf ∈ ALL_WORKFLOWS →
                   tableGet WORKFLOW_TO_SKILL_DIR wf = Some dn →
                   fs s'.1 !! (skillsDir ++ [dn]) = None) →
         Q (Ok tt) s') →
  wp (k <- liftW (removeSkillDirs E skillsDir) ;; setLocals (g k)) Q (w, l).
Proof.
  intros Hnf HQ. apply wp_bind, wp_liftW, wp_removeSkillDirs.
  intros k w' (_ & Hsub & _) Habs. simpl. apply wp_setLocals, HQ; simpl; [done|].
  apply Habs. intros f d. apply Hnf.
Qed.

Lemma wp_removeCommandFiles_nofault {L} E P toolId (g : nat → L → L)
    (Q : Res unit → World * L → Prop) w (l : L) :
  noFaults E →
  (∀ s', fs s'.1 ⊆ fs w →
         (∀ a wf, CommandAdapterRegistry_get E toolId = Some a →
                  wf ∈ ALL_WORKFLOWS →
                  fs s'.1 !! resolvePath P (getFilePath a wf) = None) →
         Q (Ok tt) s') →
  wp (k <- liftW (removeCommandFiles E P toolId) ;; setLocals (g k)) Q (w, l).
Proof.
  intros Hnf HQ. apply wp_bind, wp_liftW, wp_removeCommandFiles.
  intros k w' (_ & Hsub & _) Habs. simpl. apply wp_setLocals, HQ; simpl; [done|].
  apply Habs. intros f p. apply Hnf.
Qed.

(** When nothing fails, an iteration for a tool leaves no catalog skill
    directory if skills are disabled and no catalog command file if
    commands are disabled. *)
Lemma updateTool_kindsRemoved E P gs gc st cc toolId tool d w l :
  noFaults E →
  findTool E toolId = Some tool → truthyDir tool = Some d →
  ∃ s', Update.updateTool E P gs gc st cc toolId (w, l) = (Ok tt, s')
        ∧ kindsRemoved E P gs gc cc toolId tool d (fs s'.1).
Proof.
  intros Hnf Hfind Hdir.
  enough (Hwp : wp (Update.updateTool E P gs gc st cc toolId)
            (λ r s', r = Ok tt ∧ kindsRemoved E P gs gc cc toolId tool d (fs s'.1))
            (w, l)).
  { apply wp_run in Hwp as (r & s' & Hrun & -> & H). eauto. }
  unfold Update.updateTool. rewrite Hfind, Hdir.
  apply wp_bind, wp_emitW. simpl. apply wp_tryCatch.
  apply (wp_mono _ (λ r s', r = Ok tt
                            ∧ kindsRemoved E P gs gc cc toolId tool d (fs s'.1))).
  2:{ by intros [[]|e|k] s' [H1 H2]. }
  assert (Hend : ∀ s', kindsRemoved E P gs gc cc toolId tool d (fs s'.1) →
    wp (liftW (emit (SpinnerSucceed ("Updated " +:+ name tool))) ;;;
        setLocals (Update.pushUpdated (name tool)))
       (λ r s', r = Ok tt ∧ kindsRemoved E P gs gc cc toolId tool d (fs s'.1)) s').
  { intros [w1 l1] H. apply wp_bind, wp_emitW. simpl. by apply wp_setLocals. }
  unfold kindsRemoved in *.
  destruct gs, gc; simpl.
  - apply wp_bind. rewrite writeSkills_writeAll.
    apply wp_writeAll_nofault; [done|]. intros w1 _. simpl.
    apply wp_bind, wp_ret. simpl. apply wp_bind.
    destruct (CommandAdapterRegistry_get E (value tool)) as [a|] eqn:Ha.
    + rewrite writeCommands_writeAll.
      apply wp_writeAll_nofault; [done|]. intros w2 _. simpl.
      apply wp_bind, wp_ret. simpl. apply Hend. by split.
    + apply wp_ret. simpl. apply wp_bind, wp_ret. simpl. apply Hend. by split.
  - apply wp_bind. rewrite writeSkills_writeAll.
    apply wp_writeAll_nofault; [done|]. intros w1 _. simpl.
    apply wp_bind, wp_ret. simpl. apply wp_bind, wp_ret. simpl. apply wp_bind.
    apply wp_removeCommandFiles_nofault; [done|]. intros s2 _ Habs. simpl.
    apply Hend. split; [done|]. intros _. exact Habs.
  - apply wp_bind, wp_ret. simpl. apply wp_bind.
    apply wp_removeSkillDirs_nofault; [done|]. intros [w1 l1] _ Habs. simpl in *.
    apply wp_bind.
    destruct (CommandAdapterRegistry_get E (value tool)) as [a|] eqn:Ha.
    + rewrite writeCommands_writeAll, (commandWrites_adapter _ _ _ _ _ Ha).
      apply wp_writeAll_nofault; [done|]. intros w2 Hfs. simpl.
      apply wp_bind, wp_ret. simpl. apply Hend. simpl. split; [|done].
      intros _ Hout wf dn Hwf Hdn. rewrite Hfs.
      apply writeTree_lookup_None; [by eapply Habs|].
      intros pc Hpc. by eapply Hout.
    + apply wp_ret. simpl. apply wp_bind, wp_ret. simpl. apply Hend. simpl.
      split; [|done]. intros _ _. exact Habs.
  - apply wp_bind, wp_ret. simpl. apply wp_bind.
    apply wp_removeSkillDirs_nofault; [done|]. intros [w1 l1] _ Habs. simpl in *.
    apply wp_bind, wp_ret. simpl. apply wp_bind.
    apply wp_removeCommandFiles_nofault; [done|]. intros s2 Hsub Habs2. simpl.
    apply Hend. split.
    + intros _ _ wf dn Hwf Hdn.
      eapply lookup_weaken_None; [|exact Hsub]. by eapply Habs.
    + intros _. exact Habs2.
Qed.

(** ** Removal when nothing is there *)

Lemma removeSkillDirs_absent E (skillsDir : path) w :
  (∀ wf dn, tableGet WORKFLOW_TO_SKILL_DIR wf = Some dn →
            existsSync (fs w) (skillsDir ++ [dn]) = false) →
  removeSkillDirs E skillsDir w = (Ok 0, w).
Proof.
  intros Habs.
  enough (Hwp : wp (removeSkillDirs E skillsDir) (λ r w', r = Ok 0 ∧ w' = w) w).
  { apply wp_run in Hwp as (r & w' & Hrun & -> & ->). done. }
  unfold removeSkillDirs.
  apply (wp_foldM _ _ _ (λ _ (k : nat) w', k = 0 ∧ w' = w)); [done| |by intros ?? [-> ->]].
  intros done wf rest k w' _ [-> ->].
  destruct (tableGet WORKFLOW_TO_SKILL_DIR wf) as [dn|] eqn:Hdn; [|by apply wp_ret].
  apply wp_tryCatch, wp_bind, wp_gets. simpl.
  rewrite (Habs wf dn Hdn). by apply wp_ret.
Qed.

Lemma removeCommandFiles_absent E (P : path) toolId w :
  (∀ a wf, CommandAdapterRegistry_get E toolId = Some a →
           existsSync (fs w) (resolvePath P (getFilePath a wf)) = false) →
  removeCommandFiles E P toolId w = (Ok 0, w).
Proof.
  intros Habs. unfold removeCommandFiles.
  destruct (CommandAdapterRegistry_get E toolId) as [a|] eqn:Ha; [|done].
  enough (Hwp : wp (foldM (λ removed workflow,
      let cmdPath := getFilePath a workflow in
      let fullPath := resolvePath P cmdPath in
      tryCatch
        (present <- gets (λ w, existsSync (fs w) fullPath) ;;
         if present then unlink E fullPath ;;; ret (S removed)
         else ret removed)
        (λ _, ret removed)) ALL_WORKFLOWS 0) (λ r w', r = Ok 0 ∧ w' = w) w).
  { apply wp_run in Hwp as (r & w' & Hrun & -> & ->). done. }
  apply (wp_foldM _ _ _ (λ _ (k : nat) w', k = 0 ∧ w' = w)); [done| |by intros ?? [-> ->]].
  intros done wf rest k w' _ [-> ->].
  apply wp_tryCatch, wp_bind, wp_gets. simpl.
  rewrite (Habs a wf eq_refl). by apply wp_ret.
Qed.

Lemma removeSkillDirs_total E (skillsDir : path) w :
  ∃ k w', removeSkillDirs E skillsDir w = (Ok k, w')
          ∧ removalOutcome (underSkillDir skillsDir) w w'
          ∧ ((∀ f d, fault E f (OpRm d) = None) →
             ∀ wf dn, wf ∈ ALL_WORKFLOWS →
                      tableGet WORKFLOW_TO_SKILL_DIR wf = Some dn →
                      fs w' !! (skillsDir ++ [dn]) = None).
Proof.
  enough (Hwp : wp (removeSkillDirs E skillsDir)
    (λ r w', ∃ k, r = Ok k ∧ removalOutcome (underSkillDir skillsDir) w w'
       ∧ ((∀ f d, fault E f (OpRm d) = None) →
          ∀ wf dn, wf ∈ ALL_WORKFLOWS →
                   tableGet WORKFLOW_TO_SKILL_DIR wf = Some dn →
                   fs w' !! (skillsDir ++ [dn]) = None)) w).
  { apply wp_run in Hwp as (r & w' & Hrun & k & -> & H). eauto. }
  apply wp_removeSkillDirs. intros k w' H1 H2. eauto.
Qed.

Lemma removeCommandFiles_total E (P : path) toolId w :
  ∃ k w', removeCommandFiles E P toolId w = (Ok k, w')
          ∧ removalOutcome (isCommandPath E P toolId) w w'
          ∧ ((∀ f p, fault E f (OpUnlink p) = None) →
             ∀ a wf, CommandAdapterRegistry_get E toolId = Some a →
                     wf ∈ ALL_WORKFLOWS →
                     fs w' !! resolvePath P (getFilePath a wf) = None).
Proof.
  enough (Hwp : wp (removeCommandFiles E P toolId)
    (λ r w', ∃ k, r = Ok k ∧ removalOutcome (isCommandPath E P toolId) w w'
       ∧ ((∀ f p, fault E f (OpUnlink p) = None) →
          ∀ a wf, CommandAdapterRegistry_get E toolId = Some a →
                  wf ∈ ALL_WORKFLOWS →
                  fs w' !! resolvePath P (getFilePath a wf) = None)) w).
  { apply wp_run in Hwp as (r & w' & Hrun & k & -> & H). eauto. }
  apply wp_removeCommandFiles. intros k w' H1 H2. eauto.
Qed.

Lemma all_workflows_have_dirs wf :
  wf ∈ ALL_WORKFLOWS → is_Some (tableGet WORKFLOW_TO_SKILL_DIR wf).
Proof.
  unfold ALL_WORKFLOWS. rewrite !elem_of_cons, elem_of_nil.
  intros [->|[->|[->|[->|[->|[->|[->|[]]]]]]]]; vm_compute; eauto.
Qed.

(** C8.  [removeSkillDirs] and [removeCommandFiles] never raise.  When no
    removal fails, the skill directory of every one of the seven catalog
    workflows, not only of the desired ones, is absent afterwards under
    the tool's skills root, and so is the command file of every catalog
    workflow.  When the directories, resp. the files, are absent already,
    the call removes nothing, changes nothing and returns 0.  The loop
    calls them for a tool exactly when delivery excludes the kind: after
    an iteration in which nothing fails, no catalog command file of the
    tool is left when commands are excluded, and no catalog skill
    directory is left when skills are excluded (the tool's command files
    lying outside these directories). *)
Theorem C8_full_catalog_removal :
  ∀ (E : Env) (P : path) (skillsDir : path) (toolId : string) (w : World),
    (* removing skill directories never raises; if no [rm] fails, the
       directory of every catalog workflow is gone *)
    (∃ k w', removeSkillDirs E skillsDir w = (Ok k, w')
       ∧ ((∀ f d, fault E f (OpRm d) = None) →
          ∀ wf, wf ∈ ALL_WORKFLOWS →
            ∃ dn, tableGet WORKFLOW_TO_SKILL_DIR wf = Some dn
                  ∧ existsSync (fs w') (skillsDir ++ [dn]) = false))
    (* the same for command files *)
    ∧ (∃ k w', removeCommandFiles E P toolId w = (Ok k, w')
       ∧ ((∀ f p, fault E f (OpUnlink p) = None) →
          ∀ a wf, CommandAdapterRegistry_get E toolId = Some a →
                  wf ∈ ALL_WORKFLOWS →
                  existsSync (fs w') (resolvePath P (getFilePath a wf)) = false))
    (* nothing to remove: nothing happens, whatever the oracle *)
    ∧ ((∀ wf dn, tableGet WORKFLOW_TO_SKILL_DIR wf = Some dn →
                 existsSync (fs w) (skillsDir ++ [dn]) = false) →
       removeSkillDirs E skillsDir w = (Ok 0, w))
    ∧ ((∀ a wf, CommandAdapterRegistry_get E toolId = Some a →
                existsSync (fs w) (resolvePath P (getFilePath a wf)) = false) →
       removeCommandFiles E P toolId w = (Ok 0, w))
    (* one iteration of the loop for a tool, nothing failing: the kinds
       that delivery excludes are gone for the whole catalog *)
    ∧ (noFaults E →
       ∀ gs gc st cc tool d l,
         validTool E toolId tool d →
         ∃ s', Update.updateTool E P gs gc st cc toolId (w, l) = (Ok tt, s')
               ∧ kindsRemoved E P gs gc cc toolId tool d (fs s'.1)).
Proof.
  intros E P skillsDir toolId w. split_and!.
  5:{ intros Hnf gs gc st cc tool d l [Hfind Hdir].
      by apply updateTool_kindsRemoved. }
  - destruct (removeSkillDirs_total E skillsDir w) as (k & w' & Hrun & _ & Habs).
    exists k, w'. split; [done|]. intros Hnf wf Hwf.
    destruct (all_workflows_have_dirs wf Hwf) as [dn Hdn].
    exists dn. split; [done|]. apply existsSync_false. eauto.
  - destruct (removeCommandFiles_total E P toolId w) as (k & w' & Hrun & _ & Habs).
    exists k, w'. split; [done|]. intros Hnf a wf Ha Hwf.
    apply existsSync_false. eauto.
  - apply removeSkillDirs_absent.
  - apply removeCommandFiles_absent.
Qed.

Lemma updateTool_outcome E P gs gc st cc toolId tool d w l :
  validTool E toolId tool d →
  ∃ s', Update.updateTool E P gs gc st cc toolId (w, l) = (Ok tt, s')
        ∧ toolOutcome E P gs gc st cc toolId tool d w l s'.
Proof.
  intros [Hfind Hdir].
  pose proof (wp_updateTool_valid E P gs gc st cc toolId tool d w l Hfind Hdir) as Hwp.
  apply wp_run in Hwp as (r & s' & Hrun & -> & Hout). eauto.
Qed.


Lemma reconcileLoop_run E P gs gc st cc ids w l wl :
  Update.reconcileLoop E P gs gc st cc ids w = (Ok (tt, l), wl) →
  loopOutcome E P gs gc st cc w ids (wl, l).
Proof.
  intros Hrun.
  destruct (reconcileLoop_outcome E P gs gc st cc ids w) as (l' & w' & Hrun' & Hout).
  rewrite Hrun in Hrun'. by injection Hrun' as -> ->.
Qed.


(** C2, amended.  A run of update removes a path only for an artifact kind
    that delivery has disabled: every path present before the run is still
    present after it, unless skills are disabled and the path lies in a
    catalog skill directory of a tool, or commands are disabled and the
    path is a command file of a tool.  In particular the artifacts of
    workflows dropped from the profile stay, for every kind still
    enabled. *)
Theorem C2_reconciliation_keeps_enabled_kinds :
  ∀ (E : Env) (force : bool) (P : path) (newlyConfiguredTools : list string)
    (w : World) (q : path),
    let w' := (Update.executeAfterLegacy E force P newlyConfiguredTools w).2 in
    let c := readConfig (configFile (migrated E P newlyConfiguredTools w)) in
    is_Some (fs w !! q) →
    is_Some (fs w' !! q)
    ∨ ∃ toolId tool d,
        validTool E toolId tool d
        ∧ ((Update.shouldGenerateSkillsOf c = false
            ∧ underSkillDir (P ++ [d; "skills"]) q)
           ∨ (Update.shouldGenerateCommandsOf c = false
              ∧ isCommandPath E P toolId q)).
Proof.
  intros E force P newly w q w' c Hq.
  destruct (executeAfterLegacy_outcome E force P newly w)
    as (r & w1 & Hrun & _ & [(-> & Hshape & _)|(-> & -> & _)]).
  2:{ left. unfold w'. by rewrite Hrun. }
  unfold w' in *. rewrite Hrun in *. simpl in *. clear w'.
  destruct Hshape as [_ _ Hfs1 _ _|_ _ Hfs1 _ _
                     |w0 l wl Hfs0 Htr0 Hcf0 Hcon0 Hloop Hfs1 Htr1 Hcf1 Hcon1 Hline].
  - left. by rewrite Hfs1.
  - left. by rewrite Hfs1.
  - apply reconcileLoop_run in Hloop as (_ & _ & Hkeep & _).
    simpl in Hkeep. rewrite Hfs0 in Hkeep.
    destruct (Hkeep q Hq) as [H|(i & t & d & _ & Hv & Hdel)].
    + left. by rewrite Hfs1.
    + right. exists i, t, d. split; [done|]. exact Hdel.
Qed.

(** ** Selection by version *)

Lemma toolStatusesOf_elem E f P ct s :
  s ∈ Update.toolStatusesOf E f P ct →
  ∃ toolId, toolId ∈ ct ∧ st_toolId s = toolId
            ∧ needsUpdate s
              = needsUpdate (getToolVersionStatus E f P toolId (OPENSPEC_VERSION E))
            ∧ generatedByVersion s
              = generatedByVersion
                  (getToolVersionStatus E f P toolId (OPENSPEC_VERSION E)).
Proof.
  unfold Update.toolStatusesOf. intros H.
  apply list_elem_of_fmap in H as (toolId & -> & Hin).
  exists toolId. split; [done|]. by destruct (_ && _).
Qed.


Lemma elem_of_List_filter {A} (g : A → bool) (l : list A) x :
  x ∈ List.filter g l ↔ g x = true ∧ x ∈ l.
Proof. rewrite !list_elem_of_In, filter_In. tauto. Qed.



(** C6, amended.  With a [--profile] text that is neither [core] nor
    [custom], [init] runs the steps that precede profile resolution
    (validation, legacy cleanup, tool detection, config migration) and then
    raises the invalid-profile error in the world those steps left: it
    never completes, nothing after resolution runs, there is no fallback
    to a valid profile, and the CLI prints the error and exits with
    code 1. *)
Theorem C6_invalid_profile_is_fatal_at_resolution :
  ∀ (E : Env) (c : Init.InitCommand) (P : path) (w : World) (p : string),
    Init.profileOverride c = Some p →
    p ≠ "core" → p ≠ "custom" →
    (* the run is the steps before profile resolution, then the error *)
    Init.execute E c P w
    = match Init.beforeProfile E c P w with
      | (Ok _, w1) => (Throw (invalidProfileMessage p), w1)
      | (Throw e, w1) => (Throw e, w1)
      | (Exit k, w1) => (Exit k, w1)
      end
    (* it never completes: no fallback to a valid profile *)
    ∧ (Init.execute E c P w).1 ≠ Ok tt
    (* when the steps before return, the CLI exits with code 1 and the
       world is the one they left *)
    ∧ (∀ pre w1, Init.beforeProfile E c P w = (Ok pre, w1) →
         Cli.runAction (Init.execute E c P) w
         = (1, addOut (SpinnerFail ("Error: " +:+ invalidProfileMessage p))
                 (addOut (ConsoleLog "") w1))).
Proof.
  intros E c P w p Hp Hcore Hcustom.
  assert (Hexec : Init.execute E c P w
    = match Init.beforeProfile E c P w with
      | (Ok _, w1) => (Throw (invalidProfileMessage p), w1)
      | (Throw e, w1) => (Throw e, w1)
      | (Exit k, w1) => (Exit k, w1)
      end).
  { unfold Init.execute, bind.
    destruct (Init.beforeProfile E c P w) as [[pre|e|k] w1]; try done.
    unfold getGlobalConfig, gets, Init.resolveProfileOverride. rewrite Hp.
    rewrite (bool_decide_false (p = "core")), (bool_decide_false (p = "custom")) by done.
    done. }
  split_and!.
  - exact Hexec.
  - rewrite Hexec. by destruct (Init.beforeProfile E c P w) as [[pre|e|k] w1].
  - intros pre w1 Hpre. unfold Cli.runAction. rewrite Hexec, Hpre. done.
Qed.

Lemma commandWrites_nil E P v : commandWrites E P v [] = [].
Proof. unfold commandWrites. by destruct (CommandAdapterRegistry_get E v). Qed.

Lemma requestedWrites_updateToolWrites E P c tool d :
  requestedWrites E P (Update.shouldGenerateSkillsOf c)
    (Update.shouldGenerateCommandsOf c) (Update.skillTemplatesOf c)
    (Update.commandContentsOf c) tool d
  = updateToolWrites E P c tool d.
Proof.
  unfold requestedWrites, updateToolWrites, Update.skillTemplatesOf,
    Update.commandContentsOf, Update.shouldGenerateSkillsOf,
    Update.shouldGenerateCommandsOf.
  by destruct (negb _), (negb _).
Qed.

Lemma updateTool_nofault E P gs gc st cc toolId tool d w l :
  noFaults E →
  validTool E toolId tool d →
  ∃ s', Update.updateTool E P gs gc st cc toolId (w, l) = (Ok tt, s')
        ∧ writesOf (trace s'.1)
          = writesOf (trace w) ++ requestedWrites E P gs gc st cc tool d
        ∧ Update.updatedTools s'.2 = Update.updatedTools l ++ [name tool]
        ∧ Update.failedTools s'.2 = Update.failedTools l.
Proof.
  intros Hnf Hv.
  destruct (updateTool_outcome E P gs gc st cc toolId tool d w l Hv)
    as (s' & Hrun & _ & _ & evs & Htr & Hcase).
  exists s'. split; [done|].
  destruct Hcase as [(_ & Hu & Hf & HW & _)|(p & c & e & pre & _ & _ & _ & _ & _ & _ & Hflt & _)].
  - rewrite Htr, writesOf_app, HW. done.
  - by rewrite Hnf in Hflt.
Qed.

Lemma wp_writeAll_wrote {L} E w W X (s : World * L)
    (Q : Res unit → World * L → Prop) :
  noFaults E →
  wrote w W s →
  (∀ s', wrote w (W ++ X) s' → Q (Ok tt) s') →
  wp (liftW (writeAll E X)) Q s.
Proof.
  intros Hnf HW HQ. destruct s as [w1 l1]. unfold wrote in *. simpl in *.
  apply wp_liftW, wp_writeAll.
  - intros w2 _ Htr _. apply HQ. simpl.
    by rewrite Htr, writesOf_app, writesOf_doneWrites, HW, (assoc_L app).
  - intros w2 e pre x post _ _ _ _ Hflt. by rewrite Hnf in Hflt.
Qed.

Lemma wp_removeSkillDirs_wrote {L} E w W skillsDir (g : nat → L → L)
    (s : World * L) (Q : Res unit → World * L → Prop) :
  wrote w W s →
  (∀ s', wrote w W s' → Q (Ok tt) s') →
  wp (k <- liftW (removeSkillDirs E skillsDir) ;; setLocals (g k)) Q s.
Proof.
  intros HW HQ. destruct s as [w1 l1]. unfold wrote in *. simpl in *.
  apply wp_bind, wp_liftW, wp_removeSkillDirs.
  intros k w2 (_ & _ & _ & evs & Htr & Hdel) _. simpl.
  apply wp_setLocals, HQ. simpl.
  by rewrite Htr, writesOf_app, (writesOf_deletes evs), app_nil_r.
Qed.

Lemma wp_removeCommandFiles_wrote {L} E P toolId w W (g : nat → L → L)
    (s : World * L) (Q : Res unit → World * L → Prop) :
  wrote w W s →
  (∀ s', wrote w W s' → Q (Ok tt) s') →
  wp (k <- liftW (removeCommandFiles E P toolId) ;; setLocals (g k)) Q s.
Proof.
  intros HW HQ. destruct s as [w1 l1]. unfold wrote in *. simpl in *.
  apply wp_bind, wp_liftW, wp_removeCommandFiles.
  intros k w2 (_ & _ & _ & evs & Htr & Hdel) _. simpl.
  apply wp_setLocals, HQ. simpl.
  by rewrite Htr, writesOf_app, (writesOf_deletes evs), app_nil_r.
Qed.

Lemma wp_setupTool E P gs gc st cc (t : Init.ValidatedTool) w W (s : World * Init.Results) :
  noFaults E →
  wrote w W s →
  let tgs := if bool_decide (Init.v_value t = "claude") then false else gs in
  let tgc := if bool_decide (Init.v_value t = "claude") then true else gc in
  wp (Init.setupTool E P gs gc st cc t)
     (λ r s', r = Ok tt
        ∧ wrote w (W ++ (if tgs then
                           skillWrites E (P ++ [Init.v_skillsDir t; "skills"])
                             (Init.v_value t) st
                         else [])
                     ++ (if tgc then commandWrites E P (Init.v_value t) cc else []))
            s') s.
Proof.
  intros Hnf HW tgs tgc. unfold Init.setupTool. fold tgs tgc.
  destruct s as [w1 r1].
  apply wp_bind, wp_emitW. simpl.
  assert (HW1 : wrote w W (addOut (SpinnerStart ("Setting up " +:+ Init.v_name t +:+ "...")) w1, r1)) by done.
  apply wp_tryCatch.
  set (Wfin := W ++ (if tgs then skillWrites E (P ++ [Init.v_skillsDir t; "skills"])
                                  (Init.v_value t) st else [])
                 ++ (if tgc then commandWrites E P (Init.v_value t) cc else [])).
  apply (wp_mono _ (λ r s', r = Ok tt ∧ wrote w Wfin s')).
  2:{ by intros [[]|e|k] s' [H1 H2]. }
  assert (Hend : ∀ s', wrote w Wfin s' →
    wp (liftW (emit (SpinnerSucceed ("Setup complete for " +:+ Init.v_name t))) ;;;
        (if Init.wasConfigured t then setLocals (Init.pushRefreshed t)
         else setLocals (Init.pushCreated t)))
       (λ r s', r = Ok tt ∧ wrote w Wfin s') s').
  { intros [w2 r2] H. apply wp_bind, wp_emitW. simpl.
    destruct (Init.wasConfigured t); by apply wp_setLocals. }
  unfold Wfin in *. clear Wfin.
  destruct tgs, tgc; simpl.
  - apply wp_bind. rewrite writeSkills_writeAll. simpl.
    eapply wp_writeAll_wrote; [done|exact HW1|]. intros s1 H1. simpl.
    apply wp_bind, wp_ret. simpl. apply wp_bind.
    destruct (CommandAdapterRegistry_get E (Init.v_value t)) as [a|] eqn:Ha.
    + rewrite writeCommands_writeAll.
      replace (map (λ c, (resolvePath P c.1, c.2)) (generateCommands cc a))
        with (commandWrites E P (Init.v_value t) cc)
        by (unfold commandWrites; by rewrite Ha).
      eapply wp_writeAll_wrote; [done|exact H1|]. intros s2 H2. simpl.
      apply wp_bind, wp_ret. simpl. apply Hend. by rewrite (assoc_L app).
    + destruct s1 as [w2 r2]. apply wp_setLocals. simpl.
      apply wp_bind, wp_ret. simpl. apply Hend.
      unfold commandWrites. rewrite Ha, app_nil_r. exact H1.
  - apply wp_bind. rewrite writeSkills_writeAll. simpl.
    eapply wp_writeAll_wrote; [done|exact HW1|]. intros s1 H1. simpl.
    apply wp_bind, wp_ret. simpl. apply wp_bind, wp_ret. simpl. apply wp_bind.
    eapply wp_removeCommandFiles_wrote; [exact H1|]. intros s2 H2. simpl.
    apply Hend. by rewrite !app_nil_r.
  - apply wp_bind, wp_ret. simpl. apply wp_bind.
    eapply wp_removeSkillDirs_wrote; [exact HW1|]. intros s1 H1. simpl.
    apply wp_bind.
    destruct (CommandAdapterRegistry_get E (Init.v_value t)) as [a|] eqn:Ha.
    + rewrite writeCommands_writeAll.
      replace (map (λ c, (resolvePath P c.1, c.2)) (generateCommands cc a))
        with (commandWrites E P (Init.v_value t) cc)
        by (unfold commandWrites; by rewrite Ha).
      eapply wp_writeAll_wrote; [done|exact H1|]. intros s2 H2. simpl.
      apply wp_bind, wp_ret. simpl. by apply Hend.
    + destruct s1 as [w2 r2]. apply wp_setLocals. simpl.
      apply wp_bind, wp_ret. simpl. apply Hend.
      unfold commandWrites. rewrite Ha, app_nil_r. exact H1.
  - apply wp_bind, wp_ret. simpl. apply wp_bind.
    eapply wp_removeSkillDirs_wrote; [exact HW1|]. intros s1 H1. simpl.
    apply wp_bind, wp_ret. simpl. apply wp_bind.
    eapply wp_removeCommandFiles_wrote; [exact H1|]. intros s2 H2. simpl.
    apply Hend. by rewrite !app_nil_r.
Qed.

Lemma resolveProfileOverride_valid {S} (c : Init.InitCommand) (s : S) :
  validOverride c →
  Init.resolveProfileOverride c s = (Ok (Init.profileOverride c), s).
Proof.
  unfold validOverride, Init.resolveProfileOverride.
  destruct (Init.profileOverride c) as [p|]; [|done].
  intros [->| ->]; done.
Qed.

Lemma generateSkillsAndCommands_nofault E c P tools w :
  noFaults E →
  validOverride c →
  ∃ r w',
    Init.generateSkillsAndCommands E c P tools w = (Ok r, w')
    ∧ writesOf (trace w')
      = writesOf (trace w)
        ++ concat (map (initToolWrites E P (initDelivery w) (initWorkflows c w)) tools).
Proof.
  intros Hnf Hvalid.
  enough (Hwp : wp (Init.generateSkillsAndCommands E c P tools)
    (λ r w', ∃ a, r = Ok a ∧ writesOf (trace w')
      = writesOf (trace w)
        ++ concat (map (initToolWrites E P (initDelivery w) (initWorkflows c w)) tools)) w).
  { apply wp_run in Hwp as (r & w' & Hrun & a & -> & H). eauto. }
  unfold Init.generateSkillsAndCommands.
  apply wp_bind, wp_gets. simpl.
  apply wp_bind. eapply wp_of_run; [by apply resolveProfileOverride_valid|]. simpl.
  fold (initDelivery w). fold (initWorkflows c w).
  set (dl := initDelivery w). set (wfs := initWorkflows c w).
  apply wp_bind, wp_withLocals.
  apply (wp_forEach _ _ (λ done s,
    wrote w (concat (map (initToolWrites E P dl wfs) done)) s)).
  - unfold wrote. simpl. by rewrite app_nil_r.
  - intros done t rest s _ Hinv.
    eapply wp_mono; [by apply wp_setupTool|].
    intros r s' [-> H]. rewrite map_app, concat_app. simpl. rewrite app_nil_r.
    unfold wrote in *. rewrite H. f_equal. f_equal.
    unfold initToolWrites.
    destruct (bool_decide (Init.v_value t = "claude")),
      (bool_decide (dl = "commands")), (bool_decide (dl = "skills")); simpl;
      rewrite ?commandWrites_nil; done.
  - intros [w1 r1] Hinv. simpl. apply wp_ret. eauto.
Qed.

(** C3, amended.  When no file operation fails, what an iteration writes
    for a tool is decided by delivery and by the command adapter registry.
    [update] writes the skill files of the desired workflows iff delivery
    is not [commands]; it writes their command files iff delivery is not
    [skills] and an adapter is registered for the tool, so a tool without
    adapter gets no command file under any delivery.  [init] does the same
    for every tool but [claude], for which it writes no skill file under
    any delivery. *)
Theorem C3_delivery_and_adapter_decide_kinds :
  ∀ (E : Env) (P : path),
    noFaults E →
    (* update *)
    (∀ (c : GlobalConfig) toolId tool d (w : World) l,
       validTool E toolId tool d →
       let delivery := default "both" (delivery c) in
       let desired := Update.desiredWorkflowsOf c in
       let skillFiles :=
         skillWrites E (P ++ [d; "skills"]) (value tool)
           (getSkillTemplates (Some desired)) in
       let commandFiles adapter :=
         map (λ g, (resolvePath P g.1, g.2))
           (generateCommands (getCommandContents (Some desired)) adapter) in
       ∃ s',
         Update.updateTool E P
           (Update.shouldGenerateSkillsOf c) (Update.shouldGenerateCommandsOf c)
           (Update.skillTemplatesOf c) (Update.commandContentsOf c)
           toolId (w, l) = (Ok tt, s')
         ∧ writesOf (trace s'.1)
           = writesOf (trace w)
             ++ (if bool_decide (delivery = "commands") then [] else skillFiles)
             ++ match CommandAdapterRegistry_get E (value tool) with
                | Some adapter =>
                  if bool_decide (delivery = "skills") then []
                  else commandFiles adapter
                | None => []
                end)
    (* init: the same, except that no skill file is written for [claude] *)
    ∧ (∀ (c : Init.InitCommand) tools (w : World),
         validOverride c →
         let delivery := initDelivery w in
         let workflows := initWorkflows c w in
         let skillFiles (t : Init.ValidatedTool) :=
           skillWrites E (P ++ [Init.v_skillsDir t; "skills"]) (Init.v_value t)
             (getSkillTemplates (Some workflows)) in
         let commandFiles adapter :=
           map (λ g, (resolvePath P g.1, g.2))
             (generateCommands (getCommandContents (Some workflows)) adapter) in
         ∃ r w',
           Init.generateSkillsAndCommands E c P tools w = (Ok r, w')
           ∧ writesOf (trace w')
             = writesOf (trace w)
               ++ concat (map (λ t,
                    (if bool_decide (delivery = "commands")
                        || bool_decide (Init.v_value t = "claude")
                     then [] else skillFiles t)
                    ++ match CommandAdapterRegistry_get E (Init.v_value t) with
                       | Some adapter =>
                         if bool_decide (delivery = "skills") then []
                         else commandFiles adapter
                       | None => []
                       end) tools)).
Proof.
  intros E P Hnf. split.
  - intros c toolId tool d w l Hv delivery desired skillFiles commandFiles.
    destruct (updateTool_nofault E P
      (Update.shouldGenerateSkillsOf c) (Update.shouldGenerateCommandsOf c)
      (Update.skillTemplatesOf c) (Update.commandContentsOf c)
      toolId tool d w l Hnf Hv) as (s' & Hrun & HW & _).
    exists s'. split; [done|].
    rewrite HW, requestedWrites_updateToolWrites. f_equal.
    unfold updateToolWrites, commandWrites. cbv zeta.
    fold delivery desired skillFiles.
    destruct (bool_decide (delivery = "commands")),
      (bool_decide (delivery = "skills")),
      (CommandAdapterRegistry_get E (value tool)); done.
  - intros c tools w Hvalid delivery workflows skillFiles commandFiles.
    destruct (generateSkillsAndCommands_nofault E c P tools w Hnf Hvalid)
      as (r & w' & Hrun & HW).
    exists r, w'. split; [done|]. rewrite HW. f_equal. f_equal.
    apply map_ext. intros t.
    unfold initToolWrites, commandWrites. fold delivery workflows.
    destruct (bool_decide (delivery = "commands")),
      (bool_decide (Init.v_value t = "claude")),
      (bool_decide (delivery = "skills")),
      (CommandAdapterRegistry_get E (Init.v_value t)); done.
Qed.

(** ** The claims on concrete projects *)

Section Concrete.

Import Sample Scenario.

(** C1 (failing input).  A first run reconciles [claude] without any
    failure.  The probe still reads version 0.1.0, from a skill that is
    outside the profile and so is never rewritten, while the drift check is
    negative.  A second non-forced run with the same config and version
    therefore selects [claude] again, prints the same plan and summary,
    and writes the same two files again. *)
Theorem C1_stale_extra_skill_rewritten_every_run :
  let r1 := Update.execute E false project staleExtra in
  let r2 := Update.execute E false project r1.2 in
  r1.1 = Ok tt
  ∧ failuresOf (trace r1.2) = []
  ∧ configFile r1.2 = configFile staleExtra
  ∧ console r1.2
    = [ ConsoleLog "Updating 1 tool(s): claude (0.1.0 → 1.0.0)";
        ConsoleLog "";
        SpinnerStart "Updating Claude Code...";
        SpinnerSucceed "Updated Claude Code";
        ConsoleLog "";
        ConsoleLog "✓ Updated: Claude Code (v1.0.0)";
        ConsoleLog "Note: 2 extra workflows not in profile (use `openspec config profile` to manage)";
        ConsoleLog "Tools: Claude Code";
        ConsoleLog "";
        ConsoleLog "Restart your IDE for changes to take effect." ]
  ∧ fs r1.2 !! skillFile ".claude" "openspec-apply-change"
    = Some (File (SkillContent "apply" "1.0.0" false))
  ∧ generatedByVersion (getToolVersionStatus E (fs r1.2) project "claude" "1.0.0")
    = Some "0.1.0"
  ∧ Update.hasProfileOrDeliveryDrift E (fs r1.2) project "claude" ["apply"] true true
    = false
  ∧ r2.1 = Ok tt
  ∧ drop (length (console r1.2)) (console r2.2) = console r1.2
  ∧ drop (length (trace r1.2)) (trace r2.2)
    = [ Done (OpWriteFile (skillFile ".claude" "openspec-apply-change")
                (SkillContent "apply" "1.0.0" false));
        Done (OpWriteFile (commandFile ".claude" "apply")
                (CommandContent "claude" "apply")) ].
Proof. vm_compute. repeat split; reflexivity. Qed.

(** C2 (counterexample): the profile is narrowed from [explore, new,
    apply] to [explore]; the non-forced run does nothing and the skill and
    command files of [new] and [apply] are still there. *)
Lemma C2_narrowing_leaves_other_workflows :
  let r := Update.execute E false project narrowed in
  Update.desiredWorkflowsOf (readConfig (configFile narrowed)) = ["explore"]
  ∧ r.1 = Ok tt
  ∧ trace r.2 = []
  ∧ existsSync (fs r.2) (skillFile ".claude" "openspec-new-change") = true
  ∧ existsSync (fs r.2) (skillFile ".claude" "openspec-apply-change") = true
  ∧ existsSync (fs r.2) (commandFile ".claude" "new") = true
  ∧ existsSync (fs r.2) (commandFile ".claude" "apply") = true.
Proof. vm_compute. repeat split; reflexivity. Qed.

(** C2: the theorem at the narrowed project, for a skill file of [new]. *)
Lemma C2_witness :
  is_Some (fs narrowed !! skillFile ".claude" "openspec-new-change")
  ∧ (is_Some (fs (Update.executeAfterLegacy E false project [] narrowed).2
              !! skillFile ".claude" "openspec-new-change")
     ∨ ∃ toolId tool d,
         validTool E toolId tool d
         ∧ ((Update.shouldGenerateSkillsOf
               (readConfig (configFile (migrated E project [] narrowed))) = false
             ∧ underSkillDir (project ++ [d; "skills"])
                 (skillFile ".claude" "openspec-new-change"))
            ∨ (Update.shouldGenerateCommandsOf
                 (readConfig (configFile (migrated E project [] narrowed))) = false
               ∧ isCommandPath E project toolId
                   (skillFile ".claude" "openspec-new-change")))).
Proof.
  assert (H : is_Some (fs narrowed !! skillFile ".claude" "openspec-new-change")).
  { apply existsSync_true. vm_compute. reflexivity. }
  split; [exact H|].
  exact (C2_reconciliation_keeps_enabled_kinds E false project [] narrowed _ H).
Defined.

(** C3 (counterexample): with the default delivery [both], [init] writes
    the four core command files for [claude] and no skill file. *)
Lemma C3_init_writes_no_skill_for_claude :
  let r := Init.generateSkillsAndCommands E initClaude project [claude] fresh in
  initDelivery fresh = "both"
  ∧ match r.1 with
    | Ok results => Init.createdTools results = [claude]
    | _ => False
    end
  ∧ writesOf (trace r.2)
    = map (λ c, (commandFile ".claude" c, CommandContent "claude" c))
        ["explore"; "apply"; "archive"; "propose"].
Proof. vm_compute. repeat split; reflexivity. Qed.

(** C3: the theorem for [update] at a tool without command adapter, which
    gets its skill file and no command file under delivery [both], and for
    [init] at a fresh project initialised for [claude]. *)
Lemma C3_witness :
  noFaults plainEnv
  ∧ validTool plainEnv "plain" plain ".plain"
  ∧ (∃ s',
       Update.updateTool plainEnv project true true
         (getSkillTemplates (Some ["explore"])) (getCommandContents (Some ["explore"]))
         "plain" (twoTools, Update.mkLocals [] [] 0 0) = (Ok tt, s')
       ∧ writesOf (trace s'.1)
         = [ (skillFile ".plain" "openspec-explore",
              SkillContent "explore" "1.0.0" false) ])
  ∧ noFaults E ∧ validOverride initClaude
  ∧ ∃ r w',
      Init.generateSkillsAndCommands E initClaude project [claude] fresh = (Ok r, w')
      ∧ writesOf (trace w')
        = map (λ c, (commandFile ".claude" c, CommandContent "claude" c))
            ["explore"; "apply"; "archive"; "propose"].
Proof.
  assert (Hnp : noFaults plainEnv) by (intros f op; reflexivity).
  assert (Hvp : validTool plainEnv "plain" plain ".plain") by (split; reflexivity).
  assert (Hnf : noFaults E) by (intros f op; reflexivity).
  assert (Hvalid : validOverride initClaude) by (vm_compute; exact I).
  split; [exact Hnp|]. split; [exact Hvp|]. split.
  - exact (proj1 (C3_delivery_and_adapter_decide_kinds plainEnv project Hnp)
             (readConfig (configFile twoTools)) "plain" plain ".plain"
             twoTools (Update.mkLocals [] [] 0 0) Hvp).
  - split; [exact Hnf|]. split; [exact Hvalid|].
    exact (proj2 (C3_delivery_and_adapter_decide_kinds E project Hnf)
             initClaude [claude] fresh Hvalid).
Defined.

(** C4 (failing input).  The global config file holds the JSON text
    [null] and the [explore] skill of [claude] is installed.  The raw
    config has no [profile] key and the scan finds a workflow, so the
    migration is due; on the same project without a config file it saves
    [profile = custom] with [explore].  With [null] the read of
    [rawConfig.profile], which comes after the [try] block, raises a
    [TypeError]: [migrateIfNeeded] throws and saves nothing, and
    [openspec update] prints the error and exits with code 1 without a
    file operation, leaving the config file as it was, so that the next
    run fails in the same way. *)
Theorem C4_null_config_aborts_migration :
  let r0 := Migration.migrateIfNeeded project tools unmigrated in
  let r := Migration.migrateIfNeeded project tools nullConfig in
  let u := Cli.update E false project nullConfig in
  Migration.scanInstalledWorkflows (fs unmigrated) project tools = ["explore"]
  ∧ r0.1 = Ok tt
  ∧ readConfig (configFile r0.2)
    = mkGlobalConfig (Some "custom") (Some ["explore"]) (Some "both") []
  ∧ configFile nullConfig = ConfigNull
  ∧ Migration.scanInstalledWorkflows (fs nullConfig) project tools = ["explore"]
  ∧ r.1 = Throw "Cannot read properties of null (reading 'profile')"
  ∧ configFile r.2 = ConfigNull
  ∧ console r.2 = []
  ∧ u.1 = 1
  ∧ configFile u.2 = ConfigNull
  ∧ trace u.2 = []
  ∧ console u.2
    = [ ConsoleLog "";
        SpinnerFail "Error: Cannot read properties of null (reading 'profile')" ]
  ∧ (Cli.update E false project u.2).1 = 1.
Proof. vm_compute. repeat split; reflexivity. Qed.

(** X23: the migration fires on the unmigrated project, and a second call
    on the world it leaves changes nothing. *)
Lemma X23_witness :
  migrationFires project tools unmigrated = true
  ∧ Migration.migrateIfNeeded project tools
      (Migration.migrateIfNeeded project tools unmigrated).2
    = (Ok tt, (Migration.migrateIfNeeded project tools unmigrated).2).
Proof.
  assert (Hfires : migrationFires project tools unmigrated = true)
    by (vm_compute; reflexivity).
  split; [exact Hfires|].
  destruct (proj2 (X23_migrateIfNeeded_fires_once project tools unmigrated))
    as [Hnull|(w' & Hrun & _ & _ & Honce)]; [discriminate Hnull|].
  rewrite Hrun. simpl. apply Honce; [exact Hfires|reflexivity].
Defined.

(** C6 (counterexample): [init --profile bogus] on an initialised project
    without a global config file fails with the validation error only
    after the migration has written [profile = custom] to the config. *)
Lemma C6_migration_precedes_profile_validation :
  let r := Init.execute E initBogus project unmigrated in
  configFile unmigrated = ConfigAbsent
  ∧ r.1 = Throw (invalidProfileMessage "bogus")
  ∧ readConfig (configFile r.2)
    = mkGlobalConfig (Some "custom") (Some ["explore"]) (Some "both") []
  ∧ (Cli.init E initBogus project unmigrated).1 = 1.
Proof. vm_compute. repeat split; reflexivity. Qed.

(** C6: the theorem for [--profile bogus]. *)
Lemma C6_witness :
  Init.profileOverride initBogus = Some "bogus"
  ∧ (Init.execute E initBogus project unmigrated).1 ≠ Ok tt.
Proof.
  split; [reflexivity|].
  apply (C6_invalid_profile_is_fatal_at_resolution E initBogus project
           unmigrated "bogus"); [reflexivity|vm_compute; congruence|vm_compute; congruence].
Defined.


(** C8: with no failing removal, no catalog skill directory is left by
    [removeSkillDirs], and an iteration for [claude] under delivery
    [skills] leaves no command file of [explore]. *)
Lemma C8_witness :
  noFaults E
  ∧ validTool E "claude" (mkTool "claude" "Claude Code" (Some ".claude")) ".claude"
  ∧ (∃ k w',
       removeSkillDirs E (project ++ [".claude"; "skills"]) commandsOnly = (Ok k, w')
       ∧ ∀ wf, wf ∈ ALL_WORKFLOWS →
           ∃ dn, tableGet WORKFLOW_TO_SKILL_DIR wf = Some dn
                 ∧ existsSync (fs w') ((project ++ [".claude"; "skills"]) ++ [dn])
                   = false)
  ∧ (∃ s',
       Update.updateTool E project true false
         (getSkillTemplates (Some ["explore"])) [] "claude"
         (skillsOnly, Update.mkLocals [] [] 0 0) = (Ok tt, s')
       ∧ fs s'.1 !! commandFile ".claude" "explore" = None).
Proof.
  assert (Hnf : noFaults E) by (intros f op; reflexivity).
  assert (Hv : validTool E "claude"
                 (mkTool "claude" "Claude Code" (Some ".claude")) ".claude")
    by (split; reflexivity).
  split; [exact Hnf|]. split; [exact Hv|]. split.
  - destruct (proj1 (C8_full_catalog_removal E project
                       (project ++ [".claude"; "skills"]) "claude" commandsOnly))
      as (k & w' & Hrun & Hgone).
    exists k, w'. split; [exact Hrun|].
    apply Hgone. intros f d. reflexivity.
  - destruct (proj2 (proj2 (proj2 (proj2
                (C8_full_catalog_removal E project
                   (project ++ [".claude"; "skills"]) "claude" skillsOnly))))
                Hnf true false (getSkillTemplates (Some ["explore"])) []
                (mkTool "claude" "Claude Code" (Some ".claude")) ".claude"
                (Update.mkLocals [] [] 0 0) Hv)
      as (s' & Hrun & _ & Hgone).
    exists s'. split; [exact Hrun|].
    apply (Hgone eq_refl claudeAdapter "explore"); [reflexivity|].
    unfold ALL_WORKFLOWS. right. left.
Defined.





End Concrete.

(** ** Template selection *)

Lemma List_filter_ext_in {A} (g h : A → bool) (l : list A) :
  (∀ x, x ∈ l → g x = h x) → List.filter g l = List.filter h l.
Proof.
  induction l as [|a l IH]; intros H; simpl; [done|].
  rewrite (H a) by left. rewrite IH; [done|]. intros x Hx. apply H. by right.
Qed.

Lemma List_filter_map {A B} (g : B → bool) (f : A → B) (l : list A) :
  List.filter g (map f l) = map f (List.filter (λ x, g (f x)) l).
Proof.
  induction l as [|a l IH]; simpl; [done|].
  destruct (g (f a)); simpl; by rewrite IH.
Qed.

Lemma List_filter_NoDup {A} (g : A → bool) (l : list A) :
  NoDup l → NoDup (List.filter g l).
Proof.
  induction 1 as [|a l Ha Hl IH]; simpl; [constructor|].
  destruct (g a); [|done]. constructor; [|done].
  rewrite elem_of_List_filter. tauto.
Qed.

Lemma List_filter_map_NoDup {A B} (g : B → bool) (f : A → B) (l : list A) :
  NoDup (map f l) → NoDup (map f (List.filter (λ x, g (f x)) l)).
Proof. intros H. rewrite <- List_filter_map. by apply List_filter_NoDup. Qed.

Lemma List_filter_sublist {A} (g : A → bool) (l : list A) :
  List.filter g l `sublist_of` l.
Proof.
  induction l as [|a l IH]; simpl; [constructor|].
  destruct (g a); by constructor.
Qed.

Lemma catalog_ids : map workflowId allSkillTemplates = allCommandTemplates.
Proof. reflexivity. Qed.

Lemma catalog_ids_NoDup : NoDup allCommandTemplates.
Proof. apply (bool_decide_unpack (NoDup allCommandTemplates)). vm_compute. exact I. Qed.

(** X1.  Skills and commands are selected alike: for every filter, and
    without one, the ids of the command contents are the workflow ids of
    the skill templates, in the same order. *)
Theorem X1_skills_and_commands_cover_the_same_workflows :
  ∀ workflowFilter : option (list string),
    map workflowId (getSkillTemplates workflowFilter)
    = getCommandContents workflowFilter.
Proof.
  intros [ws|]; [|reflexivity].
  unfold getCommandContents, getCommandTemplates, getSkillTemplates.
  by rewrite <- catalog_ids, List_filter_map.
Qed.

(** X2.  A workflow filter is used as a set.  Two filters with the same
    members select the same skill templates and the same command contents,
    whatever the order and the repetitions in them.  A template is selected
    exactly when it is in the catalog and its workflow id is in the filter,
    so an id outside the catalog selects nothing; the selection keeps the
    order of the catalog and has no workflow twice. *)
Theorem X2_workflow_filter_is_a_set :
  ∀ ws ws' : list string,
    (∀ x, x ∈ ws ↔ x ∈ ws') →
    getSkillTemplates (Some ws) = getSkillTemplates (Some ws')
    ∧ getCommandContents (Some ws) = getCommandContents (Some ws')
    ∧ (∀ e, e ∈ getSkillTemplates (Some ws)
            ↔ e ∈ allSkillTemplates ∧ workflowId e ∈ ws)
    ∧ (∀ i, i ∈ getCommandContents (Some ws)
            ↔ i ∈ allCommandTemplates ∧ i ∈ ws)
    ∧ getSkillTemplates (Some ws) `sublist_of` allSkillTemplates
    ∧ NoDup (map workflowId (getSkillTemplates (Some ws))).
Proof.
  intros ws ws' Hsame. split_and!.
  - unfold getSkillTemplates. apply List_filter_ext_in. intros e _.
    apply bool_decide_ext, Hsame.
  - unfold getCommandContents, getCommandTemplates. apply List_filter_ext_in.
    intros e _. apply bool_decide_ext, Hsame.
  - intros e. unfold getSkillTemplates.
    rewrite elem_of_List_filter, bool_decide_eq_true. tauto.
  - intros i. unfold getCommandContents, getCommandTemplates.
    rewrite elem_of_List_filter, bool_decide_eq_true. tauto.
  - apply List_filter_sublist.
  - unfold getSkillTemplates.
    pose (g := λ i : string, bool_decide (i ∈ ws)).
    apply (List_filter_map_NoDup g workflowId). rewrite catalog_ids. apply catalog_ids_NoDup.
Qed.

Lemma X2_witness :
  (∀ x, x ∈ ["apply"; "bogus"; "explore"; "apply"] ↔ x ∈ ["explore"; "apply"; "bogus"])
  ∧ getSkillTemplates (Some ["apply"; "bogus"; "explore"; "apply"])
    = getSkillTemplates (Some ["explore"; "apply"; "bogus"]).
Proof.
  assert (H : ∀ x, x ∈ ["apply"; "bogus"; "explore"; "apply"]
                   ↔ x ∈ ["explore"; "apply"; "bogus"]).
  { intros x. rewrite !elem_of_cons, !elem_of_nil. tauto. }
  split; [exact H|].
  exact (proj1 (X2_workflow_filter_is_a_set _ _ H)).
Defined.

(** ** The scan of installed workflows *)

Lemma scan_inner_NoDup (f : FS) (sd : path) (table : list (string * string)) acc :
  NoDup acc →
  NoDup (foldl (λ installed '(workflowId, skillDirName),
           if existsSync f (sd ++ [skillDirName; "SKILL.md"])
           then setAdd workflowId installed else installed) acc table).
Proof.
  revert acc. induction table as [|[k v] t IH]; intros acc Hacc; simpl; [done|].
  apply IH. destruct (existsSync _ _); [by apply setAdd_NoDup|done].
Qed.

Lemma scan_outer_NoDup (f : FS) (P : path) (table : list (string * string))
    tools acc :
  NoDup acc →
  NoDup (foldl (λ installed tool,
      match truthyDir tool with
      | None => installed
      | Some d =>
        let skillsDir := P ++ [d; "skills"] in
        foldl (λ installed '(workflowId, skillDirName),
          let skillFile := skillsDir ++ [skillDirName; "SKILL.md"] in
          if existsSync f skillFile then setAdd workflowId installed
          else installed) installed table
      end) acc tools).
Proof.
  revert acc. induction tools as [|t tools IH]; intros acc Hacc; simpl; [done|].
  apply IH. destruct (truthyDir t); [|done]. by apply scan_inner_NoDup.
Qed.

Lemma scanInstalledWorkflows_NoDup (f : FS) (P : path) tools :
  NoDup (Migration.scanInstalledWorkflows f P tools).
Proof. apply scan_outer_NoDup. constructor. Qed.

Lemma migration_table_keys x dn :
  (x, dn) ∈ Migration.WORKFLOW_TO_SKILL_DIR → x ∈ ALL_WORKFLOWS.
Proof.
  unfold Migration.WORKFLOW_TO_SKILL_DIR, ALL_WORKFLOWS.
  rewrite !elem_of_cons, !elem_of_nil.
  intros [[= -> ->]|[[= -> ->]|[[= -> ->]|[[= -> ->]|[[= -> ->]|[[= -> ->]|[[= -> ->]|[]]]]]]]];
    tauto.
Qed.

Lemma scanInstalledWorkflows_catalog (f : FS) (P : path) tools x :
  x ∈ Migration.scanInstalledWorkflows f P tools → x ∈ ALL_WORKFLOWS.
Proof.
  rewrite scanInstalledWorkflows_elem. intros (t & d & dn & _ & _ & Hin & _).
  by eapply migration_table_keys.
Qed.

Lemma omap_findTool_elem E (ids : list string) (t : AIToolOption) :
  t ∈ omap (findTool E) ids ↔ ∃ i, i ∈ ids ∧ findTool E i = Some t.
Proof. apply list_elem_of_omap. Qed.

(** X3.  The scan reports each installed workflow once, however many tools
    have it, and only workflows of the catalog: at most seven.  The wrapper
    of [update.ts] that takes tool ids reports a workflow exactly when the
    [SKILL.md] of its directory exists under the skills directory of a
    registered tool named by one of the ids; an id that names no tool, or
    a tool without skills directory, contributes nothing. *)
Theorem X3_scanInstalledWorkflows_is_a_set_of_catalog_workflows :
  ∀ (E : Env) (f : FS) (projectPath : path) (tools : list AIToolOption)
    (toolIds : list string),
    NoDup (Migration.scanInstalledWorkflows f projectPath tools)
    ∧ (∀ x, x ∈ Migration.scanInstalledWorkflows f projectPath tools →
            x ∈ ALL_WORKFLOWS)
    ∧ (length (Migration.scanInstalledWorkflows f projectPath tools) ≤ 7)%nat
    ∧ (∀ x, x ∈ Update.scanInstalledWorkflows E f projectPath toolIds
          ↔ ∃ i t d dn, i ∈ toolIds ∧ findTool E i = Some t
              ∧ truthyDir t = Some d
              ∧ (x, dn) ∈ Migration.WORKFLOW_TO_SKILL_DIR
              ∧ existsSync f (projectPath ++ [d; "skills"; dn; "SKILL.md"]) = true).
Proof.
  intros E f P tools ids. split_and!.
  - apply scanInstalledWorkflows_NoDup.
  - intros x. apply scanInstalledWorkflows_catalog.
  - change 7 with (length ALL_WORKFLOWS).
    apply submseteq_length, NoDup_submseteq.
    + apply scanInstalledWorkflows_NoDup.
    + intros x. apply scanInstalledWorkflows_catalog.
  - intros x. unfold Update.scanInstalledWorkflows.
    rewrite scanInstalledWorkflows_elem. split.
    + intros (t & d & dn & Ht & Hd & Hin & Hex).
      apply omap_findTool_elem in Ht as (i & Hi & Hf). eauto 10.
    + intros (i & t & d & dn & Hi & Hf & Hd & Hin & Hex).
      exists t, d, dn. split_and!; try done.
      apply omap_findTool_elem. eauto.
Qed.

(** ** The migration and the next update *)

Lemma toJson_delivery c : toJson c !! "delivery" = JString <$> delivery c.
Proof.
  unfold toJson, optInsert.
  destruct (profile c), (workflows c), (delivery c); simpl;
    repeat (rewrite lookup_insert_ne by done || rewrite lookup_insert_eq);
    try done.
Qed.

Lemma toJson_featureFlags c :
  toJson c !! "featureFlags" = Some (JFlags (featureFlags c)).
Proof.
  unfold toJson, optInsert.
  destruct (profile c), (workflows c), (delivery c); simpl;
    repeat (rewrite lookup_insert_ne by done || rewrite lookup_insert_eq);
    try done.
Qed.

Lemma List_filter_all {A} (g : A → bool) (l : list A) :
  (∀ x, x ∈ l → g x = true) → List.filter g l = l.
Proof.
  induction l as [|a l IH]; intros H; simpl; [done|].
  rewrite (H a) by left. f_equal. apply IH. intros x Hx. apply H. by right.
Qed.

(** X4.  When the migration fires, the config it saves makes the next
    update want exactly the workflows that are installed: the profile read
    back is [custom], the desired workflows are the scanned ones (none is
    filtered out as unknown), and delivery and the feature flags are those
    that were in effect before.  Two lines tell the user. *)
Theorem X4_migration_keeps_what_is_installed :
  ∀ (projectPath : path) (tools : list AIToolOption) (w : World),
    migrationFires projectPath tools w = true →
    let w' := (Migration.migrateIfNeeded projectPath tools w).2 in
    let c := readConfig (configFile w) in
    let c' := readConfig (configFile w') in
    let installed := Migration.scanInstalledWorkflows (fs w) projectPath tools in
    profile c' = Some "custom"
    ∧ workflows c' = Some installed
    ∧ Update.desiredWorkflowsOf c' = installed
    ∧ default "both" (delivery c') = default "both" (delivery c)
    ∧ Update.shouldGenerateSkillsOf c' = Update.shouldGenerateSkillsOf c
    ∧ Update.shouldGenerateCommandsOf c' = Update.shouldGenerateCommandsOf c
    ∧ featureFlags c' = featureFlags c
    ∧ console w'
      = console w
        ++ [ ConsoleLog ("Migrated: custom profile with "
                         +:+ pretty (length installed) +:+ " workflows");
             ConsoleLog "New in this version: /opsx:propose. Try 'openspec config profile core' for the streamlined experience." ].
Proof.
  intros P tools w Hfires. unfold migrationFires in Hfires.
  destruct (Migration.readRawConfig (configFile w)) as [[|raw]|] eqn:Hraw;
    [done| |done].
  apply andb_true_iff in Hfires as [Hnone Hscan].
  apply bool_decide_eq_true in Hnone.
  apply negb_true_iff, bool_decide_eq_false in Hscan.
  unfold Migration.migrateIfNeeded.
  unfold bind, getGlobalConfig, gets, ret, saveGlobalConfig, consoleLog, modify.
  simpl. rewrite Hraw. simpl.
  rewrite bool_decide_false; [|rewrite Hnone; by intros [? [=]]].
  rewrite bool_decide_false; [|intros Hlen; by apply nil_length_inv in Hlen].
  simpl.
  set (installed := Migration.scanInstalledWorkflows (fs w) P tools).
  set (c := readConfig (configFile w)).
  set (saved := mkGlobalConfig (Some "custom") (Some installed)
                  (delivery c) (featureFlags c)).
  assert (Hp : profile (mergeDefaults (toJson saved)) = Some "custom").
  { unfold mergeDefaults. simpl. by rewrite toJson_profile. }
  assert (Hw : workflows (mergeDefaults (toJson saved)) = Some installed).
  { unfold mergeDefaults. simpl. by rewrite toJson_workflows. }
  assert (Hd : default "both" (delivery (mergeDefaults (toJson saved)))
               = default "both" (delivery c)).
  { unfold mergeDefaults. simpl. rewrite toJson_delivery. simpl.
    by destruct (delivery c). }
  split_and!.
  - exact Hp.
  - exact Hw.
  - unfold Update.desiredWorkflowsOf. rewrite Hp, Hw. simpl.
    apply List_filter_all. intros x Hx. apply bool_decide_eq_true.
    by eapply scanInstalledWorkflows_catalog.
  - exact Hd.
  - unfold Update.shouldGenerateSkillsOf. by rewrite Hd.
  - unfold Update.shouldGenerateCommandsOf. by rewrite Hd.
  - unfold mergeDefaults. simpl. by rewrite toJson_featureFlags.
  - by rewrite <- (assoc_L app).
Qed.

Lemma X4_witness :
  migrationFires Sample.project Sample.tools Scenario.unmigrated = true
  ∧ Update.desiredWorkflowsOf
      (readConfig (configFile
         (Migration.migrateIfNeeded Sample.project Sample.tools
            Scenario.unmigrated).2))
    = Migration.scanInstalledWorkflows (fs Scenario.unmigrated)
        Sample.project Sample.tools.
Proof.
  assert (H : migrationFires Sample.project Sample.tools Scenario.unmigrated = true)
    by (vm_compute; reflexivity).
  split; [exact H|].
  exact (proj1 (proj2 (proj2
           (X4_migration_keeps_what_is_installed _ _ _ H)))).
Defined.

(** ** When [update] fails, and when it leaves things alone *)

Lemma migrateIfNeeded_idle P tools w :
  migrationFires P tools w = false →
  (Migration.migrateIfNeeded P tools w).2 = w.
Proof.
  unfold migrationFires, Migration.migrateIfNeeded.
  unfold bind, getGlobalConfig, gets, ret. simpl.
  destruct (Migration.readRawConfig (configFile w)) as [[|raw]|]; [done| |done].
  intros H. apply andb_false_iff in H as [H|H].
  - apply bool_decide_eq_false in H.
    rewrite bool_decide_true; [done|].
    destruct (raw !! "profile"); [eauto|done].
  - apply negb_false_iff, bool_decide_eq_true in H.
    case_bool_decide; [done|]. by rewrite H.
Qed.

Lemma migrateIfNeeded_null P tools w :
  configFile w = ConfigNull →
  Migration.migrateIfNeeded P tools w = (Throw Migration.NULL_PROFILE_ERROR, w).
Proof.
  intros H. unfold Migration.migrateIfNeeded, bind, getGlobalConfig, gets.
  simpl. by rewrite H.
Qed.

Lemma migrationFires_no_tools P w : migrationFires P [] w = false.
Proof.
  unfold migrationFires.
  destruct (Migration.readRawConfig _) as [[|raw]|]; [done| |done].
  apply andb_false_iff. right. done.
Qed.

Lemma handleLegacyCleanup_none E force P w :
  hasLegacyArtifacts (detectLegacyArtifacts E (fs w) P) = false →
  Update.handleLegacyCleanup E force P w = (Ok [], w).
Proof.
  intros H. unfold Update.handleLegacyCleanup, bind, gets. simpl. by rewrite H.
Qed.

(** X5.  The exit code of [update].  Without the [openspec] directory
    the command throws at once: nothing is printed or touched by the
    command itself, and the CLI prints the error and exits with code 1.
    With it, and no legacy artifacts around, the command returns normally
    and the CLI exits with code 0, whatever fails while the tools are
    reconciled, provided the global config file does not hold [null] or no
    tool is configured.  When the file holds [null] and a tool is
    configured, the migration step throws: nothing is touched, and the CLI
    prints the error and exits with code 1. *)
Theorem X5_update_exit_codes :
  ∀ (E : Env) (force : bool) (projectPath : path) (w : World),
    (isDirectory (fs w) (projectPath ++ [OPENSPEC_DIR_NAME]) = false →
       Update.execute E force projectPath w
       = (Throw "No OpenSpec directory found. Run 'openspec init' first.", w)
       ∧ Cli.update E force projectPath w
         = (1, addOut (SpinnerFail "Error: No OpenSpec directory found. Run 'openspec init' first.")
                 (addOut (ConsoleLog "") w)))
    ∧ (isDirectory (fs w) (projectPath ++ [OPENSPEC_DIR_NAME]) = true →
       hasLegacyArtifacts (detectLegacyArtifacts E (fs w) projectPath) = false →
       (configFile w ≠ ConfigNull
        ∨ Update.getConfiguredToolsForUpdate E (fs w) projectPath = [] →
        ∃ w', Update.execute E force projectPath w = (Ok tt, w')
              ∧ Cli.update E force projectPath w = (0, w'))
       ∧ (configFile w = ConfigNull →
          Update.getConfiguredToolsForUpdate E (fs w) projectPath ≠ [] →
          Update.execute E force projectPath w
          = (Throw Migration.NULL_PROFILE_ERROR, w)
          ∧ Cli.update E force projectPath w
            = (1, addOut (SpinnerFail ("Error: " +:+ Migration.NULL_PROFILE_ERROR))
                    (addOut (ConsoleLog "") w)))).
Proof.
  intros E force P w. split.
  - intros Hdir.
    assert (Hexec : Update.execute E force P w
      = (Throw "No OpenSpec directory found. Run 'openspec init' first.", w)).
    { unfold Update.execute, bind, gets. simpl. by rewrite Hdir. }
    split; [exact Hexec|]. unfold Cli.update, Cli.runAction. by rewrite Hexec.
  - intros Hdir Hleg.
    assert (Hexec : Update.execute E force P w
                    = Update.executeAfterLegacy E force P [] w).
    { unfold Update.execute, bind, gets. simpl. rewrite Hdir. simpl.
      by rewrite (handleLegacyCleanup_none _ _ _ _ Hleg). }
    destruct (executeAfterLegacy_outcome E force P [] w)
      as (r & w' & Hrun & _ & [(-> & _ & Hnone)|(-> & -> & Hnull & Hsome)]).
    + split.
      * intros _. exists w'. rewrite Hexec, Hrun. split; [done|].
        unfold Cli.update, Cli.runAction. by rewrite Hexec, Hrun.
      * intros Hnull Hct. destruct Hct. by apply Hnone.
    + split.
      * intros [Hnn|Hct]; [done|]. destruct Hsome. done.
      * intros _ _. rewrite Hexec, Hrun. split; [done|].
        unfold Cli.update, Cli.runAction. by rewrite Hexec, Hrun.
Qed.

Lemma X5_witness :
  isDirectory (fs Scenario.fresh) (Sample.project ++ [OPENSPEC_DIR_NAME]) = false
  ∧ isDirectory (fs Scenario.narrowed) (Sample.project ++ [OPENSPEC_DIR_NAME]) = true
  ∧ (Cli.update Scenario.E false Sample.project Scenario.fresh).1 = 1
  ∧ (∃ w', Cli.update Scenario.E false Sample.project Scenario.narrowed = (0, w'))
  ∧ Cli.update Scenario.E false Sample.project Scenario.nullConfig
    = (1, addOut (SpinnerFail ("Error: " +:+ Migration.NULL_PROFILE_ERROR))
            (addOut (ConsoleLog "") Scenario.nullConfig)).
Proof.
  assert (H1 : isDirectory (fs Scenario.fresh)
                 (Sample.project ++ [OPENSPEC_DIR_NAME]) = false)
    by (vm_compute; reflexivity).
  assert (H2 : isDirectory (fs Scenario.narrowed)
                 (Sample.project ++ [OPENSPEC_DIR_NAME]) = true)
    by (vm_compute; reflexivity).
  assert (H3 : isDirectory (fs Scenario.nullConfig)
                 (Sample.project ++ [OPENSPEC_DIR_NAME]) = true)
    by (vm_compute; reflexivity).
  split; [exact H1|]. split; [exact H2|]. split; [|split].
  - pose proof (proj2 (proj1 (X5_update_exit_codes
                  Scenario.E false Sample.project Scenario.fresh) H1)) as H.
    by rewrite H.
  - destruct (proj1 (proj2 (X5_update_exit_codes
                Scenario.E false Sample.project Scenario.narrowed) H2 eq_refl))
      as (w' & _ & H).
    + left. discriminate.
    + exists w'. exact H.
  - apply (proj2 (proj2 (X5_update_exit_codes
             Scenario.E false Sample.project Scenario.nullConfig) H3 eq_refl)).
    + reflexivity.
    + vm_compute. discriminate.
Defined.

Lemma reconcileLoop_nil E P gs gc st cc w :
  Update.reconcileLoop E P gs gc st cc [] w
  = (Ok (tt, Update.mkLocals [] [] 0 0), w).
Proof. reflexivity. Qed.

Lemma RunShape_configFile E force P newly w w' :
  RunShape E force P newly w (migrated E P newly w) w' →
  configFile w' = configFile (migrated E P newly w).
Proof.
  intros [Hct Hn _ _ Hcf|_ _ _ _ Hcf
         |w0 l wl _ _ Hcf0 _ Hloop _ _ Hcf1 _ _].
  - rewrite Hcf. unfold migrated. rewrite Hct, Hn. simpl.
    by rewrite (migrateIfNeeded_idle _ _ _ (migrationFires_no_tools _ _)).
  - exact Hcf.
  - apply reconcileLoop_run in Hloop as (Hcfl & _). simpl in Hcfl. congruence.
Qed.

Lemma migrationFires_has_profile P tools w obj :
  configFile w = ConfigJson obj → is_Some (obj !! "profile") →
  migrationFires P tools w = false.
Proof.
  intros Hcf [v Hv]. unfold migrationFires. rewrite Hcf. simpl.
  apply andb_false_iff. left. apply bool_decide_eq_false. by rewrite Hv.
Qed.

Lemma migrationFires_unreadable P tools w :
  configFile w = ConfigUnreadable → migrationFires P tools w = false.
Proof. intros Hcf. unfold migrationFires. by rewrite Hcf. Qed.

(** X6.  A run of [update] (steps 3 to 15) changes the global config file
    only through the one-time migration: at the end the file is the one
    the migration step left.  In particular a config that already has a
    [profile] key, and a config file that cannot be read, are never
    rewritten by [update]. *)
Theorem X6_update_changes_config_only_by_migration :
  ∀ (E : Env) (force : bool) (projectPath : path)
    (newlyConfiguredTools : list string) (w : World),
    let w' := (Update.executeAfterLegacy E force projectPath
                 newlyConfiguredTools w).2 in
    configFile w' = configFile (migrated E projectPath newlyConfiguredTools w)
    ∧ (∀ obj, configFile w = ConfigJson obj → is_Some (obj !! "profile") →
              configFile w' = configFile w)
    ∧ (configFile w = ConfigUnreadable → configFile w' = configFile w).
Proof.
  intros E force P newly w w'.
  destruct (executeAfterLegacy_outcome E force P newly w)
    as (r & w1 & Hrun & _ & [(-> & Hshape & _)|(-> & -> & Hnull & _)]).
  2:{ unfold w'. rewrite Hrun. simpl. split_and!.
      - unfold migrated. by rewrite migrateIfNeeded_null.
      - done.
      - done. }
  unfold w'. rewrite Hrun. simpl. clear w'.
  apply RunShape_configFile in Hshape.
  split_and!.
  - exact Hshape.
  - intros obj Hcf Hp. rewrite Hshape. unfold migrated.
    by rewrite (migrateIfNeeded_idle _ _ _
                  (migrationFires_has_profile _ _ _ _ Hcf Hp)).
  - intros Hcf. rewrite Hshape. unfold migrated.
    by rewrite (migrateIfNeeded_idle _ _ _ (migrationFires_unreadable _ _ _ Hcf)).
Qed.

Lemma X6_witness :
  configFile Scenario.staleExtra
  = Scenario.config "custom" (Some ["apply"]) "both"
  ∧ configFile (Update.executeAfterLegacy Scenario.E false Sample.project []
                  Scenario.staleExtra).2
    = configFile Scenario.staleExtra.
Proof.
  split; [reflexivity|].
  apply (proj1 (proj2 (X6_update_changes_config_only_by_migration
           Scenario.E false Sample.project [] Scenario.staleExtra))
           (toJson (mkGlobalConfig (Some "custom") (Some ["apply"]) (Some "both") []))).
  - reflexivity.
  - rewrite toJson_profile. simpl. eauto.
Defined.

(** X7.  A non-forced run for which no configured tool is stale or has
    drifted makes no file-system call at all: the tree and the record of
    operations are those it started with. *)
Theorem X7_update_up_to_date_is_read_only :
  ∀ (E : Env) (projectPath : path) (newlyConfiguredTools : list string)
    (w : World),
    selectedTools E false projectPath w
      (readConfig (configFile (migrated E projectPath newlyConfiguredTools w)))
    = [] →
    let w' := (Update.executeAfterLegacy E false projectPath
                 newlyConfiguredTools w).2 in
    fs w' = fs w ∧ trace w' = trace w.
Proof.
  intros E P newly w Hsel w'.
  destruct (executeAfterLegacy_outcome E false P newly w)
    as (r & w1 & Hrun & _ & [(-> & Hshape & _)|(-> & -> & _)]).
  2:{ unfold w'. by rewrite Hrun. }
  unfold w'. rewrite Hrun. simpl. clear w'.
  destruct Hshape as [_ _ Hfs Htr _|_ _ Hfs Htr _
                     |w0 l wl Hfs0 Htr0 _ _ Hloop Hfs1 Htr1 _ _ _]; [done|done|].
  cbv zeta in Hloop. rewrite Hsel, reconcileLoop_nil in Hloop.
  injection Hloop as _ <-. split; congruence.
Qed.

Lemma X7_witness :
  selectedTools Scenario.E false Sample.project Scenario.narrowed
    (readConfig (configFile (migrated Scenario.E Sample.project []
                               Scenario.narrowed))) = []
  ∧ fs (Update.executeAfterLegacy Scenario.E false Sample.project []
          Scenario.narrowed).2 = fs Scenario.narrowed.
Proof.
  assert (H : selectedTools Scenario.E false Sample.project Scenario.narrowed
                (readConfig (configFile (migrated Scenario.E Sample.project []
                                           Scenario.narrowed))) = [])
    by (vm_compute; reflexivity).
  split; [exact H|].
  exact (proj1 (X7_update_up_to_date_is_read_only _ _ _ _ H)).
Defined.

(** X8.  Legacy artifacts found, no [--force], and either the terminal
    cannot prompt or the user declines the cleanup: [update] prints a
    notice and goes on with no tool newly configured, while [init] prints
    a notice and exits, with code 1 when it could not prompt and code 0
    when the user declined.  In all four cases the cleanup is not run:
    the tree, the config file and the record of operations are
    untouched. *)
Theorem X8_legacy_cleanup_needs_force_or_consent :
  ∀ (E : Env) (projectPath : path) (w : World) (c : Init.InitCommand)
    (extendMode : bool),
    let detection := detectLegacyArtifacts E (fs w) projectPath in
    hasLegacyArtifacts detection = true →
    Init.force c = false →
    (isInteractive E = false →
       Update.handleLegacyCleanup E false projectPath w
       = (Ok [], logged w [ ""; detectionSummary detection; "";
                            "⚠ Run with --force to auto-cleanup legacy files, or run interactively.";
                            "" ]))
    ∧ (isInteractive E = true →
       confirm E "Upgrade and clean up legacy files?" = false →
       Update.handleLegacyCleanup E false projectPath w
       = (Ok [], logged w [ ""; detectionSummary detection; "";
                            "Skipping legacy cleanup. Continuing with skill update...";
                            "" ]))
    ∧ (Init.canPromptInteractively E c = false →
       Init.handleLegacyCleanup E c projectPath extendMode w
       = (Exit 1, logged w [ ""; detectionSummary detection; "";
                             "Legacy files detected in non-interactive mode.";
                             "Run interactively to upgrade, or use --force to auto-cleanup." ]))
    ∧ (Init.canPromptInteractively E c = true →
       confirm E "Upgrade and clean up legacy files?" = false →
       Init.handleLegacyCleanup E c projectPath extendMode w
       = (Exit 0, logged w [ ""; detectionSummary detection; "";
                             "Initialization cancelled.";
                             "Run with --force to skip this prompt, or manually remove legacy files." ])).
Proof.
  intros E P w c extendMode detection Hleg Hforce.
  assert (Hw : ∀ l, logged w l
                    = mkWorld (fs w) (configFile w)
                        (console w ++ map ConsoleLog l) (trace w)) by done.
  split_and!.
  - intros Hint. unfold Update.handleLegacyCleanup, bind, gets, consoleLog, modify, ret.
    simpl. fold detection. rewrite Hleg, Hint. simpl.
    rewrite Hw. unfold addOut. simpl. by rewrite <- !(assoc_L app).
  - intros Hint Hno. unfold Update.handleLegacyCleanup, bind, gets, consoleLog, modify, ret.
    simpl. fold detection. rewrite Hleg, Hint, Hno. simpl.
    rewrite Hw. unfold addOut. simpl. by rewrite <- !(assoc_L app).
  - intros Hcan. unfold Init.handleLegacyCleanup, bind, gets, consoleLog, modify,
      processExit.
    simpl. fold detection. rewrite Hleg, Hforce, Hcan. simpl.
    rewrite Hw. unfold addOut. simpl. by rewrite <- !(assoc_L app).
  - intros Hcan Hno. unfold Init.handleLegacyCleanup, bind, gets, consoleLog, modify,
      processExit.
    simpl. fold detection. rewrite Hleg, Hforce, Hcan, Hno. simpl.
    rewrite Hw. unfold addOut. simpl. by rewrite <- !(assoc_L app).
Qed.

Lemma X8_witness :
  hasLegacyArtifacts
    (detectLegacyArtifacts Cases.legacyEnv (fs Cases.bare) Sample.project) = true
  ∧ (Update.handleLegacyCleanup Cases.legacyEnv false Sample.project Cases.bare).1
    = Ok []
  ∧ (Init.handleLegacyCleanup Cases.legacyEnv Scenario.initClaude Sample.project
       true Cases.bare).1 = Exit 1.
Proof.
  split; [reflexivity|].
  destruct (X8_legacy_cleanup_needs_force_or_consent Cases.legacyEnv
              Sample.project Cases.bare Scenario.initClaude true eq_refl eq_refl)
    as (H1 & _ & H3 & _).
  split.
  - by rewrite (H1 eq_refl).
  - by rewrite (H3 eq_refl).
Defined.

Lemma upgraded_quiet E P st cc w w1 w2 l :
  upgraded E P st cc w w1 l → quietOutcome w1 w2 → upgraded E P st cc w w2 l.
Proof.
  intros (Hcf & Hkeep & Hl) (Hfs & Hcf2 & _ & _).
  split_and!; [congruence|by rewrite Hfs|]. by rewrite Hfs.
Qed.

Lemma upgraded_nil E P st cc w : upgraded E P st cc w w [].
Proof. split_and!; [done|done|]. intros id H. by apply elem_of_nil in H. Qed.

Lemma upgraded_writes E P st cc w w1 w2 l X :
  upgraded E P st cc w w1 l → fs w2 = writeTree X (fs w1) →
  configFile w2 = configFile w1 → upgraded E P st cc w w2 l.
Proof.
  intros (Hcf & Hkeep & Hl) Hfs Hcf2. split_and!; [congruence| |].
  - intros q Hq. rewrite Hfs. by apply writeTree_is_Some, Hkeep.
  - intros id Hid. destruct (Hl id Hid) as (tool & d & Hv & Hfiles).
    exists tool, d. split; [done|]. intros pc Hpc. rewrite Hfs.
    by apply writeTree_is_Some, Hfiles.
Qed.

(** One iteration of the loop of [upgradeLegacyTools]. *)
Lemma wp_upgradeTool E P st cc w (acc : list string) toolId w1 :
  upgraded E P st cc w w1 acc →
  wp (match findTool E toolId with
      | None => ret acc
      | Some tool =>
        match truthyDir tool with
        | None => ret acc
        | Some d =>
          emit (SpinnerStart ("Setting up " +:+ name tool +:+ "...")) ;;;
          tryCatch
            (let skillsDir := P ++ [d; "skills"] in
             Update.writeSkills E skillsDir tool st ;;;
             match CommandAdapterRegistry_get E (value tool) with
             | Some adapter =>
               Update.writeCommands E P
                 (generateCommands cc adapter)
             | None => ret tt
             end ;;;
             emit (SpinnerSucceed ("Setup complete for " +:+ name tool)) ;;;
             ret (acc ++ [toolId]))
            (λ error,
               emit (SpinnerFail ("Failed to set up " +:+ name tool)) ;;;
               consoleLog ("  " +:+ error) ;;;
               ret acc)
        end
      end)
     (λ r w2, ∃ acc', r = Ok acc' ∧ upgraded E P st cc w w2 acc'
                      ∧ (∀ id, id ∈ acc' → id ∈ acc ∨ id = toolId)) w1.
Proof.
  intros Hup.
  destruct (findTool E toolId) as [tool|] eqn:Hfind.
  2:{ apply wp_ret. exists acc. eauto. }
  destruct (truthyDir tool) as [d|] eqn:Hdir.
  2:{ apply wp_ret. exists acc. eauto. }
  apply wp_bind, wp_modify. simpl.
  set (w1' := addOut _ w1).
  assert (Hup' : upgraded E P st cc w w1' acc).
  { eapply upgraded_quiet; [exact Hup|]. split_and!; try done.
    simpl. by apply prefix_app_r. }
  assert (Hcatch : ∀ e w2, upgraded E P st cc w w2 acc →
    wp (emit (SpinnerFail ("Failed to set up " +:+ name tool)) ;;;
        consoleLog ("  " +:+ e) ;;; ret acc)
       (λ r w3, ∃ acc', r = Ok acc' ∧ upgraded E P st cc w w3 acc'
                        ∧ (∀ id, id ∈ acc' → id ∈ acc ∨ id = toolId)) w2).
  { intros e w2 H2. apply wp_bind, wp_modify. simpl.
    apply wp_bind, wp_modify. simpl. apply wp_ret.
    exists acc. split; [done|]. split; [|eauto].
    eapply upgraded_quiet; [exact H2|]. split_and!; try done.
    simpl. rewrite <- (assoc_L app). by apply prefix_app_r. }
  apply wp_tryCatch. simpl.
  apply wp_bind. rewrite writeSkills_writeAll.
  apply wp_writeAll.
  2:{ intros w2 e pre x post _ [Hc Hcf] _ Hfs _.
      apply Hcatch. by eapply upgraded_writes. }
  intros w2 [Hc2 Hcf2] _ Hfs2. simpl.
  assert (Hup2 : upgraded E P st cc w w2 acc) by (by eapply upgraded_writes).
  assert (Hsk : ∀ pc, pc ∈ skillWrites E (P ++ [d; "skills"]) (value tool)
                             st →
                      is_Some (fs w2 !! pc.1)).
  { intros [p c] Hpc. rewrite Hfs2. by eapply writeTree_written. }
  (* the end of the [try] block *)
  assert (Hend : ∀ w3,
    upgraded E P st cc w w3 acc →
    (∀ pc, pc ∈ skillWrites E (P ++ [d; "skills"]) (value tool)
                  st
                ++ commandWrites E P (value tool) cc →
           is_Some (fs w3 !! pc.1)) →
    wp (emit (SpinnerSucceed ("Setup complete for " +:+ name tool)) ;;;
        ret (acc ++ [toolId]))
       (λ r w4, match r with
                | Ok a => ∃ acc', Ok a = Ok acc' ∧ upgraded E P st cc w w4 acc'
                            ∧ (∀ id, id ∈ acc' → id ∈ acc ∨ id = toolId)
                | Throw e => wp (emit (SpinnerFail ("Failed to set up " +:+ name tool)) ;;;
                                 consoleLog ("  " +:+ e) ;;; ret acc)
                               (λ r w5, ∃ acc', r = Ok acc' ∧ upgraded E P st cc w w5 acc'
                                  ∧ (∀ id, id ∈ acc' → id ∈ acc ∨ id = toolId)) w4
                | Exit k => ∃ acc', Exit k = Ok acc' ∧ upgraded E P st cc w w4 acc'
                            ∧ (∀ id, id ∈ acc' → id ∈ acc ∨ id = toolId)
                end) w3).
  { intros w3 (Hcf3 & Hkeep3 & Hl3) Hfiles.
    apply wp_bind, wp_modify. simpl. apply wp_ret.
    exists (acc ++ [toolId]). split; [done|]. split.
    - split_and!; [done|done|]. intros id Hid.
      apply elem_of_app in Hid as [Hid|Hid]; [by apply Hl3|].
      apply list_elem_of_singleton in Hid as ->.
      exists tool, d. split; [by split|]. exact Hfiles.
    - intros id Hid. apply elem_of_app in Hid as [Hid|Hid]; [by left|].
      apply list_elem_of_singleton in Hid. by right. }
  apply wp_bind.
  destruct (CommandAdapterRegistry_get E (value tool)) as [a|] eqn:Ha.
  - rewrite writeCommands_writeAll, (commandWrites_adapter _ _ _ _ _ Ha).
    apply wp_writeAll.
    2:{ intros w3 e pre x post _ [Hc Hcf] _ Hfs _.
        apply Hcatch. by eapply upgraded_writes. }
    intros w3 [Hc3 Hcf3] _ Hfs3. simpl. apply Hend.
    + by eapply upgraded_writes.
    + intros [p c] Hpc. rewrite Hfs3.
      apply elem_of_app in Hpc as [Hpc|Hpc].
      * apply writeTree_is_Some. by apply (Hsk (p, c)).
      * by eapply writeTree_written.
  - apply wp_ret. simpl. apply Hend; [done|].
    intros pc Hpc. rewrite (commandWrites_none _ _ _ _ Ha), app_nil_r in Hpc.
    by apply Hsk.
Qed.

Lemma wp_consoleLog s (Q : Res unit → World → Prop) w :
  Q (Ok tt) (addOut (ConsoleLog s) w) → wp (consoleLog s) Q w.
Proof. intros H. by apply wp_modify. Qed.

Lemma quietOutcome_addOut o w : quietOutcome w (addOut o w).
Proof. split_and!; try done. simpl. by apply prefix_app_r. Qed.

(** X9.  The upgrade of legacy tools never raises and never changes the
    config file or removes a path.  Every tool it returns as newly
    configured is a registered tool with a skills directory, and all its
    skill files, for the seven catalog workflows, and all its command
    files are on disk afterwards; a tool for which a write failed is not
    returned.  Unless the user was asked to choose, the tools returned are
    among the legacy tools that were not configured yet. *)
Theorem X9_upgradeLegacyTools_outcome :
  ∀ (E : Env) (force : bool) (projectPath : path)
    (detection : LegacyDetectionResult) (canPrompt : bool) (w : World),
  ∃ l w',
    Update.upgradeLegacyTools E force projectPath detection canPrompt w = (Ok l, w')
    ∧ upgraded E projectPath (getSkillTemplates None) (getCommandContents None) w w' l
    ∧ ((force || negb canPrompt) = true →
       ∀ id, id ∈ l →
         id ∈ legacyTools detection
         ∧ (id ∉ Update.getConfiguredToolsForUpdate E (fs w) projectPath)
         ∧ id ∈ getToolsWithSkillsDir E).
Proof.
  intros E force P detection canPrompt w.
  set (st := getSkillTemplates None). set (cc := getCommandContents None).
  set (ct := Update.getConfiguredToolsForUpdate E (fs w) P).
  set (valid := List.filter (λ t, bool_decide (t ∈ getToolsWithSkillsDir E))
                  (List.filter (λ t, negb (bool_decide (t ∈ ct)))
                     (legacyTools detection))).
  enough (Hwp : wp (Update.upgradeLegacyTools E force P detection canPrompt)
    (λ r w', ∃ l, r = Ok l ∧ upgraded E P st cc w w' l
       ∧ ((force || negb canPrompt) = true → ∀ id, id ∈ l → id ∈ valid)) w).
  { apply wp_run in Hwp as (r & w' & Hrun & l & -> & Hup & Hsel).
    exists l, w'. split_and!; [done|done|].
    intros Hauto id Hid. specialize (Hsel Hauto id Hid). unfold valid in Hsel.
    apply elem_of_List_filter in Hsel as [H1 Hsel].
    apply elem_of_List_filter in Hsel as [H2 Hsel].
    apply bool_decide_eq_true in H1.
    apply negb_true_iff, bool_decide_eq_false in H2. done. }
  assert (Hnone : ∀ w1, quietOutcome w w1 →
    ∃ l, @Ok (list string) [] = Ok l ∧ upgraded E P st cc w w1 l
         ∧ ((force || negb canPrompt) = true → ∀ id, id ∈ l → id ∈ valid)).
  { intros w1 Hq. exists []. split; [done|]. split.
    - eapply upgraded_quiet; [apply upgraded_nil|done].
    - intros _ id Hid. by apply elem_of_nil in Hid. }
  unfold Update.upgradeLegacyTools.
  case_bool_decide; [apply wp_ret; by apply Hnone|].
  apply wp_bind, wp_gets. simpl. fold ct.
  case_bool_decide; [apply wp_ret; by apply Hnone|].
  fold valid.
  case_bool_decide; [apply wp_ret; by apply Hnone|].
  apply wp_bind, wp_quiet; [apply Quiet_consoleLog|].
  intros [] w1 Hq1 _. simpl.
  apply wp_bind, wp_quiet; [apply Quiet_forEach; intros ?; apply Quiet_consoleLog|].
  intros [] w2 Hq2 _. simpl.
  apply wp_bind, wp_quiet; [apply Quiet_consoleLog|].
  intros [] w3 Hq3 _. simpl.
  assert (Hq : quietOutcome w w3).
  { eapply quietOutcome_trans; [exact Hq1|].
    eapply quietOutcome_trans; [exact Hq2|exact Hq3]. }
  clear Hq1 Hq2 Hq3.
  (* the rest, for the selection [sel] made in world [w4] *)
  assert (Hrest : ∀ sel w4,
    quietOutcome w w4 →
    ((force || negb canPrompt) = true → sel = valid) →
    wp (if negb (force || negb canPrompt) && bool_decide (length sel = 0) then
          consoleLog "Skipping tool setup." ;;; consoleLog "" ;;; ret []
        else
          newlyConfigured <-
            foldM (λ newlyConfigured toolId,
              match findTool E toolId with
              | None => ret newlyConfigured
              | Some tool =>
                match truthyDir tool with
                | None => ret newlyConfigured
                | Some d =>
                  emit (SpinnerStart ("Setting up " +:+ name tool +:+ "...")) ;;;
                  tryCatch
                    (let skillsDir := P ++ [d; "skills"] in
                     Update.writeSkills E skillsDir tool st ;;;
                     match CommandAdapterRegistry_get E (value tool) with
                     | Some adapter =>
                       Update.writeCommands E P (generateCommands cc adapter)
                     | None => ret tt
                     end ;;;
                     emit (SpinnerSucceed ("Setup complete for " +:+ name tool)) ;;;
                     ret (newlyConfigured ++ [toolId]))
                    (λ error,
                       emit (SpinnerFail ("Failed to set up " +:+ name tool)) ;;;
                       consoleLog ("  " +:+ error) ;;;
                       ret newlyConfigured)
                end
              end) sel [] ;;
          (if bool_decide (0 < length newlyConfigured) then consoleLog ""
           else ret tt) ;;;
          ret newlyConfigured)
       (λ r w', ∃ l, r = Ok l ∧ upgraded E P st cc w w' l
          ∧ ((force || negb canPrompt) = true → ∀ id, id ∈ l → id ∈ valid)) w4).
  { intros sel w4 Hq4 Hsel.
    destruct (negb (force || negb canPrompt) && bool_decide (length sel = 0)).
    { apply wp_bind, wp_consoleLog. simpl. apply wp_bind, wp_consoleLog. simpl.
      apply wp_ret. apply Hnone.
      eapply quietOutcome_trans; [exact Hq4|].
      eapply quietOutcome_trans; apply quietOutcome_addOut. }
    apply wp_bind.
    apply (wp_foldM _ _ _ (λ done acc w5,
      upgraded E P st cc w w5 acc ∧ ∀ id, id ∈ acc → id ∈ done)).
    - split; [|intros id Hid; by apply elem_of_nil in Hid].
      eapply upgraded_quiet; [apply upgraded_nil|done].
    - intros done toolId rest acc w5 _ [Hup Hdone].
      eapply wp_mono; [by apply wp_upgradeTool|].
      intros r w6 (acc' & -> & Hup' & Hacc'). split; [done|].
      intros id Hid. apply elem_of_app.
      destruct (Hacc' id Hid) as [H'| ->]; [left; by apply Hdone|right; by left].
    - intros acc w5 [Hup Hdone]. simpl.
      apply wp_bind. apply wp_quiet; [apply Quiet_if; [apply Quiet_consoleLog|apply Quiet_ret]|].
      intros [] w6 Hq6 _. simpl. apply wp_ret.
      exists acc. split; [done|]. split; [by eapply upgraded_quiet|].
      intros Hauto id Hid. rewrite <- (Hsel Hauto). by apply Hdone. }
  apply wp_bind.
  destruct (force || negb canPrompt) eqn:Hauto.
  - apply wp_bind, wp_consoleLog. simpl. apply wp_ret. simpl.
    apply Hrest; [|done].
    eapply quietOutcome_trans; [exact Hq|apply quietOutcome_addOut].
  - apply wp_ret. simpl. apply Hrest; [done|]. intros [=].
Qed.

Lemma X9_witness :
  ∃ l w',
    Update.upgradeLegacyTools Cases.legacyEnv true Sample.project
      (detectLegacyArtifacts Cases.legacyEnv (fs Cases.bare) Sample.project)
      false Cases.bare = (Ok l, w')
    ∧ ∀ id, id ∈ l → id ∈ ["claude"; "agents"] ∧ id ∈ ["claude"; "claude-internal"].
Proof.
  destruct (X9_upgradeLegacyTools_outcome Cases.legacyEnv true Sample.project
              (detectLegacyArtifacts Cases.legacyEnv (fs Cases.bare) Sample.project)
              false Cases.bare) as (l & w' & Hrun & _ & Hsel).
  exists l, w'. split; [exact Hrun|].
  intros id Hid. destruct (Hsel eq_refl id Hid) as (H1 & _ & H3).
  split; [exact H1|exact H3].
Defined.

Lemma skill_table_coherent e :
  e ∈ allSkillTemplates →
  tableGet WORKFLOW_TO_SKILL_DIR (workflowId e) = Some (dirName e).
Proof.
  unfold allSkillTemplates. rewrite !elem_of_cons, elem_of_nil.
  intros [->|[->|[->|[->|[->|[->|[->|[]]]]]]]]; reflexivity.
Qed.

Lemma skill_table_template wf dn :
  tableGet WORKFLOW_TO_SKILL_DIR wf = Some dn →
  mkSkillTemplate dn wf ∈ allSkillTemplates.
Proof.
  intros H. apply tableGet_Some in H. revert H.
  unfold WORKFLOW_TO_SKILL_DIR, allSkillTemplates.
  rewrite !elem_of_cons, !elem_of_nil.
  intros [[= -> ->]|[[= -> ->]|[[= -> ->]|[[= -> ->]|[[= -> ->]|[[= -> ->]|[[= -> ->]|[]]]]]]]];
    tauto.
Qed.

Lemma catalog_commands wf : wf ∈ ALL_WORKFLOWS → wf ∈ allCommandTemplates.
Proof.
  unfold ALL_WORKFLOWS, allCommandTemplates. rewrite !elem_of_cons, !elem_of_nil.
  tauto.
Qed.

Lemma commandsApart_outside E P toolId tool d cc :
  value tool = toolId →
  commandsApart E P toolId d → commandsOutsideSkills E P tool d cc.
Proof.
  intros Hval Hapart [p c] wf dn Hpc Hdn. simpl.
  unfold commandWrites in Hpc. rewrite Hval in Hpc.
  destruct (CommandAdapterRegistry_get E toolId) as [a|] eqn:Ha;
    [|by apply elem_of_nil in Hpc].
  unfold generateCommands in Hpc. rewrite map_map in Hpc.
  apply list_elem_of_fmap in Hpc as (i & [= -> ->] & _). simpl.
  by eapply Hapart.
Qed.

(** When nothing fails, what an iteration writes for a tool is on disk
    when it ends. *)
Lemma updateTool_kindsPresent E P gs gc st cc toolId tool d w l :
  noFaults E →
  findTool E toolId = Some tool → truthyDir tool = Some d →
  commandsApart E P toolId d →
  (∀ e, e ∈ st → e ∈ allSkillTemplates) →
  ∃ s', Update.updateTool E P gs gc st cc toolId (w, l) = (Ok tt, s')
        ∧ kindsPresent E P gs gc st cc tool d (fs s'.1).
Proof.
  intros Hnf Hfind Hdir Hapart Hst.
  pose proof (findTool_value _ _ _ Hfind) as Hval.
  enough (Hwp : wp (Update.updateTool E P gs gc st cc toolId)
            (λ r s', r = Ok tt ∧ kindsPresent E P gs gc st cc tool d (fs s'.1))
            (w, l)).
  { apply wp_run in Hwp as (r & s' & Hrun & -> & H). eauto. }
  unfold Update.updateTool. rewrite Hfind, Hdir.
  apply wp_bind, wp_emitW. simpl. apply wp_tryCatch.
  apply (wp_mono _ (λ r s', r = Ok tt
                            ∧ kindsPresent E P gs gc st cc tool d (fs s'.1))).
  2:{ by intros [[]|e|k] s' [H1 H2]. }
  assert (Hend : ∀ s', kindsPresent E P gs gc st cc tool d (fs s'.1) →
    wp (liftW (emit (SpinnerSucceed ("Updated " +:+ name tool))) ;;;
        setLocals (Update.pushUpdated (name tool)))
       (λ r s', r = Ok tt ∧ kindsPresent E P gs gc st cc tool d (fs s'.1)) s').
  { intros [w1 l1] H. apply wp_bind, wp_emitW. simpl. by apply wp_setLocals. }
  (* a skill file is not a command file *)
  assert (Hskill : ∀ pc q,
    pc ∈ skillWrites E (P ++ [d; "skills"]) (value tool) st →
    isCommandPath E P toolId q → pc.1 ≠ q).
  { intros pc q Hpc (a & wf' & Ha & ->) Heq.
    unfold skillWrites in Hpc.
    apply list_elem_of_fmap in Hpc as (e & -> & He). simpl in Heq.
    eapply (Hapart a (workflowId e) wf' (dirName e)); [done| |].
    - by apply skill_table_coherent, Hst.
    - rewrite <- Heq. by apply prefix_app_r. }
  unfold kindsPresent, requestedWrites in *.
  destruct gs, gc; simpl.
  - apply wp_bind. rewrite writeSkills_writeAll.
    apply wp_writeAll_nofault; [done|]. intros w1 Hfs1. simpl.
    apply wp_bind, wp_ret. simpl. apply wp_bind.
    destruct (CommandAdapterRegistry_get E (value tool)) as [a|] eqn:Ha.
    + rewrite writeCommands_writeAll, (commandWrites_adapter _ _ _ _ _ Ha).
      apply wp_writeAll_nofault; [done|]. intros w2 Hfs2. simpl.
      apply wp_bind, wp_ret. simpl. apply Hend. simpl.
      intros [p c] Hpc. rewrite Hfs2. apply elem_of_app in Hpc as [Hpc|Hpc].
      * apply writeTree_is_Some. rewrite Hfs1. by eapply writeTree_written.
      * by eapply writeTree_written.
    + apply wp_ret. simpl. apply wp_bind, wp_ret. simpl. apply Hend. simpl.
      rewrite (commandWrites_none _ _ _ _ Ha), app_nil_r.
      intros [p c] Hpc. rewrite Hfs1. by eapply writeTree_written.
  - apply wp_bind. rewrite writeSkills_writeAll.
    apply wp_writeAll_nofault; [done|]. intros w1 Hfs1. simpl.
    apply wp_bind, wp_ret. simpl. apply wp_bind, wp_ret. simpl. apply wp_bind.
    apply wp_bind, wp_liftW, wp_removeCommandFiles.
    intros k w2 (_ & _ & Hkeep & _) _. simpl. apply wp_setLocals. simpl.
    apply Hend. simpl. rewrite app_nil_r. intros pc Hpc.
    destruct (Hkeep pc.1) as [H|H]; [|done|].
    + destruct pc as [p c]. rewrite Hfs1. by eapply writeTree_written.
    + exfalso. by eapply Hskill.
  - apply wp_bind, wp_ret. simpl. apply wp_bind.
    apply wp_removeSkillDirs_nofault; [done|]. intros [w1 l1] _ _. simpl in *.
    apply wp_bind.
    destruct (CommandAdapterRegistry_get E (value tool)) as [a|] eqn:Ha.
    + rewrite writeCommands_writeAll, (commandWrites_adapter _ _ _ _ _ Ha).
      apply wp_writeAll_nofault; [done|]. intros w2 Hfs2. simpl.
      apply wp_bind, wp_ret. simpl. apply Hend. simpl.
      intros [p c] Hpc. rewrite Hfs2. by eapply writeTree_written.
    + apply wp_ret. simpl. apply wp_bind, wp_ret. simpl. apply Hend. simpl.
      rewrite (commandWrites_none _ _ _ _ Ha).
      intros pc Hpc. by apply elem_of_nil in Hpc.
  - apply wp_bind, wp_ret. simpl. apply wp_bind.
    apply wp_removeSkillDirs_nofault; [done|]. intros [w1 l1] _ _. simpl in *.
    apply wp_bind, wp_ret. simpl. apply wp_bind.
    apply wp_removeCommandFiles_nofault; [done|]. intros s2 _ _. simpl.
    apply Hend. intros pc Hpc. by apply elem_of_nil in Hpc.
Qed.

Lemma existsb_false {A} (g : A → bool) (l : list A) :
  (∀ x, x ∈ l → g x = false) → existsb g l = false.
Proof.
  induction l as [|a l IH]; intros H; simpl; [done|].
  rewrite (H a) by left. simpl. apply IH. intros x Hx. apply H. by right.
Qed.

Lemma desiredWorkflowsOf_catalog c wf :
  wf ∈ Update.desiredWorkflowsOf c → wf ∈ ALL_WORKFLOWS.
Proof.
  unfold Update.desiredWorkflowsOf. rewrite elem_of_List_filter.
  intros [H _]. by apply bool_decide_eq_true in H.
Qed.

Lemma updateTool_settles E P c toolId tool d w l :
  noFaults E →
  validTool E toolId tool d →
  commandsApart E P toolId d →
  ∃ s',
    Update.updateTool E P
      (Update.shouldGenerateSkillsOf c) (Update.shouldGenerateCommandsOf c)
      (Update.skillTemplatesOf c) (Update.commandContentsOf c)
      toolId (w, l) = (Ok tt, s')
    ∧ Update.hasProfileOrDeliveryDrift E (fs s'.1) P toolId
        (Update.desiredWorkflowsOf c)
        (Update.shouldGenerateSkillsOf c) (Update.shouldGenerateCommandsOf c)
      = false.
Proof.
  intros Hnf [Hfind Hdir] Hapart.
  pose proof (findTool_value _ _ _ Hfind) as Hval.
  set (gs := Update.shouldGenerateSkillsOf c).
  set (gc := Update.shouldGenerateCommandsOf c).
  set (st := Update.skillTemplatesOf c).
  set (cc := Update.commandContentsOf c).
  set (desired := Update.desiredWorkflowsOf c).
  assert (Hst : ∀ e, e ∈ st → e ∈ allSkillTemplates).
  { intros e. unfold st, Update.skillTemplatesOf.
    destruct (Update.shouldGenerateSkillsOf c); [|by intros H; apply elem_of_nil in H].
    unfold getSkillTemplates. rewrite elem_of_List_filter. tauto. }
  destruct (updateTool_kindsPresent E P gs gc st cc toolId tool d w l
              Hnf Hfind Hdir Hapart Hst) as (s' & Hrun & Hpresent).
  destruct (updateTool_kindsRemoved E P gs gc st cc toolId tool d w l
              Hnf Hfind Hdir) as (s'' & Hrun' & Hgone1 & Hgone2).
  rewrite Hrun in Hrun'. injection Hrun' as <-.
  exists s'. split; [exact Hrun|].
  assert (Hft : findTool E toolId ≫= truthyDir = Some d) by (by rewrite Hfind).
  unfold Update.hasProfileOrDeliveryDrift. rewrite Hft. cbv zeta.
  unfold kindsPresent, requestedWrites in Hpresent.
  apply orb_false_iff. split.
  - destruct gs eqn:Hgs.
    + apply existsb_false. intros wf Hwf.
      destruct (tableGet WORKFLOW_TO_SKILL_DIR wf) as [dn|] eqn:Hdn; [|done].
      apply negb_false_iff, existsSync_true.
      apply (Hpresent ((P ++ [d; "skills"]) ++ [dn; "SKILL.md"],
                       generateSkillContent (mkSkillTemplate dn wf)
                         (OPENSPEC_VERSION E)
                         (bool_decide (value tool = "opencode")))).
      apply elem_of_app. left. unfold skillWrites.
      apply list_elem_of_fmap. exists (mkSkillTemplate dn wf). split.
      * simpl. f_equal. by rewrite <- (assoc_L app _ [dn]).
      * unfold st, Update.skillTemplatesOf. fold gs. rewrite Hgs.
        unfold getSkillTemplates. apply elem_of_List_filter. split.
        -- by apply bool_decide_eq_true.
        -- by apply skill_table_template.
    + apply existsb_false. intros wf Hwf.
      destruct (tableGet WORKFLOW_TO_SKILL_DIR wf) as [dn|] eqn:Hdn; [|done].
      apply existsSync_false.
      by apply (Hgone1 eq_refl
                  (commandsApart_outside E P toolId tool d cc Hval Hapart) wf dn).
  - destruct (CommandAdapterRegistry_get E toolId) as [a|] eqn:Ha; [|done].
    destruct gc eqn:Hgc.
    + apply existsb_false. intros wf Hwf.
      apply negb_false_iff, existsSync_true.
      eapply (Hpresent (resolvePath P (getFilePath a wf), _)).
      apply elem_of_app. right. unfold commandWrites. rewrite Hval, Ha.
      unfold generateCommands. rewrite map_map.
      apply list_elem_of_fmap. exists wf. split; [reflexivity|].
      unfold cc, Update.commandContentsOf. fold gc. rewrite Hgc.
      unfold getCommandContents, getCommandTemplates.
      apply elem_of_List_filter. split.
      * by apply bool_decide_eq_true.
      * by apply catalog_commands, (desiredWorkflowsOf_catalog c).
    + apply existsb_false. intros wf Hwf.
      apply existsSync_false. by apply (Hgone2 eq_refl a).
Qed.

(** X10.  Reconciling a tool repairs its drift.  When no file operation
    fails and the command files of the tool lie outside its skill
    directories, the drift check that selects tools for a config sync is
    negative for the tool right after its iteration of the loop, for the
    profile and delivery the iteration was run with. *)
Theorem X10_reconciled_tool_has_no_drift :
  ∀ (E : Env) (projectPath : path) (c : GlobalConfig)
    (toolId : string) (tool : AIToolOption) (d : string)
    (w : World) (l : Update.Locals),
    noFaults E →
    validTool E toolId tool d →
    commandsApart E projectPath toolId d →
    ∃ s',
      Update.updateTool E projectPath
        (Update.shouldGenerateSkillsOf c) (Update.shouldGenerateCommandsOf c)
        (Update.skillTemplatesOf c) (Update.commandContentsOf c)
        toolId (w, l) = (Ok tt, s')
      ∧ Update.hasProfileOrDeliveryDrift E (fs s'.1) projectPath toolId
          (Update.desiredWorkflowsOf c)
          (Update.shouldGenerateSkillsOf c) (Update.shouldGenerateCommandsOf c)
        = false.
Proof.
  intros E P c toolId tool d w l Hnf Hv Hapart.
  destruct (updateTool_settles E P c toolId tool d w l Hnf Hv Hapart)
    as (s' & Hrun & Hdrift).
  exists s'. split.
  - exact Hrun.
  - exact Hdrift.
Qed.

Lemma sample_commandsApart v flt :
  commandsApart (Sample.env v flt) Sample.project "claude" ".claude".
Proof.
  intros a wf wf' dn Ha _ [k Hk].
  injection Ha as <-. vm_compute in Hk. discriminate Hk.
Qed.

Lemma X10_witness :
  noFaults Scenario.E
  ∧ validTool Scenario.E "claude" (mkTool "claude" "Claude Code" (Some ".claude"))
      ".claude"
  ∧ commandsApart Scenario.E Sample.project "claude" ".claude"
  ∧ ∃ s',
      Update.updateTool Scenario.E Sample.project true true
        (getSkillTemplates (Some ["explore"])) (getCommandContents (Some ["explore"]))
        "claude" (Scenario.narrowed, Update.mkLocals [] [] 0 0) = (Ok tt, s')
      ∧ Update.hasProfileOrDeliveryDrift Scenario.E (fs s'.1) Sample.project
          "claude" ["explore"] true true = false.
Proof.
  assert (Hnf : noFaults Scenario.E) by (intros f op; reflexivity).
  assert (Hv : validTool Scenario.E "claude"
                 (mkTool "claude" "Claude Code" (Some ".claude")) ".claude")
    by (split; reflexivity).
  pose proof (sample_commandsApart "1.0.0" Sample.noFault) as Hap.
  split; [exact Hnf|]. split; [exact Hv|]. split; [exact Hap|].
  exact (X10_reconciled_tool_has_no_drift Scenario.E Sample.project
           (readConfig (configFile Scenario.narrowed)) "claude" _ ".claude"
           Scenario.narrowed (Update.mkLocals [] [] 0 0) Hnf Hv Hap).
Defined.

Lemma toSet_fold_NoDup l acc :
  NoDup acc → NoDup (foldl (λ acc x, setAdd x acc) acc l).
Proof.
  revert acc. induction l as [|x l IH]; intros acc H; simpl; [done|].
  by apply IH, setAdd_NoDup.
Qed.

Lemma toSet_NoDup l : NoDup (toSet l).
Proof. apply toSet_fold_NoDup. constructor. Qed.

Lemma toSet_nil_inv l : toSet l = [] → l = [].
Proof.
  destruct l as [|x l]; [done|]. intros H.
  assert (Hx : x ∈ toSet (x :: l)) by (apply toSet_elem; left).
  rewrite H in Hx. by apply elem_of_nil in Hx.
Qed.

Lemma no_invalid_tokens {A B} (g : A * B → bool) (f : A → B) (l : list A) :
  map fst (List.filter g (zip l (map f l))) = [] →
  ∀ t, t ∈ l → g (t, f t) = false.
Proof.
  induction l as [|a l IH]; intros H t Ht; [by apply elem_of_nil in Ht|].
  simpl in H. destruct (g (a, f a)) eqn:Hg; [done|].
  apply elem_of_cons in Ht as [->|Ht]; [done|]. by apply IH.
Qed.

(** X11.  What [--tools] can select.  Without the option the result is
    [null].  With it the call either throws or returns a list of ids, all
    of them available tools: the whole list of available tools for [all],
    and otherwise a list without duplicates.  The list is empty only for
    [none] (or for [all] when no tool is available): a list of ids that
    passes the checks selects at least one tool.  This holds whatever
    [trim] and [toLowerCase] do to the text. *)
Theorem X11_resolveToolsArg_selects_available_tools :
  ∀ (ops : StringOps) (availableTools : list string),
    resolveToolsArg ops availableTools None = Ok None
    ∧ ∀ arg,
        (∃ e, resolveToolsArg ops availableTools (Some arg) = Throw e)
        ∨ ∃ l, resolveToolsArg ops availableTools (Some arg) = Ok (Some l)
               ∧ (∀ x, x ∈ l → x ∈ availableTools)
               ∧ (l = availableTools ∨ NoDup l)
               ∧ (l = [] →
                  toLowerCase ops (trim ops arg) = "none"
                  ∨ (toLowerCase ops (trim ops arg) = "all" ∧ availableTools = [])).
Proof.
  intros ops available. split; [reflexivity|]. intros arg.
  unfold resolveToolsArg.
  case_bool_decide as Hraw; [left; eauto|].
  case_bool_decide as Hall.
  { right. exists available. split_and!; auto. }
  case_bool_decide as Hnone.
  { right. exists []. split_and!; auto.
    - intros x Hx. by apply elem_of_nil in Hx.
    - right. constructor. }
  set (tokens := List.filter _ _).
  case_bool_decide as Htok; [left; eauto|].
  destruct (existsb _ _); [left; eauto|].
  case_bool_decide as Hinv; [left; eauto|].
  right. exists (toSet (map (toLowerCase ops) tokens)). split_and!.
  - done.
  - intros x Hx. rewrite toSet_elem in Hx.
    apply list_elem_of_fmap in Hx as (t & -> & Ht).
    assert (Hnil : map fst
              (List.filter (λ p : string * string, negb (bool_decide (p.2 ∈ available)))
                 (zip tokens (map (toLowerCase ops) tokens))) = []).
    { destruct (map fst _); [done|]. exfalso. apply Hinv. simpl. lia. }
    pose proof (no_invalid_tokens _ _ _ Hnil t Ht) as Hok. simpl in Hok.
    by apply negb_false_iff, bool_decide_eq_true in Hok.
  - right. apply toSet_NoDup.
  - intros Hnil. apply toSet_nil_inv, fmap_nil_inv in Hnil.
    exfalso. apply Htok. by rewrite Hnil.
Qed.

Lemma validateTools_fold E (toolStates : string → option bool)
    (f : list Init.ValidatedTool → string → M World (list Init.ValidatedTool))
    ids acc w :
  (∀ acc id w tool d,
     findTool E id = Some tool → truthyDir tool = Some d →
     f acc id w
     = (Ok (acc ++ [Init.mkValidated (value tool) (name tool) d
                      (default false (toolStates (value tool)))]), w)) →
  (∀ acc id w, (¬ ∃ tool d, validTool E id tool d) →
     ∃ e, f acc id w = (Throw e, w)) →
  (∃ l, foldM f ids acc w = (Ok (acc ++ l), w)
        ∧ Forall2 (validatedAs E toolStates) ids l)
  ∨ (∃ e, foldM f ids acc w = (Throw e, w)
        ∧ ∃ id, id ∈ ids ∧ ¬ ∃ tool d, validTool E id tool d).
Proof.
  intros Hok Hbad.
  revert acc. induction ids as [|id ids IH]; intros acc; simpl.
  - left. exists []. rewrite app_nil_r. split; [done|constructor].
  - unfold bind.
    destruct (findTool E id) as [tool|] eqn:Hfind.
    2:{ destruct (Hbad acc id w) as [e He].
        { intros (tool & d & Hf & _). congruence. }
        right. exists e. rewrite He. split; [done|]. exists id. split; [left|].
        intros (tool & d & Hf & _). congruence. }
    destruct (truthyDir tool) as [d|] eqn:Hdir.
    2:{ destruct (Hbad acc id w) as [e He].
        { intros (tool' & d & Hf & Hd). congruence. }
        right. exists e. rewrite He. split; [done|]. exists id. split; [left|].
        intros (tool' & d & Hf & Hd). congruence. }
    rewrite (Hok acc id w tool d Hfind Hdir).
    destruct (IH (acc ++ [Init.mkValidated (value tool) (name tool) d
                            (default false (toolStates (value tool)))]))
      as [(l & Hrun & Hall)|(e & Hrun & id' & Hin & Hbad')].
    + left. eexists (_ :: l). rewrite Hrun. split.
      * by rewrite <- (assoc_L app).
      * constructor; [|done]. exists tool.
        pose proof (findTool_value _ _ _ Hfind) as Hval.
        split_and!; simpl; try done. by rewrite Hval.
    + right. exists e. split; [done|]. exists id'. split; [by right|done].
Qed.

Lemma validateTools_run E ids (toolStates : string → option bool) w :
  (∃ l, Init.validateTools E ids toolStates w = (Ok l, w)
        ∧ Forall2 (validatedAs E toolStates) ids l)
  ∨ (∃ e, Init.validateTools E ids toolStates w = (Throw e, w)
        ∧ ∃ id, id ∈ ids ∧ ¬ ∃ tool d, validTool E id tool d).
Proof.
  unfold Init.validateTools.
  apply (validateTools_fold E toolStates _ ids [] w).
  - intros acc id w0 tool d Hf Hd. by rewrite Hf, Hd.
  - intros acc id w0 Hbad.
    destruct (findTool E id) as [tool|] eqn:Hf; [|by eexists].
    destruct (truthyDir tool) as [d|] eqn:Hd; [|by eexists].
    exfalso. apply Hbad. exists tool, d. by split.
Qed.

Lemma registered_tool_valid E id :
  NoDup (map value (AI_TOOLS E)) →
  id ∈ getToolsWithSkillsDir E → ∃ tool d, validTool E id tool d.
Proof.
  unfold getToolsWithSkillsDir, validTool, findTool.
  induction (AI_TOOLS E) as [|t ts IH]; intros Hnd Hin;
    [by apply elem_of_nil in Hin|].
  change (map value (t :: ts)) with (value t :: map value ts) in Hnd.
  apply NoDup_cons in Hnd as [Hnew Hnd].
  apply list_elem_of_fmap in Hin as (t' & -> & Hin).
  apply elem_of_List_filter in Hin as [Ht' Hin].
  apply bool_decide_eq_true in Ht' as [d Hd].
  apply elem_of_cons in Hin as [->|Hin].
  - exists t, d. split; [|done]. simpl. by rewrite bool_decide_true.
  - destruct (decide (value t = value t')) as [Heq|Hne].
    + exfalso. apply Hnew. rewrite Heq. apply list_elem_of_fmap. eauto.
    + destruct IH as (tool & d' & Hf & Hd'); [done| |].
      * apply list_elem_of_fmap. exists t'. split; [done|].
        apply elem_of_List_filter. split; [|done].
        apply bool_decide_eq_true. eauto.
      * exists tool, d'. split; [|done]. simpl.
        by rewrite bool_decide_false.
Qed.

(** X12.  [validateTools] is all or nothing and only looks.  It returns
    normally exactly when every id names a registered tool that has a
    skills directory; the result then has one entry per id, in order,
    carrying the tool's name and directory and whether it was configured
    before.  Otherwise it throws.  It never changes the world.  When no
    two registered tools share an id, every id that [--tools] can select
    passes. *)
Theorem X12_validateTools_all_or_nothing :
  ∀ (E : Env) (toolIds : list string) (toolStates : string → option bool)
    (w : World),
    ((∀ id, id ∈ toolIds → ∃ tool d, validTool E id tool d)
     ↔ ∃ l, Init.validateTools E toolIds toolStates w = (Ok l, w))
    ∧ (∀ l w', Init.validateTools E toolIds toolStates w = (Ok l, w') →
         Forall2 (validatedAs E toolStates) toolIds l)
    ∧ (∀ r w', Init.validateTools E toolIds toolStates w = (r, w') →
         w' = w ∧ ∀ k, r ≠ Exit k)
    ∧ (NoDup (map value (AI_TOOLS E)) →
       ∀ id, id ∈ getToolsWithSkillsDir E → ∃ tool d, validTool E id tool d).
Proof.
  intros E ids states w.
  pose proof (validateTools_run E ids states w) as Hfold.
  assert (Hvalid : ∀ l, Forall2 (validatedAs E states) ids l →
                        ∀ id, id ∈ ids → ∃ tool d, validTool E id tool d).
  { intros l Hall id Hid.
    apply list_elem_of_lookup in Hid as [i Hi].
    destruct (Forall2_lookup_l _ _ _ _ _ Hall Hi) as (t & _ & tool & Hf & _ & _ & Hd & _).
    exists tool, (Init.v_skillsDir t). by split. }
  split_and!.
  - split.
    + intros Hall. destruct Hfold as [(l & Hrun & _)|(e & _ & id & Hin & Hbad)].
      * exists l. exact Hrun.
      * exfalso. apply Hbad. by apply Hall.
    + intros [l Hrun]. destruct Hfold as [(l' & Hrun' & Hall)|(e & Hrun' & _)].
      * by apply (Hvalid l').
      * rewrite Hrun in Hrun'. discriminate Hrun'.
  - intros l w' Hrun. destruct Hfold as [(l' & Hrun' & Hall)|(e & Hrun' & _)].
    + rewrite Hrun in Hrun'. injection Hrun' as -> _. exact Hall.
    + rewrite Hrun in Hrun'. discriminate Hrun'.
  - intros r w' Hrun. destruct Hfold as [(l' & Hrun' & _)|(e & Hrun' & _)];
      rewrite Hrun in Hrun'; injection Hrun' as -> ->; by split.
  - intros Hnd id. by apply registered_tool_valid.
Qed.

Lemma X12_witness :
  NoDup (map value (AI_TOOLS Scenario.E))
  ∧ resolveToolsArg plainOps (getToolsWithSkillsDir Scenario.E)
      (Some "claude-internal,,claude,claude-internal")
    = Ok (Some ["claude-internal"; "claude"])
  ∧ ∃ l, Init.validateTools Scenario.E ["claude-internal"; "claude"]
           (λ _, None) Scenario.fresh = (Ok l, Scenario.fresh).
Proof.
  assert (Hnd : NoDup (map value (AI_TOOLS Scenario.E))).
  { apply (bool_decide_unpack (NoDup (map value (AI_TOOLS Scenario.E)))).
    vm_compute. exact I. }
  split; [exact Hnd|]. split; [vm_compute; reflexivity|].
  destruct (X12_validateTools_all_or_nothing Scenario.E
              ["claude-internal"; "claude"] (λ _, None) Scenario.fresh)
    as (Hiff & _ & _ & Hreg).
  apply Hiff. intros id Hid. apply (Hreg Hnd).
  assert (Hav : getToolsWithSkillsDir Scenario.E = ["claude"; "claude-internal"])
    by (vm_compute; reflexivity).
  rewrite Hav. revert Hid. rewrite !elem_of_cons, !elem_of_nil. tauto.
Defined.

(** ** [init]: the project config file *)

Lemma fsWrite_subseteq (p : path) (c : content) (f : FS) :
  f !! p = None → f ⊆ fsWrite p c f.
Proof.
  intros Hp. unfold fsWrite. apply map_subseteq_spec. intros q n Hq.
  rewrite lookup_insert_ne; [|intros ->; congruence].
  eapply lookup_weaken; [exact Hq|apply mkdirp_subseteq].
Qed.

(** X13.  [createConfig] never raises, prints nothing, leaves the global
    config alone and never overwrites or removes anything: every path of
    the tree keeps its node.  It answers [exists] exactly when
    [config.yaml] or [config.yml] is there.  It answers [created] only
    when neither was there and the run could prompt or was forced, and
    then [config.yaml] holds the default schema.  Otherwise, also when the
    write fails, it answers [skipped] and the tree is as before. *)
Theorem X13_createConfig_never_overwrites :
  ∀ (E : Env) (c : Init.InitCommand) (openspecPath : path)
    (extendMode : bool) (w : World),
    let configPath := openspecPath ++ ["config.yaml"] in
    let configYmlPath := openspecPath ++ ["config.yml"] in
    ∃ status w',
      Init.createConfig E c openspecPath extendMode w = (Ok status, w')
      ∧ configFile w' = configFile w
      ∧ console w' = console w
      ∧ fs w ⊆ fs w'
      ∧ (status = Init.Exists
         ↔ existsSync (fs w) configPath = true
           ∨ existsSync (fs w) configYmlPath = true)
      ∧ (status = Init.Created →
           fs w' !! configPath = Some (File (ConfigYaml Init.DEFAULT_SCHEMA))
           ∧ (Init.canPromptInteractively E c = true ∨ Init.force c = true))
      ∧ (status ≠ Init.Created → fs w' = fs w).
Proof.
  intros E c osp ext w configPath configYmlPath.
  unfold Init.createConfig. fold configPath configYmlPath.
  unfold bind at 1. unfold gets. simpl.
  destruct (existsSync (fs w) configPath || existsSync (fs w) configYmlPath) eqn:Hex.
  { exists Init.Exists, w. split_and!; try done.
    split; [intros _; by apply orb_true_iff|done]. }
  apply orb_false_iff in Hex as [Hy Hm].
  destruct (negb (Init.canPromptInteractively E c) && negb (Init.force c)) eqn:Hskip.
  { exists Init.Skipped, w. split_and!; try done.
    split; [done|]. intros [H|H]; congruence. }
  unfold tryCatch, bind, writeFile, attempt.
  destruct (fault E (fs w) (OpWriteFile configPath (ConfigYaml Init.DEFAULT_SCHEMA)))
    as [msg|] eqn:Hflt; simpl.
  - eexists Init.Skipped, _. split; [reflexivity|]. simpl.
    split_and!; try done. split; [done|]. intros [H|H]; congruence.
  - eexists Init.Created, _. split; [reflexivity|]. simpl.
    split_and!; try done.
    + apply fsWrite_subseteq. by apply existsSync_false.
    + split; [done|]. intros [H|H]; congruence.
    + intros _. split; [apply fsWrite_lookup_eq|].
      apply andb_false_iff in Hskip as [H|H]; apply negb_false_iff in H; auto.
Qed.

Lemma wp_setup_write E X w r (s : World * Init.Results)
    (Q : Res unit → World * Init.Results → Prop) :
  setupMid w r s →
  (∀ s', setupMid w r s' → Q (Ok tt) s') →
  (∀ e s', setupThrown e w r s' → Q (Throw e) s') →
  wp (liftW (writeAll E X)) Q s.
Proof.
  intros (Hcf & Hc & Hr & Hf & evs & Htr & Hnw) Hok Hthrow.
  destruct s as [w1 r1]. simpl in *.
  apply wp_liftW, wp_writeAll.
  - intros w2 [_ Hcf2] Htr2 _. apply Hok. split_and!; simpl; try congruence.
    exists (evs ++ doneWrites X). split.
    + by rewrite Htr2, Htr, (assoc_L app).
    + apply noWriteFailure_app; [done|apply noWriteFailure_doneWrites].
  - intros w2 e pre x post _ [_ Hcf2] Htr2 _ _. apply Hthrow.
    split_and!; simpl; try congruence.
    exists (evs ++ doneWrites pre ++ [Failed (OpWriteFile x.1 x.2) e]), x.1, x.2.
    split.
    + by rewrite Htr2, Htr, !(assoc_L app).
    + rewrite !elem_of_app. right. right. left.
Qed.

Lemma wp_setup_removal {A} (m : M World A) (g : A → Init.Results → Init.Results)
    w r (s : World * Init.Results) (Q : Res unit → World * Init.Results → Prop) :
  (∀ (Q' : Res A → World → Prop) w1,
     (∀ k w2, sameShell w1 w2 →
              (∃ evs, trace w2 = trace w1 ++ evs ∧ Forall isDeleteEvent evs) →
              Q' (Ok k) w2) →
     wp m Q' w1) →
  (∀ k r1, Init.createdTools (g k r1) = Init.createdTools r1
           ∧ Init.refreshedTools (g k r1) = Init.refreshedTools r1
           ∧ Init.failedTools (g k r1) = Init.failedTools r1) →
  setupMid w r s →
  (∀ s', setupMid w r s' → Q (Ok tt) s') →
  wp (k <- liftW m ;; setLocals (g k)) Q s.
Proof.
  intros Hm Hg (Hcf & Hc & Hr & Hf & evs & Htr & Hnw) HQ.
  destruct s as [w1 r1]. simpl in *.
  apply wp_bind, wp_liftW, Hm.
  intros k w2 [_ Hcf2] (evs2 & Htr2 & Hdel). simpl.
  apply wp_setLocals, HQ. destruct (Hg k r1) as (G1 & G2 & G3).
  split_and!; simpl; try congruence.
  exists (evs ++ evs2). split.
  - by rewrite Htr2, Htr, (assoc_L app).
  - apply noWriteFailure_app; [done|by apply noWriteFailure_deletes].
Qed.

Lemma wp_setupTool_outcome E P gs gc st cc (t : Init.ValidatedTool) w r :
  wp (Init.setupTool E P gs gc st cc t)
     (λ res s', res = Ok tt ∧ setupOutcome t w r s') (w, r).
Proof.
  unfold Init.setupTool.
  apply wp_bind, wp_emitW. simpl.
  set (tgs := if bool_decide (Init.v_value t = "claude") then false else gs).
  set (tgc := if bool_decide (Init.v_value t = "claude") then true else gc).
  set (w0 := addOut _ w).
  assert (Hmid : setupMid w r (w0, r)).
  { split_and!; try done. exists []. split; [by rewrite app_nil_r|].
    intros e He. by apply elem_of_nil in He. }
  assert (Hcatch : ∀ e s', setupThrown e w r s' →
    wp (liftW (emit (SpinnerFail ("Failed for " +:+ Init.v_name t))) ;;;
        setLocals (Init.pushFailed (Init.v_name t) e))
       (λ res s'', res = Ok tt ∧ setupOutcome t w r s'') s').
  { intros e [w1 r1] (Hcf & Hc & Hr & Hf & evs & p & c & Htr & Hin). simpl in *.
    apply wp_bind, wp_emitW. simpl. apply wp_setLocals.
    split; [done|]. split; [done|]. exists evs. split; [done|]. right.
    exists e, p, c. simpl. split_and!; try done. by rewrite Hf. }
  assert (Hend : ∀ s', setupMid w r s' →
    wp (liftW (emit (SpinnerSucceed ("Setup complete for " +:+ Init.v_name t))) ;;;
        (if Init.wasConfigured t then setLocals (Init.pushRefreshed t)
         else setLocals (Init.pushCreated t)))
       (λ res s'', match res with
                   | Ok _ => setupOutcome t w r s''
                   | Throw e => setupThrown e w r s''
                   | Exit _ => False
                   end) s').
  { intros [w1 r1] (Hcf & Hc & Hr & Hf & evs & Htr & Hnw). simpl in *.
    apply wp_bind, wp_emitW. simpl.
    destruct (Init.wasConfigured t) eqn:Hwas; apply wp_setLocals;
      cbn beta iota; unfold setupOutcome; rewrite Hwas; simpl;
      (split; [done|]); exists evs; (split; [done|]); left;
      rewrite ?app_nil_r; split_and!; first [done|congruence]. }
  apply wp_tryCatch.
  apply (wp_mono _ (λ res s', match res with
                              | Ok _ => setupOutcome t w r s'
                              | Throw e => setupThrown e w r s'
                              | Exit _ => False
                              end)).
  2:{ intros [[]|e|k] s' H; [by split|by apply Hcatch|done]. }
  (* the phases *)
  assert (Hrm : ∀ s (Q : Res unit → World * Init.Results → Prop),
    setupMid w r s → (∀ s', setupMid w r s' → Q (Ok tt) s') →
    wp (k <- liftW (removeSkillDirs E (P ++ [Init.v_skillsDir t; "skills"])) ;;
        setLocals (Init.addRemovedSkills k)) Q s).
  { intros s Q Hs HQ. eapply wp_setup_removal; [|done|exact Hs|exact HQ].
    intros Q' w1 HQ'. apply wp_removeSkillDirs.
    intros k w2 (Hsh & _ & _ & Hev) _. by apply HQ'. }
  assert (Hun : ∀ s (Q : Res unit → World * Init.Results → Prop),
    setupMid w r s → (∀ s', setupMid w r s' → Q (Ok tt) s') →
    wp (k <- liftW (removeCommandFiles E P (Init.v_value t)) ;;
        setLocals (Init.addRemovedCommands k)) Q s).
  { intros s Q Hs HQ. eapply wp_setup_removal; [|done|exact Hs|exact HQ].
    intros Q' w1 HQ'. apply wp_removeCommandFiles.
    intros k w2 (Hsh & _ & _ & Hev) _. by apply HQ'. }
  assert (Hcmd : ∀ s (Q : Res unit → World * Init.Results → Prop),
    setupMid w r s → (∀ s', setupMid w r s' → Q (Ok tt) s') →
    (∀ e s', setupThrown e w r s' → Q (Throw e) s') →
    wp (match CommandAdapterRegistry_get E (Init.v_value t) with
        | Some adapter =>
          liftW (Update.writeCommands E P (generateCommands cc adapter))
        | None => setLocals (Init.pushSkipped (Init.v_value t))
        end) Q s).
  { intros s Q Hs HQ HT.
    destruct (CommandAdapterRegistry_get E (Init.v_value t)) as [a|].
    - rewrite writeCommands_writeAll. by eapply wp_setup_write.
    - destruct s as [w1 r1]. apply wp_setLocals, HQ.
      destruct Hs as (Hcf & Hc & Hr & Hf & Hev). by split_and!. }
  destruct tgs, tgc; simpl.
  - apply wp_bind. rewrite writeSkills_writeAll.
    eapply wp_setup_write; [exact Hmid| |by intros].
    intros s1 H1. simpl. apply wp_bind, wp_ret. simpl. apply wp_bind.
    apply Hcmd; [done| |by intros].
    intros s2 H2. simpl. apply wp_bind, wp_ret. simpl. by apply Hend.
  - apply wp_bind. rewrite writeSkills_writeAll.
    eapply wp_setup_write; [exact Hmid| |by intros].
    intros s1 H1. simpl. apply wp_bind, wp_ret. simpl.
    apply wp_bind, wp_ret. simpl. apply wp_bind.
    apply Hun; [done|]. intros s2 H2. simpl. by apply Hend.
  - apply wp_bind, wp_ret. simpl. apply wp_bind.
    apply Hrm; [done|]. intros s1 H1. simpl. apply wp_bind.
    apply Hcmd; [done| |by intros].
    intros s2 H2. simpl. apply wp_bind, wp_ret. simpl. by apply Hend.
  - apply wp_bind, wp_ret. simpl. apply wp_bind.
    apply Hrm; [done|]. intros s1 H1. simpl.
    apply wp_bind, wp_ret. simpl. apply wp_bind.
    apply Hun; [done|]. intros s2 H2. simpl. by apply Hend.
Qed.

Lemma setupLoop_step w done t s s' :
  setupLoop w done s → setupOutcome t s.1 s.2 s' →
  setupLoop w (done ++ [t]) s'.
Proof.
  intros (Hcf & Hlen & Hc & Hr & evs & Htr & Hf & Hnone)
         (Hcf' & evs' & Htr' & Hcase).
  unfold setupLoop. rewrite length_app. simpl.
  destruct Hcase as [(Hnw & Hf' & Hc' & Hr')|(e & p & c & Hin & Hf' & Hc' & Hr')].
  - split_and!.
    + congruence.
    + rewrite Hf', Hc', Hr', !length_app.
      destruct (Init.wasConfigured t); simpl; lia.
    + intros t' Ht'. rewrite Hc' in Ht'. rewrite elem_of_app.
      apply elem_of_app in Ht' as [Ht'|Ht'].
      * destruct (Hc t' Ht'). auto.
      * destruct (Init.wasConfigured t) eqn:Hwas; [by apply elem_of_nil in Ht'|].
        apply list_elem_of_singleton in Ht' as ->. split; [right; left|done].
    + intros t' Ht'. rewrite Hr' in Ht'. rewrite elem_of_app.
      apply elem_of_app in Ht' as [Ht'|Ht'].
      * destruct (Hr t' Ht'). auto.
      * destruct (Init.wasConfigured t) eqn:Hwas; [|by apply elem_of_nil in Ht'].
        apply list_elem_of_singleton in Ht' as ->. split; [right; left|done].
    + exists (evs ++ evs'). split_and!.
      * by rewrite Htr', Htr, (assoc_L app).
      * intros n e Hne. rewrite Hf' in Hne.
        destruct (Hf n e Hne) as (t' & p & c & Ht' & -> & Hev).
        exists t', p, c. rewrite !elem_of_app. auto.
      * intros Hnw'. rewrite Hf'. apply Hnone.
        intros e He. apply Hnw'. apply elem_of_app. by left.
  - split_and!.
    + congruence.
    + rewrite Hf', Hc', Hr', !length_app. simpl. lia.
    + intros t' Ht'. rewrite Hc' in Ht'. rewrite elem_of_app.
      destruct (Hc t' Ht'). auto.
    + intros t' Ht'. rewrite Hr' in Ht'. rewrite elem_of_app.
      destruct (Hr t' Ht'). auto.
    + exists (evs ++ evs'). split_and!.
      * by rewrite Htr', Htr, (assoc_L app).
      * intros n e' Hne. rewrite Hf' in Hne.
        apply elem_of_app in Hne as [Hne|Hne].
        -- destruct (Hf n e' Hne) as (t' & p' & c' & Ht' & -> & Hev).
           exists t', p', c'. rewrite !elem_of_app. auto.
        -- apply list_elem_of_singleton in Hne as [= -> ->].
           exists t, p, c. rewrite !elem_of_app. split_and!; auto.
           right. left.
      * intros Hnw'. exfalso.
        apply (Hnw' (Failed (OpWriteFile p c) e)). apply elem_of_app. by right.
Qed.

(** X14.  In [init] a tool that fails does not stop the others.  With a
    valid [--profile], [generateSkillsAndCommands] returns normally
    whatever file operation fails and leaves the global config alone.
    Every tool ends in exactly one of the three lists: created tools were
    not configured before, refreshed tools were, and a tool is listed as
    failed only with the message of a write that failed during the call.
    When no write fails, no tool is listed as failed. *)
Theorem X14_init_failures_are_per_tool :
  ∀ (E : Env) (c : Init.InitCommand) (projectPath : path)
    (tools : list Init.ValidatedTool) (w : World),
    validOverride c →
    ∃ r w', Init.generateSkillsAndCommands E c projectPath tools w = (Ok r, w')
            ∧ setupLoop w tools (w', r).
Proof.
  intros E c P tools w Hvalid.
  enough (Hwp : wp (Init.generateSkillsAndCommands E c P tools)
    (λ res w', ∃ r, res = Ok r ∧ setupLoop w tools (w', r)) w).
  { apply wp_run in Hwp as (res & w' & Hrun & r & -> & H). eauto. }
  unfold Init.generateSkillsAndCommands.
  apply wp_bind, wp_gets. simpl.
  apply wp_bind. eapply wp_of_run; [by apply resolveProfileOverride_valid|]. simpl.
  apply wp_bind, wp_withLocals.
  apply (wp_forEach _ _ (λ done s, setupLoop w done s)).
  - split_and!; simpl; try done.
    + intros t Ht. by apply elem_of_nil in Ht.
    + intros t Ht. by apply elem_of_nil in Ht.
    + exists []. split_and!; [by rewrite app_nil_r| |done].
      intros n e Hne. by apply elem_of_nil in Hne.
  - intros done t rest [w1 r1] _ Hinv.
    eapply wp_mono; [apply wp_setupTool_outcome|].
    intros res s' [-> Hout]. by eapply setupLoop_step.
  - intros [w1 r1] Hinv. simpl. apply wp_ret. eauto.
Qed.

Lemma X14_witness :
  validOverride Scenario.initClaude
  ∧ ∃ r w',
      Init.generateSkillsAndCommands (Sample.env "1.0.0" Scenario.claudeDenied)
        Scenario.initClaude Sample.project [Scenario.claude] Scenario.fresh
      = (Ok r, w')
      ∧ length (Init.createdTools r) + length (Init.refreshedTools r)
        + length (Init.failedTools r) = 1.
Proof.
  assert (Hvalid : validOverride Scenario.initClaude) by (vm_compute; exact I).
  split; [exact Hvalid|].
  destruct (X14_init_failures_are_per_tool
              (Sample.env "1.0.0" Scenario.claudeDenied) Scenario.initClaude
              Sample.project [Scenario.claude] Scenario.fresh Hvalid)
    as (r & w' & Hrun & _ & Hlen & _).
  exists r, w'. split; [exact Hrun|exact Hlen].
Defined.

(** ** [init] and the skills of [claude] *)

(** X15.  For the tool [claude], [init] removes the skill directories of
    the whole catalog, whatever the delivery: when no file operation fails
    and the command files of the tool lie outside these directories, none
    of the seven directories is left under the tool's skills root after
    its iteration, also under delivery [skills] or [both]. *)
Theorem X15_init_removes_the_skills_of_claude :
  ∀ (E : Env) (projectPath : path) (shouldGenerateSkills shouldGenerateCommands : bool)
    (skillTemplates : list SkillTemplateEntry) (commandContents : list string)
    (t : Init.ValidatedTool) (w : World) (r : Init.Results),
    noFaults E →
    Init.v_value t = "claude" →
    (∀ pc wf dn, pc ∈ commandWrites E projectPath "claude" commandContents →
                 tableGet WORKFLOW_TO_SKILL_DIR wf = Some dn →
                 ¬ ((projectPath ++ [Init.v_skillsDir t; "skills"]) ++ [dn])
                     `prefix_of` pc.1) →
    ∃ s',
      Init.setupTool E projectPath shouldGenerateSkills shouldGenerateCommands
        skillTemplates commandContents t (w, r) = (Ok tt, s')
      ∧ ∀ wf dn, wf ∈ ALL_WORKFLOWS →
                 tableGet WORKFLOW_TO_SKILL_DIR wf = Some dn →
                 fs s'.1 !! ((projectPath ++ [Init.v_skillsDir t; "skills"]) ++ [dn])
                 = None.
Proof.
  intros E P gs gc st cc t w r Hnf Hclaude Hout.
  set (gone := λ f : FS, ∀ wf dn, wf ∈ ALL_WORKFLOWS →
                 tableGet WORKFLOW_TO_SKILL_DIR wf = Some dn →
                 f !! ((P ++ [Init.v_skillsDir t; "skills"]) ++ [dn]) = None).
  enough (Hwp : wp (Init.setupTool E P gs gc st cc t)
            (λ res s', res = Ok tt ∧ gone (fs s'.1)) (w, r)).
  { apply wp_run in Hwp as (res & s' & Hrun & -> & H). eauto. }
  unfold Init.setupTool.
  apply wp_bind, wp_emitW. simpl.
  rewrite (bool_decide_true _ Hclaude). simpl.
  apply wp_tryCatch.
  apply (wp_mono _ (λ res s', res = Ok tt ∧ gone (fs s'.1))).
  2:{ by intros [[]|e|k] s' [H1 H2]. }
  apply wp_bind, wp_ret. simpl. apply wp_bind.
  apply wp_removeSkillDirs_nofault; [done|]. intros [w1 r1] _ Habs. simpl in *.
  assert (Hend : ∀ s', gone (fs s'.1) →
    wp (ret tt ;;;
        liftW (emit (SpinnerSucceed ("Setup complete for " +:+ Init.v_name t))) ;;;
        (if Init.wasConfigured t then setLocals (Init.pushRefreshed t)
         else setLocals (Init.pushCreated t)))
       (λ res s'', res = Ok tt ∧ gone (fs s''.1)) s').
  { intros [w2 r2] H. apply wp_bind, wp_ret. simpl.
    apply wp_bind, wp_emitW. simpl.
    destruct (Init.wasConfigured t); by apply wp_setLocals. }
  apply wp_bind.
  destruct (CommandAdapterRegistry_get E (Init.v_value t)) as [a|] eqn:Ha.
  - rewrite writeCommands_writeAll.
    apply wp_writeAll_nofault; [done|]. intros w2 Hfs. simpl.
    apply Hend. simpl. intros wf dn Hwf Hdn. rewrite Hfs.
    apply writeTree_lookup_None; [by eapply Habs|].
    intros pc Hpc. eapply Hout; [|exact Hdn].
    unfold commandWrites. rewrite <- Hclaude, Ha. exact Hpc.
  - apply wp_setLocals. simpl. apply Hend. exact Habs.
Qed.

Lemma X15_witness :
  noFaults Scenario.E
  ∧ ∃ s',
      Init.setupTool Scenario.E Sample.project true true
        (getSkillTemplates (Some ["explore"])) (getCommandContents (Some ["explore"]))
        Scenario.claude (Scenario.narrowed, Init.mkResults [] [] [] [] 0 0)
      = (Ok tt, s')
      ∧ fs s'.1 !! (Sample.project ++ [".claude"; "skills"; "openspec-explore"]) = None.
Proof.
  assert (Hnf : noFaults Scenario.E) by (intros f op; reflexivity).
  split; [exact Hnf|].
  destruct (X15_init_removes_the_skills_of_claude Scenario.E Sample.project
              true true (getSkillTemplates (Some ["explore"]))
              (getCommandContents (Some ["explore"])) Scenario.claude
              Scenario.narrowed (Init.mkResults [] [] [] [] 0 0) Hnf eq_refl)
    as (s' & Hrun & Hgone).
  - intros pc wf dn Hpc _ [k Hk]. vm_compute in Hpc.
    apply list_elem_of_singleton in Hpc as ->. vm_compute in Hk. discriminate Hk.
  - exists s'. split; [exact Hrun|].
    apply (Hgone "explore" "openspec-explore"); [|reflexivity].
    unfold ALL_WORKFLOWS. rewrite !elem_of_cons. tauto.
Defined.

(** ** [init]: refusing before anything is done *)

(** X16.  [init] refuses up front.  When the target path is a file, the
    CLI action throws before an [InitCommand] is built; when the project
    cannot be written to, [execute] throws in its first step, before the
    legacy check, the migration and any prompt.  In both cases the tree,
    the global config and the record of operations are untouched, the CLI
    prints an empty line and the error, and exits with code 1. *)
Theorem X16_init_refuses_up_front :
  ∀ (E : Env) (c : Init.InitCommand) (targetPath : path) (w : World),
    (∀ content, fs w !! targetPath = Some (File content) →
       Cli.init E c targetPath w
       = (1, addOut (SpinnerFail ("Error: Path " +:+ dq +:+ Init.showPath targetPath
                                  +:+ dq +:+ " is not a directory"))
               (addOut (ConsoleLog "") w)))
    ∧ (ensureWritePermissions E (fs w) targetPath = false →
       Init.execute E c targetPath w
       = (Throw ("Insufficient permissions to write to "
                 +:+ Init.showPath targetPath), w)
       ∧ (fs w !! targetPath = Some Dir →
          Cli.init E c targetPath w
          = (1, addOut (SpinnerFail ("Error: Insufficient permissions to write to "
                                     +:+ Init.showPath targetPath))
                  (addOut (ConsoleLog "") w)))).
Proof.
  intros E c P w. split.
  - intros content Hfile. unfold Cli.init, Cli.runAction, bind, gets. simpl.
    by rewrite Hfile.
  - intros Hperm.
    assert (Hexec : Init.execute E c P w
      = (Throw ("Insufficient permissions to write to " +:+ Init.showPath P), w)).
    { unfold Init.execute, Init.beforeProfile, Init.validate, bind, gets. simpl.
      by rewrite Hperm. }
    split; [exact Hexec|]. intros Hdir.
    unfold Cli.init, Cli.runAction, bind, gets, ret. simpl. rewrite Hdir.
    by rewrite Hexec.
Qed.

Lemma X16_witness :
  fs Cases.onFile !! Sample.project = Some (File (OtherContent None))
  ∧ (Cli.init Scenario.E Scenario.initClaude Sample.project Cases.onFile).1 = 1
  ∧ fs (Cli.init Scenario.E Scenario.initClaude Sample.project Cases.onFile).2
    = fs Cases.onFile.
Proof.
  assert (H : fs Cases.onFile !! Sample.project = Some (File (OtherContent None)))
    by (vm_compute; reflexivity).
  split; [exact H|].
  rewrite (proj1 (X16_init_refuses_up_front Scenario.E Scenario.initClaude
                    Sample.project Cases.onFile) _ H).
  split; reflexivity.
Defined.

Section Yaml.

Import ClaudeInternal.

Lemma escape_passes (v : text) :
  replaceAll LF [BACKSLASH; 110%N]
    (replaceAll QUOTE [BACKSLASH; QUOTE]
       (replaceAll BACKSLASH [BACKSLASH; BACKSLASH] v))
  = flat_map escapeUnit v.
Proof.
  unfold replaceAll. induction v as [|c v IH]; [done|].
  simpl. rewrite !flat_map_app, IH. f_equal.
  unfold escapeUnit.
  destruct (c =? BACKSLASH)%N eqn:Hb; [reflexivity|].
  simpl. destruct (c =? QUOTE)%N eqn:Hq; [reflexivity|].
  simpl. destruct (c =? LF)%N eqn:Hl; reflexivity.
Qed.

Lemma escapeUnit_no_LF c x : x ∈ escapeUnit c → x ≠ LF.
Proof.
  unfold escapeUnit.
  destruct (c =? BACKSLASH)%N eqn:Hb.
  { rewrite !elem_of_cons, elem_of_nil. intros [->|[->|[]]]; done. }
  destruct (c =? QUOTE)%N eqn:Hq.
  { rewrite !elem_of_cons, elem_of_nil. intros [->|[->|[]]]; done. }
  destruct (c =? LF)%N eqn:Hl.
  { rewrite !elem_of_cons, elem_of_nil. intros [->|[->|[]]]; done. }
  rewrite list_elem_of_singleton. intros ->. by apply N.eqb_neq in Hl.
Qed.

Lemma escapeUnit_inj c1 c2 (r1 r2 : text) :
  escapeUnit c1 ++ r1 = escapeUnit c2 ++ r2 → c1 = c2 ∧ r1 = r2.
Proof.
  unfold escapeUnit.
  destruct (c1 =? BACKSLASH)%N eqn:Hb1, (c2 =? BACKSLASH)%N eqn:Hb2;
  destruct (c1 =? QUOTE)%N eqn:Hq1, (c2 =? QUOTE)%N eqn:Hq2;
  destruct (c1 =? LF)%N eqn:Hl1, (c2 =? LF)%N eqn:Hl2;
  repeat match goal with
         | H : (_ =? _)%N = true |- _ => apply N.eqb_eq in H
         | H : (_ =? _)%N = false |- _ => apply N.eqb_neq in H
         end;
  simpl; intros Heq; simplify_eq; try done.
Qed.

Lemma flat_map_escapeUnit_inj (a b : text) :
  flat_map escapeUnit a = flat_map escapeUnit b → a = b.
Proof.
  revert b. induction a as [|x a IH]; intros [|y b]; simpl.
  - done.
  - intros H. exfalso. unfold escapeUnit in H.
    destruct (y =? BACKSLASH)%N, (y =? QUOTE)%N, (y =? LF)%N; done.
  - intros H. exfalso. unfold escapeUnit in H.
    destruct (x =? BACKSLASH)%N, (x =? QUOTE)%N, (x =? LF)%N; done.
  - intros H. apply escapeUnit_inj in H as [-> H]. f_equal. by apply IH.
Qed.

Lemma plain_has_no_quote (v : text) :
  needsQuoting v = false → QUOTE ∉ v.
Proof.
  unfold needsQuoting. intros H Hin.
  apply orb_false_iff in H as [H _]. apply orb_false_iff in H as [H _].
  assert (Hex : existsb isSpecial v = true).
  { apply existsb_exists. exists QUOTE. split; [by apply list_elem_of_In|].
    reflexivity. }
  congruence.
Qed.

Lemma quoted_has_no_LF (v : text) :
  needsQuoting v = true → LF ∉ escapeYamlValue v.
Proof.
  intros H. unfold escapeYamlValue. rewrite H. cbv zeta. rewrite escape_passes.
  intros Hin.
  apply elem_of_app in Hin as [Hin|Hin].
  { apply list_elem_of_singleton in Hin. done. }
  apply elem_of_app in Hin as [Hin|Hin].
  2:{ apply list_elem_of_singleton in Hin. done. }
  apply list_elem_of_In, in_flat_map in Hin as (c & _ & Hc).
  apply list_elem_of_In in Hc. by apply escapeUnit_no_LF in Hc.
Qed.

(** X17.  The three replacements of [escapeYamlValue] act as one pass over
    the code units: a backslash, a double quote and a line feed become a
    backslash followed by a backslash, a double quote and the letter n,
    every other unit is kept, and no replacement touches what another has
    produced.  A value without special characters and without white space
    at its ends is returned as it is; any other value is returned between
    double quotes, and what is returned then contains no line feed. *)
Theorem X17_escapeYamlValue_is_one_pass :
  ∀ value : text,
    (needsQuoting value = false → escapeYamlValue value = value)
    ∧ (needsQuoting value = true →
       escapeYamlValue value = [QUOTE] ++ flat_map escapeUnit value ++ [QUOTE]
       ∧ LF ∉ escapeYamlValue value).
Proof.
  intros v. split.
  - intros H. unfold escapeYamlValue. by rewrite H.
  - intros H.
    assert (Heq : escapeYamlValue v = [QUOTE] ++ flat_map escapeUnit v ++ [QUOTE]).
    { unfold escapeYamlValue. rewrite H. cbv zeta. by rewrite escape_passes. }
    split; [exact Heq|]. by apply quoted_has_no_LF.
Qed.

Lemma X17_witness :
  needsQuoting (lit "a: b") = true
  ∧ escapeYamlValue (lit "a: b") = [QUOTE] ++ lit "a: b" ++ [QUOTE].
Proof.
  assert (H : needsQuoting (lit "a: b") = true) by (vm_compute; reflexivity).
  split; [exact H|].
  rewrite (proj1 (proj2 (X17_escapeYamlValue_is_one_pass (lit "a: b")) H)).
  reflexivity.
Defined.

(** X18.  [escapeYamlValue] loses nothing: two different values never get
    the same text. *)
Theorem X18_escapeYamlValue_is_injective :
  ∀ a b : text, escapeYamlValue a = escapeYamlValue b → a = b.
Proof.
  intros a b. unfold escapeYamlValue.
  destruct (needsQuoting a) eqn:Ha, (needsQuoting b) eqn:Hb; cbv zeta;
    rewrite ?escape_passes.
  - intros H. injection H as H. apply app_inv_tail in H.
    by apply flat_map_escapeUnit_inj.
  - intros H. exfalso. apply (plain_has_no_quote b Hb).
    rewrite <- H. left.
  - intros H. exfalso. apply (plain_has_no_quote a Ha).
    rewrite H. left.
  - done.
Qed.

Lemma X18_witness :
  escapeYamlValue (lit "a: b" ++ [LF]) = escapeYamlValue (lit "a: b" ++ [LF])
  ∧ lit "a: b" ++ [LF] = lit "a: b" ++ [LF].
Proof.
  split; [reflexivity|].
  apply (X18_escapeYamlValue_is_injective (lit "a: b" ++ [LF])
           (lit "a: b" ++ [LF])).
  reflexivity.
Defined.

Lemma plain_has_no_LF (v : text) : needsQuoting v = false → LF ∉ v.
Proof.
  unfold needsQuoting. intros H Hin.
  apply orb_false_iff in H as [H _]. apply orb_false_iff in H as [H _].
  assert (Hex : existsb isSpecial v = true).
  { apply existsb_exists. exists LF. split; [by apply list_elem_of_In|].
    reflexivity. }
  congruence.
Qed.

Lemma escapeYamlValue_no_LF (v : text) : LF ∉ escapeYamlValue v.
Proof.
  destruct (needsQuoting v) eqn:H.
  - apply (quoted_has_no_LF v H).
  - unfold escapeYamlValue. rewrite H. by apply plain_has_no_LF.
Qed.

Lemma join_no_LF (sep : text) (parts : list text) :
  LF ∉ sep → (∀ p, p ∈ parts → LF ∉ p) → LF ∉ join sep parts.
Proof.
  intros Hsep. induction parts as [|p rest IH]; intros Hparts.
  - simpl. apply not_elem_of_nil.
  - assert (Hp : LF ∉ p) by (apply Hparts; left).
    assert (Hrest : LF ∉ join sep rest).
    { apply IH. intros q Hq. apply Hparts. by right. }
    destruct rest as [|q rest]; [exact Hp|].
    change (join sep (p :: q :: rest)) with (p ++ sep ++ join sep (q :: rest)).
    rewrite !not_elem_of_app. auto.
Qed.

Lemma no_LF_by_test (s : text) :
  forallb (λ c, negb (c =? LF)%N) s = true → LF ∉ s.
Proof.
  intros H Hin. rewrite forallb_forall in H.
  apply list_elem_of_In, H in Hin. by rewrite N.eqb_refl in Hin.
Qed.

Lemma formatTagsArray_no_LF (tags : list text) : LF ∉ formatTagsArray tags.
Proof.
  unfold formatTagsArray. cbv zeta. rewrite !not_elem_of_app. split_and!.
  - by apply no_LF_by_test.
  - apply join_no_LF.
    + by apply no_LF_by_test.
    + intros p Hp. apply list_elem_of_In, in_map_iff in Hp as (t & <- & _).
      apply escapeYamlValue_no_LF.
  - by apply no_LF_by_test.
Qed.

Lemma lineFeeds_app a b : lineFeeds (a ++ b) = lineFeeds a + lineFeeds b.
Proof. unfold lineFeeds. by rewrite List.filter_app, length_app. Qed.

Lemma lineFeeds_none a : LF ∉ a → lineFeeds a = 0.
Proof.
  unfold lineFeeds. induction a as [|c a IH]; intros H; [done|].
  simpl. apply not_elem_of_cons in H as [Hc Ha].
  destruct (c =? LF)%N eqn:Heq; [by apply N.eqb_eq in Heq|]. by apply IH.
Qed.

(** X19.  No name, description, category or tag can add a line to the
    front matter of a command file by a line feed: the file is a header
    followed by the body and a final line feed, and the header has exactly
    seven line feeds whatever the metadata contains. *)
Theorem X19_front_matter_has_a_fixed_number_of_lines :
  ∀ content : CommandContent,
    formatFile content = header content ++ c_body content ++ [LF]
    ∧ lineFeeds (header content) = 7.
Proof.
  intros content. split.
  - unfold formatFile, header. by rewrite <- !(assoc_L app).
  - unfold header. rewrite !lineFeeds_app.
    rewrite (lineFeeds_none _ (escapeYamlValue_no_LF (c_name content))).
    rewrite (lineFeeds_none _ (escapeYamlValue_no_LF (c_description content))).
    rewrite (lineFeeds_none _ (escapeYamlValue_no_LF (c_category content))).
    rewrite (lineFeeds_none _ (formatTagsArray_no_LF (c_tags content))).
    reflexivity.
Qed.

End Yaml.

Lemma mkdirp_lookup_ne (d : path) (f : FS) (q : path) :
  ¬ q `prefix_of` d → mkdirp d f !! q = f !! q.
Proof.
  intros Hq. destruct (f !! q) as [v|] eqn:Hv.
  - by apply (lookup_weaken _ _ _ _ Hv), mkdirp_subseteq.
  - by apply mkdirp_lookup_None.
Qed.

Lemma fsWrite_lookup_ne (p : path) (c : content) (f : FS) (q : path) :
  ¬ q `prefix_of` p → fsWrite p c f !! q = f !! q.
Proof.
  intros Hq. destruct (f !! q) as [v|] eqn:Hv.
  - unfold fsWrite. rewrite lookup_insert_ne.
    + by apply (lookup_weaken _ _ _ _ Hv), mkdirp_subseteq.
    + intros ->. by apply Hq.
  - by apply fsWrite_lookup_None.
Qed.

Lemma writeTree_lookup_ne (l : list (path * content)) (f : FS) (q : path) :
  (∀ pc, pc ∈ l → ¬ q `prefix_of` pc.1) → writeTree l f !! q = f !! q.
Proof.
  unfold writeTree. revert f. induction l as [|pc l IH]; intros f H; [done|].
  simpl. rewrite IH.
  - apply fsWrite_lookup_ne, H. left.
  - intros pc' Hpc'. apply H. by right.
Qed.

Lemma removalOutcome_untouched (R : path → Prop) w w' q :
  removalOutcome R w w' → ¬ R q → fs w' !! q = fs w !! q.
Proof.
  intros (_ & Hsub & Hkeep & _) HR.
  destruct (fs w !! q) as [v|] eqn:Hv.
  - destruct (Hkeep q) as [[v' Hv']|H]; [by rewrite Hv| |done].
    rewrite Hv'. f_equal.
    pose proof (lookup_weaken _ _ _ _ Hv' Hsub) as H. congruence.
  - destruct (fs w' !! q) as [v'|] eqn:Hv'; [|done].
    pose proof (lookup_weaken _ _ _ _ Hv' Hsub) as H. congruence.
Qed.

Section Frame.
Context {L : Type} (E : Env) (T : path → Prop) (f0 : FS).

Lemma wp_frame_write (X : list (path * content))
    (Q : Res unit → World * L → Prop) (s : World * L) :
  (∀ pc q, pc ∈ X → q `prefix_of` pc.1 → T q) →
  sameOutside T f0 (fs s.1) →
  (∀ s', sameOutside T f0 (fs s'.1) → Q (Ok tt) s') →
  (∀ e s', sameOutside T f0 (fs s'.1) → Q (Throw e) s') →
  wp (liftW (writeAll E X)) Q s.
Proof.
  intros HX HJ HQ1 HQ2. destruct s as [w1 l1]. simpl in *.
  apply wp_liftW, wp_writeAll.
  - intros w2 _ _ Hfs. apply HQ1. simpl. intros q Hq.
    rewrite Hfs, writeTree_lookup_ne; [by apply HJ|].
    intros pc Hpc Hpre. apply Hq. by eapply HX.
  - intros w2 e pre x post -> _ _ Hfs _. apply HQ2. simpl. intros q Hq.
    rewrite Hfs, writeTree_lookup_ne; [by apply HJ|].
    intros pc Hpc Hpre. apply Hq. eapply HX; [|done].
    apply elem_of_app. by left.
Qed.

Lemma wp_frame_rm (skillsDir : path) (g : nat → L → L)
    (Q : Res unit → World * L → Prop) (s : World * L) :
  (∀ q, underSkillDir skillsDir q → T q) →
  sameOutside T f0 (fs s.1) →
  (∀ s', sameOutside T f0 (fs s'.1) → Q (Ok tt) s') →
  wp (k <- liftW (removeSkillDirs E skillsDir) ;; setLocals (g k)) Q s.
Proof.
  intros HT HJ HQ. destruct s as [w1 l1]. simpl in *.
  apply wp_bind, wp_liftW, wp_removeSkillDirs.
  intros k w2 Hout _. simpl. apply wp_setLocals. apply HQ. simpl.
  intros q Hq. rewrite (removalOutcome_untouched _ _ _ q Hout); [by apply HJ|].
  intros H. by apply Hq, HT.
Qed.

Lemma wp_frame_unlink (P : path) (toolId : string) (g : nat → L → L)
    (Q : Res unit → World * L → Prop) (s : World * L) :
  (∀ q, isCommandPath E P toolId q → T q) →
  sameOutside T f0 (fs s.1) →
  (∀ s', sameOutside T f0 (fs s'.1) → Q (Ok tt) s') →
  wp (k <- liftW (removeCommandFiles E P toolId) ;; setLocals (g k)) Q s.
Proof.
  intros HT HJ HQ. destruct s as [w1 l1]. simpl in *.
  apply wp_bind, wp_liftW, wp_removeCommandFiles.
  intros k w2 Hout _. simpl. apply wp_setLocals. apply HQ. simpl.
  intros q Hq. rewrite (removalOutcome_untouched _ _ _ q Hout); [by apply HJ|].
  intros H. by apply Hq, HT.
Qed.

End Frame.

Lemma wp_updateTool_frame E P gs gc st cc toolId tool d w l :
  findTool E toolId = Some tool →
  truthyDir tool = Some d →
  wp (Update.updateTool E P gs gc st cc toolId)
     (λ r s', r = Ok tt
              ∧ sameOutside (touchedBy E P gs gc st cc toolId tool d)
                  (fs w) (fs s'.1))
     (w, l).
Proof.
  intros Hfind Hdir. unfold Update.updateTool. rewrite Hfind, Hdir.
  set (T := touchedBy E P gs gc st cc toolId tool d).
  apply wp_bind, wp_emitW. simpl. apply wp_tryCatch.
  apply (wp_mono _ (λ r s', (∀ k, r ≠ Exit k) ∧ sameOutside T (fs w) (fs s'.1))).
  2:{ intros [[]|e|k] [w1 l1] [H1 H2]; [done| |by destruct (H1 k)].
      apply wp_bind, wp_emitW. simpl. by apply wp_setLocals. }
  assert (Hend : ∀ s', sameOutside T (fs w) (fs s'.1) →
    wp (liftW (emit (SpinnerSucceed ("Updated " +:+ name tool))) ;;;
        setLocals (Update.pushUpdated (name tool)))
       (λ r s', (∀ k, r ≠ Exit k) ∧ sameOutside T (fs w) (fs s'.1)) s').
  { intros [w1 l1] H. apply wp_bind, wp_emitW. simpl. by apply wp_setLocals. }
  assert (Hthrow : ∀ e (s' : World * Update.Locals),
    sameOutside T (fs w) (fs s'.1) →
    (∀ k, Throw (A := unit) e ≠ Exit k) ∧ sameOutside T (fs w) (fs s'.1)).
  { intros e s' H. by split. }
  assert (Hstart : sameOutside T (fs w)
            (fs (addOut (SpinnerStart ("Updating " +:+ name tool +:+ "...")) w, l).1)).
  { by intros q _. }
  assert (Hsk : gs = true → ∀ pc q,
    pc ∈ skillWrites E (P ++ [d; "skills"]) (value tool) st →
    q `prefix_of` pc.1 → T q).
  { intros -> pc q Hpc Hq. right. exists pc. split; [|done].
    unfold requestedWrites. apply elem_of_app. by left. }
  assert (Hcm : gc = true → ∀ pc q,
    pc ∈ commandWrites E P (value tool) cc → q `prefix_of` pc.1 → T q).
  { intros -> pc q Hpc Hq. right. exists pc. split; [|done].
    unfold requestedWrites. apply elem_of_app. by right. }
  assert (Hrm : gs = false → ∀ q, underSkillDir (P ++ [d; "skills"]) q → T q).
  { intros -> q Hq. left. left. done. }
  assert (Hun : gc = false → ∀ q, isCommandPath E P toolId q → T q).
  { intros -> q Hq. left. right. done. }
  destruct gs, gc; simpl.
  - apply wp_bind. rewrite writeSkills_writeAll.
    apply (wp_frame_write E T (fs w)); [by apply Hsk|done| |by apply Hthrow].
    intros s1 H1. simpl. apply wp_bind, wp_ret. simpl. apply wp_bind.
    destruct (CommandAdapterRegistry_get E (value tool)) as [a|] eqn:Ha.
    + rewrite writeCommands_writeAll, (commandWrites_adapter _ _ _ _ _ Ha).
      apply (wp_frame_write E T (fs w)); [by apply Hcm|done| |by apply Hthrow].
      intros s2 H2. simpl. apply wp_bind, wp_ret. simpl. by apply Hend.
    + apply wp_ret. simpl. apply wp_bind, wp_ret. simpl. by apply Hend.
  - apply wp_bind. rewrite writeSkills_writeAll.
    apply (wp_frame_write E T (fs w)); [by apply Hsk|done| |by apply Hthrow].
    intros s1 H1. simpl. apply wp_bind, wp_ret. simpl.
    apply wp_bind, wp_ret. simpl. apply wp_bind.
    apply (wp_frame_unlink E T (fs w)); [by apply Hun|done|].
    intros s2 H2. simpl. by apply Hend.
  - apply wp_bind, wp_ret. simpl. apply wp_bind.
    apply (wp_frame_rm E T (fs w)); [by apply Hrm|done|].
    intros s1 H1. simpl. apply wp_bind.
    destruct (CommandAdapterRegistry_get E (value tool)) as [a|] eqn:Ha.
    + rewrite writeCommands_writeAll, (commandWrites_adapter _ _ _ _ _ Ha).
      apply (wp_frame_write E T (fs w)); [by apply Hcm|done| |by apply Hthrow].
      intros s2 H2. simpl. apply wp_bind, wp_ret. simpl. by apply Hend.
    + apply wp_ret. simpl. apply wp_bind, wp_ret. simpl. by apply Hend.
  - apply wp_bind, wp_ret. simpl. apply wp_bind.
    apply (wp_frame_rm E T (fs w)); [by apply Hrm|done|].
    intros s1 H1. simpl. apply wp_bind, wp_ret. simpl. apply wp_bind.
    apply (wp_frame_unlink E T (fs w)); [by apply Hun|done|].
    intros s2 H2. simpl. by apply Hend.
Qed.

Lemma wp_reconcileLoop_frame E P gs gc st cc ids w :
  wp (Update.reconcileLoop E P gs gc st cc ids)
     (λ r w', (∃ l, r = Ok (tt, l))
              ∧ sameOutside (touchedByAny E P gs gc st cc ids) (fs w) (fs w'))
     w.
Proof.
  unfold Update.reconcileLoop. apply wp_withLocals.
  apply (wp_forEach _ _
           (λ done s, sameOutside (touchedByAny E P gs gc st cc done)
                        (fs w) (fs s.1))).
  - by intros q _.
  - intros done toolId rest [w1 l1] _ Hinv. simpl in Hinv.
    destruct (findTool E toolId ≫= truthyDir) as [d|] eqn:Hv.
    + destruct (findTool E toolId) as [tool|] eqn:Hfind; [|done]. simpl in Hv.
      eapply wp_mono;
        [exact (wp_updateTool_frame E P gs gc st cc toolId tool d w1 l1 Hfind Hv)|].
      intros r s' [-> Hframe]. simpl in Hframe. intros q Hq.
      rewrite Hframe.
      * apply Hinv. intros (i & t & d' & Hi & Hval & Ht). apply Hq.
        exists i, t, d'. split; [|done]. apply elem_of_app. by left.
      * intros Ht. apply Hq. exists toolId, tool, d.
        split; [|done]. apply elem_of_app. right. left.
    + unfold wp. rewrite updateTool_skip by done. simpl.
      intros q Hq. apply Hinv.
      intros (i & t & d' & Hi & Hval & Ht). apply Hq.
      exists i, t, d'. split; [|done]. apply elem_of_app. by left.
  - intros [w1 l1] Hinv. split; [by exists l1|done].
Qed.

(** X20.  A run of [update] changes the file tree only at paths of the
    tools it selects, whatever file operation fails.  A path keeps its
    node, or stays absent, unless for a selected tool it lies in a skill
    directory or is a command file the run may delete under the delivery
    in effect, or is a file the run was asked to write or a directory
    above such a file. *)
Theorem X20_update_touches_only_the_selected_tools :
  ∀ (E : Env) (force : bool) (projectPath : path)
    (newlyConfiguredTools : list string) (w : World) (q : path),
    let c := readConfig
               (configFile (migrated E projectPath newlyConfiguredTools w)) in
    let w' := (Update.executeAfterLegacy E force projectPath
                 newlyConfiguredTools w).2 in
    (∀ toolId tool d,
       toolId ∈ selectedTools E force projectPath w c →
       validTool E toolId tool d →
       ¬ touchedBy E projectPath
           (Update.shouldGenerateSkillsOf c) (Update.shouldGenerateCommandsOf c)
           (Update.skillTemplatesOf c) (Update.commandContentsOf c)
           toolId tool d q) →
    fs w' !! q = fs w !! q.
Proof.
  intros E force P newly w q c w' Hq.
  destruct (executeAfterLegacy_outcome E force P newly w)
    as (r & w1 & Hrun & _ & [(-> & Hshape & _)|(-> & -> & _)]).
  2:{ unfold w'. by rewrite Hrun. }
  unfold w'. rewrite Hrun. simpl.
  destruct Hshape as [_ _ Hfs _ _|_ _ Hfs _ _|w0 l wl Hfs0 _ _ _ Hloop Hfs _ _ _ _].
  - by rewrite Hfs.
  - by rewrite Hfs.
  - cbv zeta in Hloop. fold c in Hloop.
    pose proof (wp_reconcileLoop_frame E P
                  (Update.shouldGenerateSkillsOf c) (Update.shouldGenerateCommandsOf c)
                  (Update.skillTemplatesOf c) (Update.commandContentsOf c)
                  (selectedTools E force P w c) w0) as Hwp.
    unfold wp in Hwp. rewrite Hloop in Hwp. simpl in Hwp.
    destruct Hwp as [_ Hframe].
    rewrite Hfs, <- Hfs0. apply Hframe.
    intros (i & t & d & Hi & Hval & Ht). by apply (Hq i t d).
Qed.

Lemma X20_witness :
  fs (Update.executeAfterLegacy Scenario.E false Sample.project []
        Scenario.staleExtra).2 !! (Sample.project ++ ["openspec"; "config.yaml"])
  = fs Scenario.staleExtra !! (Sample.project ++ ["openspec"; "config.yaml"]).
Proof.
  apply (X20_update_touches_only_the_selected_tools Scenario.E false
           Sample.project [] Scenario.staleExtra
           (Sample.project ++ ["openspec"; "config.yaml"])).
  intros toolId tool d Hsel [Hfind Hdir] Ht.
  vm_compute in Hsel. apply list_elem_of_singleton in Hsel as ->.
  vm_compute in Hfind. injection Hfind as <-.
  vm_compute in Hdir. injection Hdir as <-.
  destruct Ht as [[[Hgs _]|[Hgc _]]|(pc & Hpc & [k Hk])].
  - vm_compute in Hgs. discriminate Hgs.
  - vm_compute in Hgc. discriminate Hgc.
  - vm_compute in Hpc.
    apply elem_of_cons in Hpc as [->|Hpc];
      [vm_compute in Hk; discriminate Hk|].
    apply list_elem_of_singleton in Hpc as ->.
    vm_compute in Hk. discriminate Hk.
Defined.

Lemma existsb_ext_all {A} (g h : A → bool) (l : list A) :
  (∀ x, g x = h x) → existsb g l = existsb h l.
Proof. intros H. induction l as [|x l IH]; simpl; [done|]. by rewrite H, IH. Qed.

Lemma existsSync_agree (f f' : FS) (q : path) :
  f' !! q = f !! q → existsSync f' q = existsSync f q.
Proof. unfold existsSync. by intros ->. Qed.

Lemma drift_agree E P toolId ws gs gc (f f' : FS) :
  (∀ q, probedBy E P toolId q → f' !! q = f !! q) →
  Update.hasProfileOrDeliveryDrift E f' P toolId ws gs gc
  = Update.hasProfileOrDeliveryDrift E f P toolId ws gs gc.
Proof.
  intros H. unfold Update.hasProfileOrDeliveryDrift.
  destruct (findTool E toolId ≫= truthyDir) as [d|] eqn:Hv; [|done].
  destruct (findTool E toolId) as [tool|] eqn:Hfind; [|done]. simpl in Hv.
  assert (Hval : validTool E toolId tool d) by done.
  cbv zeta. f_equal.
  - destruct gs; apply existsb_ext_all; intros wf;
      destruct (tableGet WORKFLOW_TO_SKILL_DIR wf) as [dn|] eqn:Hdn; try done.
    + f_equal. apply existsSync_agree, H. exists tool, d. split; [done|].
      left. exists wf, dn. split; [done|]. by left.
    + apply existsSync_agree, H. exists tool, d. split; [done|].
      left. exists wf, dn. split; [done|]. by right.
  - destruct (CommandAdapterRegistry_get E toolId) as [a|] eqn:Ha; [|done].
    destruct gc; apply existsb_ext_all; intros wf.
    + f_equal. apply existsSync_agree, H. exists tool, d. split; [done|].
      right. by exists a, wf.
    + apply existsSync_agree, H. exists tool, d. split; [done|].
      right. by exists a, wf.
Qed.

Lemma drift_invalid E P toolId ws gs gc (f : FS) :
  findTool E toolId ≫= truthyDir = None →
  Update.hasProfileOrDeliveryDrift E f P toolId ws gs gc = false.
Proof. intros H. unfold Update.hasProfileOrDeliveryDrift. by rewrite H. Qed.

Lemma selectedTools_configured E force P w c toolId :
  toolId ∈ selectedTools E force P w c →
  toolId ∈ Update.getConfiguredToolsForUpdate E (fs w) P.
Proof.
  unfold selectedTools. cbv zeta. destruct force; [done|].
  unfold Update.toolsToUpdateSetOf. cbv zeta.
  rewrite toSet_elem, elem_of_app. intros [H|H].
  - apply list_elem_of_fmap in H as (s & -> & Hs).
    apply elem_of_List_filter in Hs as [_ Hs].
    apply toolStatusesOf_elem in Hs as (i & Hi & <- & _). done.
  - by apply elem_of_List_filter in H as [_ H].
Qed.

Lemma drifted_selected E P w c toolId :
  toolId ∈ Update.getConfiguredToolsForUpdate E (fs w) P →
  Update.hasProfileOrDeliveryDrift E (fs w) P toolId
    (Update.desiredWorkflowsOf c)
    (Update.shouldGenerateSkillsOf c) (Update.shouldGenerateCommandsOf c) = true →
  toolId ∈ selectedTools E false P w c.
Proof.
  intros Hin Hd. unfold selectedTools. cbv zeta.
  unfold Update.toolsToUpdateSetOf. cbv zeta.
  apply toSet_elem, elem_of_app. right.
  apply elem_of_List_filter. by split.
Qed.

(** The loop leaves without drift every tool it has processed and every
    tool that had none when it started. *)
Lemma wp_reconcileLoop_settles E P c (ct ids : list string) w :
  noFaults E →
  (∀ i, i ∈ ids → i ∈ ct) →
  (∀ A tool d, A ∈ ct → validTool E A tool d → commandsApart E P A d) →
  (∀ A B, A ∈ ct → B ∈ ct → A ≠ B →
     toolsApart E P
       (Update.shouldGenerateSkillsOf c) (Update.shouldGenerateCommandsOf c)
       (Update.skillTemplatesOf c) (Update.commandContentsOf c) A B) →
  wp (Update.reconcileLoop E P
        (Update.shouldGenerateSkillsOf c) (Update.shouldGenerateCommandsOf c)
        (Update.skillTemplatesOf c) (Update.commandContentsOf c) ids)
     (λ r w',
        ∀ A, A ∈ ct →
          A ∈ ids
          ∨ Update.hasProfileOrDeliveryDrift E (fs w) P A
              (Update.desiredWorkflowsOf c)
              (Update.shouldGenerateSkillsOf c) (Update.shouldGenerateCommandsOf c)
            = false →
          Update.hasProfileOrDeliveryDrift E (fs w') P A
            (Update.desiredWorkflowsOf c)
            (Update.shouldGenerateSkillsOf c) (Update.shouldGenerateCommandsOf c)
          = false)
     w.
Proof.
  intros Hnf Hids Hself Hapart.
  set (gs := Update.shouldGenerateSkillsOf c).
  set (gc := Update.shouldGenerateCommandsOf c).
  set (drift := λ f A, Update.hasProfileOrDeliveryDrift E f P A
                         (Update.desiredWorkflowsOf c) gs gc).
  unfold Update.reconcileLoop. apply wp_withLocals.
  apply (wp_forEach _ _
           (λ done s, ∀ A, A ∈ ct →
              A ∈ done ∨ drift (fs w) A = false → drift (fs s.1) A = false)).
  - intros A _ [H|H]; [by apply elem_of_nil in H|done].
  - intros done x rest [w1 l1] Heq Hinv. simpl in Hinv.
    assert (Hx : x ∈ ct).
    { apply Hids. rewrite Heq. apply elem_of_app. right. left. }
    destruct (findTool E x ≫= truthyDir) as [d|] eqn:Hv.
    + destruct (findTool E x) as [tool|] eqn:Hfind; [|done]. simpl in Hv.
      assert (Hval : validTool E x tool d) by done.
      destruct (updateTool_settles E P c x tool d w1 l1 Hnf Hval
                  (Hself x tool d Hx Hval)) as (s' & Hrun & Hsettled).
      pose proof (wp_updateTool_frame E P gs gc (Update.skillTemplatesOf c)
                    (Update.commandContentsOf c) x tool d w1 l1 Hfind Hv) as Hwp.
      unfold wp in *. fold gs gc in Hrun. rewrite Hrun in *. simpl in *.
      destruct Hwp as [_ Hframe].
      intros A HA Hcase. destruct (decide (A = x)) as [->|Hne]; [done|].
      unfold drift. rewrite (drift_agree E P A _ gs gc (fs w1) (fs s'.1)).
      * apply Hinv; [done|]. destruct Hcase as [H|H]; [|by right].
        left. apply elem_of_app in H as [H|H]; [done|].
        apply list_elem_of_singleton in H. done.
      * intros q Hq. apply Hframe.
        by apply (Hapart A x HA Hx Hne tool d q Hval).
    + unfold wp. rewrite updateTool_skip by done. simpl.
      intros A HA Hcase. destruct (decide (A = x)) as [->|Hne].
      * by apply drift_invalid.
      * apply Hinv; [done|]. destruct Hcase as [H|H]; [|by right].
        left. apply elem_of_app in H as [H|H]; [done|].
        apply list_elem_of_singleton in H. done.
  - intros [w1 l1] Hinv. done.
Qed.

(** X21.  After a run of [update] that returns normally and in which no
    file operation fails, the drift check is negative for every configured
    tool, for the profile and delivery the run used: a tool the run
    reconciled has the files it wants and none of a disabled kind, and a
    tool the run left alone had no drift and got none from the others.
    This needs the command files of each tool outside its own skill
    directories, and the paths checked for one tool outside what the loop
    may change for another.  (A run that throws in its migration step, on
    a config file that holds [null], reconciles nothing.) *)
Theorem X21_completed_update_leaves_no_drift :
  ∀ (E : Env) (force : bool) (projectPath : path)
    (newlyConfiguredTools : list string) (w : World),
    let ct := Update.getConfiguredToolsForUpdate E (fs w) projectPath in
    let c := readConfig
               (configFile (migrated E projectPath newlyConfiguredTools w)) in
    let w' := (Update.executeAfterLegacy E force projectPath
                 newlyConfiguredTools w).2 in
    noFaults E →
    (Update.executeAfterLegacy E force projectPath newlyConfiguredTools w).1
    = Ok tt →
    (∀ A tool d, A ∈ ct → validTool E A tool d →
                 commandsApart E projectPath A d) →
    (∀ A B, A ∈ ct → B ∈ ct → A ≠ B →
       toolsApart E projectPath
         (Update.shouldGenerateSkillsOf c) (Update.shouldGenerateCommandsOf c)
         (Update.skillTemplatesOf c) (Update.commandContentsOf c) A B) →
    ∀ A, A ∈ ct →
      Update.hasProfileOrDeliveryDrift E (fs w') projectPath A
        (Update.desiredWorkflowsOf c)
        (Update.shouldGenerateSkillsOf c) (Update.shouldGenerateCommandsOf c)
      = false.
Proof.
  intros E force P newly w ct c w' Hnf Hok Hself Hapart A HA.
  destruct (executeAfterLegacy_outcome E force P newly w)
    as (r & w1 & Hrun & _ & [(-> & Hshape & _)|(-> & -> & _)]).
  2:{ by rewrite Hrun in Hok. }
  unfold w'. rewrite Hrun. simpl.
  destruct Hshape as [Hct _ _ _ _|Hforce Hsel Hfs _ _
                      |w0 l wl Hfs0 _ _ _ Hloop Hfs _ _ _ _].
  - unfold ct in HA. rewrite Hct in HA. by apply elem_of_nil in HA.
  - rewrite Hfs.
    destruct (Update.hasProfileOrDeliveryDrift E (fs w) P A
                (Update.desiredWorkflowsOf c)
                (Update.shouldGenerateSkillsOf c)
                (Update.shouldGenerateCommandsOf c)) eqn:Hd; [|done].
    pose proof (drifted_selected E P w c A HA Hd) as Hin.
    unfold selectedTools in Hin. cbv zeta in Hin. fold c in Hsel.
    rewrite Hsel in Hin. by apply elem_of_nil in Hin.
  - cbv zeta in Hloop. fold c in Hloop.
    pose proof (wp_reconcileLoop_settles E P c ct (selectedTools E force P w c) w0
                  Hnf (selectedTools_configured E force P w c) Hself Hapart)
      as Hwp.
    unfold wp in Hwp. rewrite Hloop in Hwp. simpl in Hwp.
    rewrite Hfs. apply Hwp; [done|]. rewrite Hfs0.
    destruct (Update.hasProfileOrDeliveryDrift E (fs w) P A
                (Update.desiredWorkflowsOf c)
                (Update.shouldGenerateSkillsOf c)
                (Update.shouldGenerateCommandsOf c)) eqn:Hd; [|by right].
    left. destruct force.
    + done.
    + by apply drifted_selected.
Qed.

Lemma inDir_prefix (P : path) (a b : string) (x y : path) :
  inDir P a x → inDir P b y → x `prefix_of` y → a = b.
Proof.
  intros [r ->] [r' ->] [k Hk].
  rewrite <- (assoc_L app) in Hk. apply app_inv_head in Hk.
  simpl in Hk. by injection Hk as -> _.
Qed.

(** Tools that keep their files in different directories of the project
    are apart. *)
Lemma toolsApart_by_directory E P gs gc st cc (A B : string) :
  (∀ tA dA tB dB, validTool E A tA dA → validTool E B tB dB → dA ≠ dB) →
  commandsUnder E P A → commandsUnder E P B →
  toolsApart E P gs gc st cc A B.
Proof.
  intros Hdirs HcA HcB toolB dB q HvB (toolA & dA & HvA & Hprobe) Ht.
  apply (Hdirs toolA dA toolB dB HvA HvB).
  assert (HqA : inDir P dA q).
  { destruct Hprobe as [(wf & dn & _ & [->| ->])|(a & wf & Ha & ->)].
    - exists ["skills"; dn; "SKILL.md"]. by rewrite <- !(assoc_L app).
    - exists ["skills"; dn]. by rewrite <- !(assoc_L app).
    - by apply (HcA toolA dA a wf). }
  pose proof (findTool_value _ _ _ (proj1 HvB)) as HvalB.
  destruct Ht as [[[_ (wf & dn & _ & Hpre)]|[_ (a & wf & Ha & ->)]]
                 |(pc & Hpc & Hpre)].
  - symmetry. eapply (inDir_prefix P dB dA); [|exact HqA|exact Hpre].
    exists ["skills"; dn]. by rewrite <- !(assoc_L app).
  - eapply (inDir_prefix P dA dB); [exact HqA| |done].
    by apply (HcB toolB dB a wf).
  - eapply (inDir_prefix P dA dB); [exact HqA| |exact Hpre].
    unfold requestedWrites in Hpc. apply elem_of_app in Hpc as [Hpc|Hpc].
    + destruct gs; [|by apply elem_of_nil in Hpc].
      unfold skillWrites in Hpc.
      apply list_elem_of_fmap in Hpc as (e & -> & _). simpl.
      exists ["skills"; dirName e; "SKILL.md"]. by rewrite <- !(assoc_L app).
    + destruct gc; [|by apply elem_of_nil in Hpc].
      unfold commandWrites in Hpc. rewrite HvalB in Hpc.
      destruct (CommandAdapterRegistry_get E B) as [a|] eqn:Ha;
        [|by apply elem_of_nil in Hpc].
      unfold generateCommands in Hpc. rewrite map_map in Hpc.
      apply list_elem_of_fmap in Hpc as (i & -> & _). simpl.
      by apply (HcB toolB dB a i).
Qed.

Lemma sample_valid v flt A tool d :
  validTool (Sample.env v flt) A tool d →
  (A = "claude" ∧ d = ".claude")
  ∨ (A = "claude-internal" ∧ d = ".claude-internal").
Proof.
  intros [Hfind Hdir]. unfold findTool in Hfind. simpl in Hfind.
  destruct (bool_decide ("claude" = A)) eqn:H1.
  { apply bool_decide_eq_true in H1 as <-. injection Hfind as <-.
    injection Hdir as <-. by left. }
  destruct (bool_decide ("claude-internal" = A)) eqn:H2.
  { apply bool_decide_eq_true in H2 as <-. injection Hfind as <-.
    injection Hdir as <-. by right. }
  destruct (bool_decide ("agents" = A)) eqn:H3; [|discriminate Hfind].
  injection Hfind as <-. discriminate Hdir.
Qed.

Lemma sample_commandsUnder v flt A :
  commandsUnder (Sample.env v flt) Sample.project A.
Proof.
  intros tool d a wf Hval Ha.
  destruct (sample_valid _ _ _ _ _ Hval) as [[-> ->]|[-> ->]];
    injection Ha as <-; eexists; reflexivity.
Qed.

Lemma sample_commandsApart_any v flt A tool d :
  validTool (Sample.env v flt) A tool d →
  commandsApart (Sample.env v flt) Sample.project A d.
Proof.
  intros Hval a wf wf' dn Ha _ [k Hk].
  destruct (sample_valid _ _ _ _ _ Hval) as [[-> ->]|[-> ->]];
    injection Ha as <-; vm_compute in Hk; discriminate Hk.
Qed.

Lemma sample_toolsApart v flt gs gc st cc A B :
  A ≠ B → toolsApart (Sample.env v flt) Sample.project gs gc st cc A B.
Proof.
  intros Hne. apply toolsApart_by_directory.
  - intros tA dA tB dB HvA HvB.
    destruct (sample_valid _ _ _ _ _ HvA) as [[-> ->]|[-> ->]],
             (sample_valid _ _ _ _ _ HvB) as [[-> ->]|[-> ->]]; done.
  - apply sample_commandsUnder.
  - apply sample_commandsUnder.
Qed.

Lemma X21_witness :
  noFaults Scenario.E
  ∧ (Update.executeAfterLegacy Scenario.E false Sample.project []
       Scenario.twoTools).1 = Ok tt
  ∧ "claude-internal"
    ∈ Update.getConfiguredToolsForUpdate Scenario.E (fs Scenario.twoTools)
        Sample.project
  ∧ Update.hasProfileOrDeliveryDrift Scenario.E (fs Scenario.twoTools)
      Sample.project "claude-internal" ["explore"] true true = true
  ∧ Update.hasProfileOrDeliveryDrift Scenario.E
      (fs (Update.executeAfterLegacy Scenario.E false Sample.project []
             Scenario.twoTools).2)
      Sample.project "claude-internal" ["explore"] true true = false.
Proof.
  assert (Hnf : noFaults Scenario.E) by (intros f op; reflexivity).
  assert (Hin : "claude-internal"
                ∈ Update.getConfiguredToolsForUpdate Scenario.E
                    (fs Scenario.twoTools) Sample.project).
  { vm_compute. right. left. }
  assert (Hok : (Update.executeAfterLegacy Scenario.E false Sample.project []
                   Scenario.twoTools).1 = Ok tt) by (vm_compute; reflexivity).
  split; [exact Hnf|]. split; [exact Hok|]. split; [exact Hin|].
  split; [vm_compute; reflexivity|].
  exact (X21_completed_update_leaves_no_drift Scenario.E false Sample.project
           [] Scenario.twoTools Hnf Hok
           (λ A tool d _ Hval, sample_commandsApart_any _ _ A tool d Hval)
           (λ A B _ _ Hne, sample_toolsApart _ _ _ _ _ _ A B Hne)
           "claude-internal" Hin).
Defined.

(** ** [InitCommand.getSelectedTools] *)

Lemma toSet_nonempty (l : list string) : l ≠ [] → toSet l ≠ [].
Proof. intros H Hnil. by apply H, toSet_nil_inv. Qed.

Lemma select_step (sel : list string) (m : M World unit) (w : World) :
  (∃ w1, m w = (Ok tt, w1) ∧ quietOutcome w w1) →
  ∃ r w1,
    (m ;;; (if bool_decide (length sel = 0)
            then throw "At least one tool must be selected"
            else ret sel)) w = (r, w1)
    ∧ quietOutcome w w1
    ∧ (∀ k, r ≠ Exit k)
    ∧ (∀ l, r = Ok l → l ≠ [])
    ∧ (sel = [] → ∃ e, r = Throw e)
    ∧ (sel ≠ [] → r = Ok sel).
Proof.
  intros (w1 & Hm & Hq). unfold bind. rewrite Hm.
  destruct (bool_decide (length sel = 0)) eqn:Hsel.
  - apply bool_decide_eq_true, length_zero_iff_nil in Hsel.
    eexists _, w1. split; [reflexivity|].
    split; [done|]. split; [done|]. split; [done|]. split; [|done].
    intros _. by eexists.
  - apply bool_decide_eq_false in Hsel.
    assert (Hsel' : sel ≠ []).
    { intros H. apply Hsel. by rewrite H. }
    eexists _, w1. split; [reflexivity|].
    split; [done|]. split; [done|].
    split; [by intros l [= <-]|]. split; done.
Qed.

(** X22.  Tool selection without [--tools] either fails or yields at
    least one tool, and it changes nothing on disk or in the config.  When
    the run cannot prompt it prints nothing: it returns the detected
    tools, each once, and throws when none is detected.  When it can
    prompt it throws if no registered tool has a skills directory, and
    otherwise returns what the user selected unless that is empty. *)
Theorem X22_selection_without_tools_option_is_never_empty :
  ∀ (E : Env) (c : Init.InitCommand) (toolStates : string → option bool)
    (extendMode : bool) (detectedTools : list AIToolOption)
    (projectPath : path) (w : World),
    Init.toolsArg c = None →
    ∃ r w',
      Init.getSelectedTools E c toolStates extendMode detectedTools projectPath w
      = (r, w')
      ∧ quietOutcome w w'
      ∧ (∀ k, r ≠ Exit k)
      ∧ (∀ l, r = Ok l → l ≠ [])
      ∧ (Init.canPromptInteractively E c = false →
           w' = w
           ∧ (detectedTools ≠ [] →
                r = Ok (toSet (map value detectedTools))
                ∧ NoDup (toSet (map value detectedTools)))
           ∧ (detectedTools = [] → ∃ e, r = Throw e))
      ∧ (Init.canPromptInteractively E c = true →
           (getToolsWithSkillsDir E = [] → w' = w ∧ ∃ e, r = Throw e)
           ∧ (getToolsWithSkillsDir E ≠ [] →
                ∃ choices,
                  choices ≡ₚ getToolsWithSkillsDir E
                  ∧ (searchableMultiSelect E choices = [] → ∃ e, r = Throw e)
                  ∧ (searchableMultiSelect E choices ≠ [] →
                       r = Ok (searchableMultiSelect E choices)))).
Proof.
  intros E c toolStates extendMode detectedTools P w Hnone.
  unfold Init.getSelectedTools. rewrite Hnone. cbv zeta.
  destruct (Init.canPromptInteractively E c) eqn:Hcan; cbn [negb].
  - destruct (bool_decide (length (getToolsWithSkillsDir E) = 0)) eqn:Hvalid.
    + apply bool_decide_eq_true, length_zero_iff_nil in Hvalid.
      eexists _, w. split; [reflexivity|].
      split; [by apply quietOutcome_refl|].
      split; [done|]. split; [done|]. split; [done|].
      intros _. split; [|done]. intros _. split; [done|]. by eexists.
    + apply bool_decide_eq_false in Hvalid.
      assert (Hne : getToolsWithSkillsDir E ≠ []).
      { intros H. apply Hvalid. by rewrite H. }
      set (pre := λ toolId, default false (toolStates toolId)
                           || bool_decide (toolId ∈ toSet (map value detectedTools))).
      set (choices := List.filter pre (getToolsWithSkillsDir E)
                      ++ List.filter (λ t, negb (pre t)) (getToolsWithSkillsDir E)).
      assert (Hperm : choices ≡ₚ getToolsWithSkillsDir E).
      { unfold choices. generalize (getToolsWithSkillsDir E). intros l.
        induction l as [|x l IH]; simpl; [done|].
        destruct (pre x); simpl.
        - by rewrite IH.
        - rewrite <- Permutation_middle. by rewrite IH. }
      destruct (select_step (searchableMultiSelect E choices)
                  (if bool_decide (0 < length (toSet (map value detectedTools)))
                   then consoleLog ("Detected: "
                          +:+ String.concat ", " (map name detectedTools))
                   else ret tt) w)
        as (r & w1 & Hrun & Hquiet & Hex & Hok & H1 & H2).
      { destruct (bool_decide (0 < length (toSet (map value detectedTools)))).
        - eexists. split; [reflexivity|]. by apply quietOutcome_addOut.
        - eexists. split; [reflexivity|]. by apply quietOutcome_refl. }
      exists r, w1. split; [exact Hrun|].
      split; [done|]. split; [done|]. split; [done|]. split; [done|].
      intros _. split; [done|]. intros _. by exists choices.
  - case_bool_decide as Hdet.
    + assert (Hne : detectedTools ≠ []).
      { intros ->. simpl in Hdet. lia. }
      assert (Hset : toSet (map value detectedTools) ≠ []).
      { apply toSet_nonempty. by destruct detectedTools. }
      eexists _, w. split; [reflexivity|].
      split; [by apply quietOutcome_refl|].
      split; [done|].
      split; [intros l [= <-]; done|].
      split; [|done].
      intros _. split; [done|]. split; [|done].
      intros _. split; [done|]. apply toSet_NoDup.
    + assert (Hnil : detectedTools = []).
      { destruct detectedTools as [|t ts]; [done|]. exfalso. apply Hdet.
        assert (toSet (map value (t :: ts)) ≠ []) as Hs
          by (by apply toSet_nonempty).
        destruct (toSet (map value (t :: ts))); [done|]. simpl. lia. }
      eexists _, w. split; [reflexivity|].
      split; [by apply quietOutcome_refl|].
      split; [done|]. split; [done|]. split; [|done].
      intros _. split; [done|]. split; [done|]. intros _. by eexists.
Qed.

Lemma X22_witness :
  ∃ r w',
    Init.getSelectedTools Scenario.E (Init.mkInit None false None None)
      (λ _, None) false
      [mkTool "claude" "Claude Code" (Some ".claude");
       mkTool "claude" "Claude Code" (Some ".claude")]
      Sample.project Scenario.fresh = (r, w')
    ∧ r = Ok ["claude"] ∧ w' = Scenario.fresh.
Proof.
  destruct (X22_selection_without_tools_option_is_never_empty Scenario.E
              (Init.mkInit None false None None) (λ _, None) false
              [mkTool "claude" "Claude Code" (Some ".claude");
               mkTool "claude" "Claude Code" (Some ".claude")]
              Sample.project Scenario.fresh eq_refl)
    as (r & w' & Hrun & _ & _ & _ & Hquiet & _).
  exists r, w'. split; [exact Hrun|].
  destruct (Hquiet eq_refl) as (-> & Hdet & _).
  destruct Hdet as [-> _]; [discriminate|]. split; reflexivity.
Defined.
